(** * cryptoquant-mcp: endpoint catalog, plan limits, cache store and
    session coordinator, embedded in Rocq.

  The first part holds the definitions, one module per source module:
  - [Js], [JsDate], [Json]   the pieces of the JavaScript runtime the code
                  relies on: strings, objects as ordered property lists,
                  Date objects after ECMAScript, JSON values;
  - [PlanLimits]  plan-limits.ts: tier detection, access and date-range
                  checks, the permission payload;
  - [Discovery]   discovery.ts: the endpoint catalog and parameter validation;
  - [Cache]       cache/types.ts, cache/storage.ts, cache/summary.ts;
  - [Permissions] permissions.ts: [initializePermissions];
  - [Config], [AuthStorage], [AuthTools]
                  config.ts, auth/storage.ts and the key lookup of
                  tools/auth.ts;
  - [Spec], [Terms]  the vocabulary of the specification and of the further
                  properties;
  - [Sample], [Cases]  data for the closed examples.
  The second part holds the properties, in the same order.

  Conventions.
  - A JavaScript string is a [string]; one character stands for one UTF-16
    code unit, and the payloads are taken to be ASCII (API keys, paths,
    duration tokens, tier names).  [+:+] appends strings.
  - A plain JavaScript object used as a dictionary is an association list in
    the object's own enumeration order ([Js.obj]); only own properties are
    modelled, and property names are taken not to be array indices (which
    JavaScript enumerates first).  A JavaScript [Map] that the code only reads
    through [get] is a [gmap].
  - Module-level mutable variables ([planLimitsState], [endpointCatalog],
    [permissionState], [cachedDiscovery]) are passed explicitly, and so are
    the clock reading, the responses of the two requests and the disk.
  - [null] and [undefined] are [None]; where both can occur and differ, the
    comment of the definition says which is which. *)

From Stdlib Require Import ZArith QArith Lia String Ascii List Bool DecimalString.
From stdpp Require Import base option list sorting gmap strings.
Import ListNotations.

Open Scope Z_scope.

(* ===================================================================== *)
(** * The JavaScript runtime, as far as the sources use it *)
(* ===================================================================== *)

Module Js.

(** [s.split(sep)] for a one-character separator: never empty,
    [''.split('/')] is [['']]. *)
Fixpoint split (sep : ascii) (s : string) : list string :=
  match s with
  | EmptyString => [EmptyString]
  | String c r =>
      if bool_decide (c = sep) then EmptyString :: split sep r
      else match split sep r with
           | h :: t => String c h :: t
           | [] => [String c EmptyString]
           end
  end.

(** [parts.join(sep)]. *)
Definition join (sep : string) (parts : list string) : string :=
  String.concat sep parts.

(** [s.slice(0, n)]. *)
Fixpoint slice0 (n : nat) (s : string) : string :=
  match n, s with
  | O, _ => EmptyString
  | S _, EmptyString => EmptyString
  | S k, String c r => String c (slice0 k r)
  end.

(** [s.toLowerCase()] on ASCII text. *)
Definition toLowerChar (c : ascii) : ascii :=
  let n := nat_of_ascii c in
  if (65 <=? n)%nat && (n <=? 90)%nat then ascii_of_nat (n + 32) else c.

Fixpoint toLowerCase (s : string) : string :=
  match s with
  | EmptyString => EmptyString
  | String c r => String (toLowerChar c) (toLowerCase r)
  end.

(** Decimal numerals, as template literals print numbers. *)
Definition natString (n : nat) : string :=
  NilEmpty.string_of_uint (Nat.to_uint n).

Definition intString (z : Z) : string :=
  if z <? 0 then "-" +:+ natString (Z.to_nat (- z)) else natString (Z.to_nat z).

(** What the host decides: the local time zone adjustment in milliseconds
    ([LocalTZA(t, isUTC)]), the result of [Date.parse] on every string that
    is not in one of the two interchange forms spelled out in [JsDate]
    ([None] stands for [NaN]), and the collation behind [localeCompare]
    (negative, zero or positive). *)
Record Host := {
  LocalTZA : Z -> bool -> Z;
  parse_other : string -> option Z;
  localeCompare : string -> string -> Z;
}.

(** [items.sort(compare)] for a consistent comparison: the sort is stable.
    [le a b] says that [a] may stay before [b]. *)
Fixpoint insertSorted {A} (le : A -> A -> bool) (x : A) (l : list A) : list A :=
  match l with
  | [] => [x]
  | y :: r => if le y x then y :: insertSorted le x r else x :: l
  end.

Definition sortBy {A} (le : A -> A -> bool) (l : list A) : list A :=
  fold_left (λ sorted x, insertSorted le x sorted) l [].

(** The outcome of a call that may throw. *)
Inductive Completion (A : Type) :=
| Normal (a : A)
| Throw (error : string).
Arguments Normal {A} a.
Arguments Throw {A} error.

(** What [fetch] and [response.json()] did: the request failed, or a
    response came with a status and a body ([None] when the body is not
    JSON). *)
Inductive Fetched (Body : Type) :=
| FetchFailed (error : string)
| Responded (status : Z) (statusText : string) (body : option Body).
Arguments FetchFailed {Body} error.
Arguments Responded {Body} status statusText body.

(** [response.ok]. *)
Definition isOk (status : Z) : bool := (200 <=? status) && (status <=? 299).

(** Truthiness of a string: only the empty string is falsy. *)
Definition truthy_string (s : string) : bool :=
  match s with EmptyString => false | _ => true end.

(** An optional string argument that is there and not empty: what
    [if (x)] lets through. *)
Definition given (x : option string) : option string :=
  match x with
  | Some s => if truthy_string s then Some s else None
  | None => None
  end.

(** A plain object used as a dictionary: its own properties in
    enumeration order. *)
Definition obj (V : Type) : Type := list (string * V).

(** [o[k]] ([None] stands for [undefined]). *)
Fixpoint get {V} (k : string) (o : obj V) : option V :=
  match o with
  | [] => None
  | (k', v) :: r => if bool_decide (k' = k) then Some v else get k r
  end.

(** [o[k] = v]: an existing property keeps its place, a new one goes last. *)
Fixpoint set {V} (k : string) (v : V) (o : obj V) : obj V :=
  match o with
  | [] => [(k, v)]
  | (k', v') :: r =>
      if bool_decide (k' = k) then (k, v) :: r else (k', v') :: set k v r
  end.

Definition keys {V} (o : obj V) : list string := map fst o.
Definition values {V} (o : obj V) : list V := map snd o.

(** [sep] does not occur in [s]. *)
Fixpoint noSep (sep : ascii) (s : string) : Prop :=
  match s with
  | EmptyString => True
  | String c r => c ≠ sep ∧ noSep sep r
  end.

(** [s.includes(q)]: [q] occurs in [s] as a substring. *)
Fixpoint includes (s q : string) : bool :=
  if String.prefix q s then true
  else match s with
       | EmptyString => false
       | String _ r => includes r q
       end.

(** [s.replace(/suffix$/, "")] for a suffix that is written out and not
    empty: the one match there can be ends the string. *)
Fixpoint removeSuffix (suffix s : string) : string :=
  match s with
  | EmptyString => EmptyString
  | String c r =>
      if bool_decide (s = suffix) then EmptyString else String c (removeSuffix suffix r)
  end.

(** White space and line terminators, among the code units below 256. *)
Definition isWhiteSpace (c : ascii) : bool :=
  let n := nat_of_ascii c in
  ((9 <=? n)%nat && (n <=? 13)%nat) || (n =? 32)%nat || (n =? 160)%nat.

(** [s.trim()]. *)
Fixpoint trimStart (s : string) : string :=
  match s with
  | EmptyString => EmptyString
  | String c r => if isWhiteSpace c then trimStart r else s
  end.

Fixpoint trimEnd (s : string) : string :=
  match s with
  | EmptyString => EmptyString
  | String c r =>
      match trimEnd r with
      | EmptyString => if isWhiteSpace c then EmptyString else String c EmptyString
      | r' => String c r'
      end
  end.

Definition trim (s : string) : string := trimEnd (trimStart s).

End Js.

(* ===================================================================== *)
(** * Date objects (ECMAScript, clause "Date Objects") *)
(* ===================================================================== *)

Module JsDate.

(** A Date object is its time value; [None] is [NaN] (an invalid Date). *)
Definition Date : Type := option Z.

Definition msPerDay : Z := 86400000.
Definition msPerHour : Z := 3600000.
Definition msPerMinute : Z := 60000.
Definition msPerSecond : Z := 1000.

Definition Day (t : Z) : Z := t / msPerDay.
Definition TimeWithinDay (t : Z) : Z := t mod msPerDay.

Definition DayFromYear (y : Z) : Z :=
  365 * (y - 1970) + (y - 1969) / 4 - (y - 1901) / 100 + (y - 1601) / 400.

(** The largest [y] with [DayFromYear y <= d]: a first estimate from the mean
    length of a year, corrected by at most one. *)
Definition YearFromDay (d : Z) : Z :=
  let y0 := 1970 + (400 * d) / 146097 in
  if d <? DayFromYear y0 then y0 - 1
  else if DayFromYear (y0 + 1) <=? d then y0 + 1
  else y0.

Definition YearFromTime (t : Z) : Z := YearFromDay (Day t).

(** [1] in a leap year, [0] otherwise. *)
Definition InLeapYear (y : Z) : Z :=
  if negb (y mod 4 =? 0) then 0
  else if negb (y mod 100 =? 0) then 1
  else if negb (y mod 400 =? 0) then 0
  else 1.

Definition DayWithinYear (t : Z) : Z := Day t - DayFromYear (YearFromTime t).

(** Day number, within its year, of the first day of month [m] (0-based);
    [monthStart leap 12] is the length of the year. *)
Definition monthStart (leap m : Z) : Z :=
  match m with
  | 0 => 0
  | 1 => 31
  | 2 => 59 + leap
  | 3 => 90 + leap
  | 4 => 120 + leap
  | 5 => 151 + leap
  | 6 => 181 + leap
  | 7 => 212 + leap
  | 8 => 243 + leap
  | 9 => 273 + leap
  | 10 => 304 + leap
  | 11 => 334 + leap
  | _ => 365 + leap
  end.

Definition monthOfDay (leap d : Z) : Z :=
  if d <? 31 then 0
  else if d <? 59 + leap then 1
  else if d <? 90 + leap then 2
  else if d <? 120 + leap then 3
  else if d <? 151 + leap then 4
  else if d <? 181 + leap then 5
  else if d <? 212 + leap then 6
  else if d <? 243 + leap then 7
  else if d <? 273 + leap then 8
  else if d <? 304 + leap then 9
  else if d <? 334 + leap then 10
  else 11.

Definition MonthFromTime (t : Z) : Z :=
  monthOfDay (InLeapYear (YearFromTime t)) (DayWithinYear t).

Definition DateFromTime (t : Z) : Z :=
  DayWithinYear t
  - monthStart (InLeapYear (YearFromTime t)) (MonthFromTime t) + 1.

Definition DaysInMonth (y m : Z) : Z :=
  monthStart (InLeapYear y) (m + 1) - monthStart (InLeapYear y) m.

Definition HourFromTime (t : Z) : Z := (t / msPerHour) mod 24.
Definition MinFromTime (t : Z) : Z := (t / msPerMinute) mod 60.
Definition SecFromTime (t : Z) : Z := (t / msPerSecond) mod 60.
Definition msFromTime (t : Z) : Z := t mod msPerSecond.

Definition MakeTime (hour min sec ms : Z) : Z :=
  hour * msPerHour + min * msPerMinute + sec * msPerSecond + ms.

(** Months outside 0..11 carry into the year; the day of the month is added
    as a plain offset, so it may run past either end of the month. *)
Definition MakeDay (year month date : Z) : Z :=
  let ym := year + month / 12 in
  let mn := month mod 12 in
  DayFromYear ym + monthStart (InLeapYear ym) mn + date - 1.

Definition MakeDate (day time : Z) : Z := day * msPerDay + time.

Definition TimeClip (t : Z) : Date :=
  if Z.abs t >? 8640000000000000 then None else Some t.

Definition LocalTime (h : Js.Host) (t : Z) : Z := t + Js.LocalTZA h t true.
Definition UTC (h : Js.Host) (t : Z) : Z := t - Js.LocalTZA h t false.

(** Getters and setters on a valid Date (time value [t]). *)
Definition getFullYear (h : Js.Host) (t : Z) : Z := YearFromTime (LocalTime h t).
Definition getMonth (h : Js.Host) (t : Z) : Z := MonthFromTime (LocalTime h t).
Definition getDate (h : Js.Host) (t : Z) : Z := DateFromTime (LocalTime h t).

Definition setFullYear (h : Js.Host) (t : Z) (year : Z) : Date :=
  let lt := LocalTime h t in
  let newDate :=
    MakeDate (MakeDay year (MonthFromTime lt) (DateFromTime lt)) (TimeWithinDay lt) in
  TimeClip (UTC h newDate).

Definition setMonth (h : Js.Host) (t : Z) (month : Z) : Date :=
  let lt := LocalTime h t in
  let newDate :=
    MakeDate (MakeDay (YearFromTime lt) month (DateFromTime lt)) (TimeWithinDay lt) in
  TimeClip (UTC h newDate).

Definition setDate (h : Js.Host) (t : Z) (date : Z) : Date :=
  let lt := LocalTime h t in
  let newDate :=
    MakeDate (MakeDay (YearFromTime lt) (MonthFromTime lt) date) (TimeWithinDay lt) in
  TimeClip (UTC h newDate).

(** [a < b] on Date objects: the time values are compared, and any
    comparison with [NaN] is false. *)
Definition lt (a b : Date) : bool :=
  match a, b with
  | Some x, Some y => x <? y
  | _, _ => false
  end.

(** ** [toISOString] and [Date.parse] *)

Definition digit (n : Z) : ascii :=
  match n with
  | 0 => "0" | 1 => "1" | 2 => "2" | 3 => "3" | 4 => "4"
  | 5 => "5" | 6 => "6" | 7 => "7" | 8 => "8" | _ => "9"
  end%char.

Definition digit_val (c : ascii) : option Z :=
  let n := Z.of_nat (nat_of_ascii c) - 48 in
  if (0 <=? n) && (n <=? 9) then Some n else None.

Definition pad2 (n : Z) : string :=
  String (digit (n / 10)) (String (digit (n mod 10)) "").
Definition pad3 (n : Z) : string := String (digit (n / 100)) (pad2 (n mod 100)).
Definition pad4 (n : Z) : string := String (digit (n / 1000)) (pad3 (n mod 1000)).
Definition pad6 (n : Z) : string :=
  String (digit (n / 100000)) (String (digit (n / 10000 mod 10)) (pad4 (n mod 10000))).

(** Years 0..9999 print with four digits, all others with a sign and six. *)
Definition year_string (y : Z) : string :=
  if (0 <=? y) && (y <=? 9999) then pad4 y
  else String (if y <? 0 then "-"%char else "+"%char) (pad6 (Z.abs y)).

(** The part of [toISOString] before the ['T']. *)
Definition iso_date_part (t : Z) : string :=
  year_string (YearFromTime t) +:+ "-" +:+ pad2 (MonthFromTime t + 1)
  +:+ "-" +:+ pad2 (DateFromTime t).

Definition iso_time_part (t : Z) : string :=
  pad2 (HourFromTime t) +:+ ":" +:+ pad2 (MinFromTime t) +:+ ":"
  +:+ pad2 (SecFromTime t) +:+ "." +:+ pad3 (msFromTime t) +:+ "Z".

(** [d.toISOString()]; [None] is the [RangeError] thrown on an invalid Date. *)
Definition toISOString (d : Date) : option string :=
  match d with
  | None => None
  | Some t => Some (iso_date_part t +:+ "T" +:+ iso_time_part t)
  end.

Fixpoint take_digits (k : nat) (acc : Z) (s : string) : option (Z * string) :=
  match k with
  | O => Some (acc, s)
  | S k' =>
      match s with
      | EmptyString => None
      | String c r =>
          match digit_val c with
          | Some d => take_digits k' (10 * acc + d) r
          | None => None
          end
      end
  end.

Definition expect (c : ascii) (s : string) : option string :=
  match s with
  | String c' r => if bool_decide (c' = c) then Some r else None
  | EmptyString => None
  end.

Definition parse_year (s : string) : option (Z * string) :=
  match s with
  | String "+" r => take_digits 6 0 r
  | String "-" r =>
      match take_digits 6 0 r with
      | Some (y, r') => if y =? 0 then None else Some (- y, r')
      | None => None
      end
  | _ => take_digits 4 0 s
  end.

Definition parse_time (s : string) : option Z :=
  r ← expect "T" s;
  '(hh, r) ← take_digits 2 0 r;
  r ← expect ":" r;
  '(mi, r) ← take_digits 2 0 r;
  r ← expect ":" r;
  '(ss, r) ← take_digits 2 0 r;
  r ← expect "." r;
  '(ms, r) ← take_digits 3 0 r;
  r ← expect "Z" r;
  if bool_decide (r = "") && (hh <=? 23) && (mi <=? 59) && (ss <=? 59)
  then Some (MakeTime hh mi ss ms) else None.

(** The two forms of the date-time interchange format spelled out here:
    [YYYY-MM-DD] (UTC midnight) and [YYYY-MM-DDTHH:mm:ss.sssZ], the year
    either four digits or a sign and six, every field in range.  The outer
    [None] says that the string is in neither form. *)
Definition parse_iso (s : string) : option Date :=
  '(y, r) ← parse_year s;
  r ← expect "-" r;
  '(m, r) ← take_digits 2 0 r;
  r ← expect "-" r;
  '(d, r) ← take_digits 2 0 r;
  if (1 <=? m) && (m <=? 12) && (1 <=? d) && (d <=? DaysInMonth y (m - 1)) then
    match r with
    | EmptyString => Some (TimeClip (MakeDate (MakeDay y (m - 1) d) 0))
    | _ =>
        time ← parse_time r;
        Some (TimeClip (MakeDate (MakeDay y (m - 1) d) time))
    end
  else None.

(** [new Date(s)] for a string [s]. *)
Definition parse (h : Js.Host) (s : string) : Date :=
  match parse_iso s with
  | Some d => d
  | None => Js.parse_other h s
  end.

End JsDate.

(* ===================================================================== *)
(** * JSON values *)
(* ===================================================================== *)

(** What [JSON.parse] and [response.json()] produce.  Numbers are the
    integers the payloads carry (a cache version, token counts); [undefined]
    is not a JSON value and is an [option] where it can occur. *)
Module Json.

#[warnings="-register-all"] Inductive value :=
| Null
| Bool (b : bool)
| Num (n : Z)
| Str (s : string)
| Arr (items : list value)
| Obj (props : list (string * value)).

(** [!!v]. *)
Definition truthy (v : value) : bool :=
  match v with
  | Null => false
  | Bool b => b
  | Num n => negb (n =? 0)
  | Str s => Js.truthy_string s
  | Arr _ | Obj _ => true
  end.

(** [!!v] for a value that may be [undefined]. *)
Definition truthy_opt (v : option value) : bool :=
  match v with
  | Some v => truthy v
  | None => false
  end.

(** [typeof v === "object"]: objects, arrays and [null]. *)
Definition isObjectType (v : value) : bool :=
  match v with
  | Null | Arr _ | Obj _ => true
  | _ => false
  end.

(** [v[k]] for a property name [k] that is neither an array index nor
    [length]: only plain objects have such a property of their own.  The
    access throws on [null] and [undefined]; see [propOrThrow]. *)
Definition prop (k : string) (v : value) : option value :=
  match v with
  | Obj props => Js.get k props
  | _ => None
  end.

(** [v?.[k]]. *)
Definition optProp (k : string) (v : option value) : option value :=
  match v with
  | Some v => prop k v
  | None => None
  end.

(** [v[k]] with the [TypeError] of a [null] or [undefined] receiver made
    explicit: the outer [None] is the exception. *)
Definition propOrThrow (k : string) (v : option value) : option (option value) :=
  match v with
  | None | Some Null => None
  | Some v => Some (prop k v)
  end.

(** [Object.entries(v)] on an object or an array. *)
Definition entries (v : value) : list (string * value) :=
  match v with
  | Obj props => props
  | Arr items => imap (λ i x, (Js.natString i, x)) items
  | _ => []
  end.

(** [typeof v === "object" && v !== null]. *)
Definition isObject (v : option value) : bool :=
  match v with
  | Some (Arr _) | Some (Obj _) => true
  | _ => false
  end.

(** [v === s] and [v === n] for a value that may be [undefined]. *)
Definition isStr (s : string) (v : option value) : bool :=
  match v with
  | Some (Str s') => bool_decide (s' = s)
  | _ => false
  end.

Definition isNum (n : Z) (v : option value) : bool :=
  match v with
  | Some (Num n') => n' =? n
  | _ => false
  end.

(** [items.includes(s)] for a string [s]: only the same string is equal to it. *)
Definition includesString (s : string) (items : list value) : bool :=
  existsb (λ v, match v with Str s' => bool_decide (s' = s) | _ => false end) items.

(** The string a value converts to ([String(v)], and what [new Date(v)]
    parses when [v] is an array or an object): an array joins its items with
    commas, [null] items giving the empty string. *)
Fixpoint toString (v : value) : string :=
  match v with
  | Null => "null"
  | Bool true => "true"
  | Bool false => "false"
  | Num n => Js.intString n
  | Str s => s
  | Arr items =>
      Js.join ","
        ((fix each (l : list value) : list string :=
            match l with
            | [] => []
            | Null :: r => "" :: each r
            | x :: r => toString x :: each r
            end) items)
  | Obj _ => "[object Object]"
  end.

End Json.

(* ===================================================================== *)
(** * plan-limits.ts *)
(* ===================================================================== *)

Module PlanLimits.

Definition DurationLimit := string.

Inductive UserPlan :=
| basic | advanced | professional | premium | custom | unknown.

#[global] Instance UserPlan_eq_dec : EqDecision UserPlan.
Proof. solve_decision. Defined.

Record MetricLimits := { window : Js.obj DurationLimit }.

(** asset -> category -> metric -> MetricLimits *)
Definition PlanLimits : Type := Js.obj (Js.obj (Js.obj MetricLimits)).

Record ApiRateLimit := { token : Z; rate_window : string }.

Record PlanLimitsState := {
  loaded : bool;
  limits : option PlanLimits;
  plan : UserPlan;
  statics : list Json.value;
  apiRateLimit : option ApiRateLimit;
  fetched_at : option Z;
}.

Definition DEFAULT_STATE : PlanLimitsState :=
  {| loaded := false; limits := None; plan := unknown; statics := [];
     apiRateLimit := None; fetched_at := None |}.

(** Normalize plan name from API (e.g., "PROFESSIONAL") to UserPlan type *)
Definition normalizePlanName (apiPlanName : string) : UserPlan :=
  let normalized := Js.toLowerCase apiPlanName in
  if bool_decide (normalized = "basic") then basic
  else if bool_decide (normalized = "advanced") then advanced
  else if bool_decide (normalized = "professional") then professional
  else if bool_decide (normalized = "premium") then premium
  else if bool_decide (normalized = "custom") then custom
  else unknown.

(** ** Tier detection *)

Record DurationCounts := { p0d : Z; p3y : Z; p1d : Z; total : Z }.

(** Body of the innermost loop of [collectDurationCounts]. *)
Definition countDuration (counts : DurationCounts) (duration : DurationLimit)
  : DurationCounts :=
  let t := total counts + 1 in
  if bool_decide (duration = "P0D") then
    {| p0d := p0d counts + 1; p3y := p3y counts; p1d := p1d counts; total := t |}
  else if bool_decide (duration = "P3Y") then
    {| p0d := p0d counts; p3y := p3y counts + 1; p1d := p1d counts; total := t |}
  else if bool_decide (duration = "P1D") then
    {| p0d := p0d counts; p3y := p3y counts; p1d := p1d counts + 1; total := t |}
  else
    {| p0d := p0d counts; p3y := p3y counts; p1d := p1d counts; total := t |}.

Definition countMetric (counts : DurationCounts) (metricLimits : MetricLimits) :=
  fold_left countDuration (Js.values (window metricLimits)) counts.

Definition countMetrics (counts : DurationCounts) (metrics : Js.obj MetricLimits) :=
  fold_left countMetric (Js.values metrics) counts.

Definition countCategories (counts : DurationCounts)
    (categories : Js.obj (Js.obj MetricLimits)) :=
  fold_left countMetrics (Js.values categories) counts.

Definition collectDurationCounts (limits : PlanLimits) : DurationCounts :=
  fold_left countCategories (Js.values limits)
    {| p0d := 0; p3y := 0; p1d := 0; total := 0 |}.

(** [a > b] on numbers. *)
Definition Qgtb (a b : Q) : bool := negb (Qle_bool a b).

(** The ratios are quotients of two counters; on such quotients the
    double-precision comparisons with [0.5] and [0.3] agree with the exact
    ones as long as the counters stay below 2^52, so they are taken in [Q]. *)
Definition detectPlanFromLimits (limits : option PlanLimits) : UserPlan :=
  match limits with
  | None => basic
  | Some limits =>
      let counts := collectDurationCounts limits in
      if total counts =? 0 then basic
      else
        let p1dRatio := (inject_Z (p1d counts) / inject_Z (total counts))%Q in
        let p0dRatio := (inject_Z (p0d counts) / inject_Z (total counts))%Q in
        let p3yRatio := (inject_Z (p3y counts) / inject_Z (total counts))%Q in
        if Qgtb p1dRatio (1 # 2) then basic
        else if Qgtb p0dRatio (1 # 2) then premium
        else if Qgtb p3yRatio (3 # 10) then professional
        else advanced
  end.

(** ** Lookups *)

Record ParsedEndpointPath := { asset : string; category : string; metric : string }.

Definition parseEndpointPath (endpointPath : string) : option ParsedEndpointPath :=
  let parts := Js.split "/" endpointPath in
  if (length parts <? 5)%nat then None
  else Some {| asset := nth 2 parts ""; category := nth 3 parts "";
               metric := Js.join "/" (drop 4 parts) |}.

Definition getMetricLimits (st : PlanLimitsState) (endpointPath : string)
  : option MetricLimits :=
  match limits st with
  | None => None
  | Some limits =>
      match parseEndpointPath endpointPath with
      | None => None
      | Some parsed =>
          categories ← Js.get (asset parsed) limits;
          metrics ← Js.get (category parsed) categories;
          Js.get (metric parsed) metrics
      end
  end.

(** [windowType] is optional; the named window is used only when both the
    name and the value stored under it are truthy. *)
Definition getPlanLimit (st : PlanLimitsState) (endpointPath : string)
    (windowType : option string) : option DurationLimit :=
  match getMetricLimits st endpointPath with
  | None => None
  | Some metricLimits =>
      let named :=
        match windowType with
        | Some wt =>
            if Js.truthy_string wt then
              match Js.get wt (window metricLimits) with
              | Some v => if Js.truthy_string v then Some v else None
              | None => None
              end
            else None
        | None => None
        end in
      match named with
      | Some v => Some v
      | None =>
          match Js.keys (window metricLimits) with
          | [] => None
          | w0 :: _ => Js.get w0 (window metricLimits)
          end
      end
  end.

Definition hasEndpointAccess (st : PlanLimitsState) (endpointPath : string) : bool :=
  if negb (loaded st) || bool_decide (plan st = unknown) then true
  else if Json.includesString endpointPath (statics st) then true
  else if bool_decide (plan st = basic) && negb (bool_decide (is_Some (limits st)))
  then false
  else
    let hasLimits := bool_decide (is_Some (getPlanLimit st endpointPath None)) in
    if hasLimits then true
    else if bool_decide (plan st = premium) || bool_decide (plan st = professional)
            || bool_decide (plan st = custom)
    then true
    else false.

(** ** Duration tokens *)

Definition isDigit (c : ascii) : bool := bool_decide (is_Some (JsDate.digit_val c)).

Definition isUnit (c : ascii) : bool :=
  bool_decide (c = "Y"%char) || bool_decide (c = "M"%char)
  || bool_decide (c = "W"%char) || bool_decide (c = "D"%char).

(** [\d*[YMWD]$]: the digits and the unit letter. *)
Fixpoint digitsThenUnit (s : string) : option (string * ascii) :=
  match s with
  | EmptyString => None
  | String c r =>
      match r with
      | EmptyString => if isUnit c then Some (EmptyString, c) else None
      | _ =>
          if isDigit c then
            match digitsThenUnit r with
            | Some (ds, u) => Some (String c ds, u)
            | None => None
            end
          else None
      end
  end.

(** [duration.match(/^P(\d+)([YMWD])$/)]: the two captured groups. *)
Definition matchDuration (duration : string) : option (string * ascii) :=
  match duration with
  | String "P" (String c r) =>
      if isDigit c then
        match digitsThenUnit r with
        | Some (ds, u) => Some (String c ds, u)
        | None => None
        end
      else None
  | _ => None
  end.

(** [parseInt(ds, 10)] on a string of decimal digits.  The value is kept
    exact; from 2^53 on, where a double rounds, every date below is invalid
    whatever the exact value (lemma [parseDurationToDate_huge_quantity]). *)
Definition parseInt10 (ds : string) : Z :=
  let fix go (acc : Z) (s : string) : Z :=
    match s with
    | EmptyString => acc
    | String c r =>
        match JsDate.digit_val c with
        | Some d => go (10 * acc + d) r
        | None => acc
        end
    end in
  go 0 ds.

(** [now] is the time value of [new Date()]; the outer [None] is [null]. *)
Definition parseDurationToDate (h : Js.Host) (now : Z) (duration : DurationLimit)
  : option JsDate.Date :=
  if bool_decide (duration = "P0D") then None
  else
    match matchDuration duration with
    | None => None
    | Some (digits, unit) =>
        let value := parseInt10 digits in
        let date := now in
        if bool_decide (unit = "Y"%char) then
          Some (JsDate.setFullYear h date (JsDate.getFullYear h date - value))
        else if bool_decide (unit = "M"%char) then
          Some (JsDate.setMonth h date (JsDate.getMonth h date - value))
        else if bool_decide (unit = "W"%char) then
          Some (JsDate.setDate h date (JsDate.getDate h date - value * 7))
        else if bool_decide (unit = "D"%char) then
          Some (JsDate.setDate h date (JsDate.getDate h date - value))
        else None
    end.

(** ** The permission payload *)

Record ParsedFragment := {
  f_limits : option PlanLimits;
  f_statics : list Json.value;
  f_apiRateLimit : option ApiRateLimit;
}.

Record ParsedApiResponse := {
  r_limits : option PlanLimits;
  r_statics : list Json.value;
  r_apiRateLimit : option ApiRateLimit;
  r_planName : option string;
}.

(** The loop over the fields of one metric: the fields whose value is a
    duration token, and whether there was one. *)
Definition parseWindows (md : Json.value) : Js.obj DurationLimit * bool :=
  fold_left
    (λ '(windowLimits, hasValidWindow) '(key, value),
       match value with
       | Json.Str value =>
           if bool_decide (is_Some (matchDuration value))
           then (Js.set key value windowLimits, true)
           else (windowLimits, hasValidWindow)
       | _ => (windowLimits, hasValidWindow)
       end)
    (Json.entries md) ([], false).

(** The loop over the metrics of one category. *)
Definition parseMetrics (metrics : Json.value) : Js.obj MetricLimits :=
  fold_left
    (λ out '(metric, metricData),
       if negb (Json.isObject (Some metricData)) then out
       else
         let '(windowLimits, hasValidWindow) := parseWindows metricData in
         if hasValidWindow then Js.set metric {| window := windowLimits |} out
         else out)
    (Json.entries metrics) [].

(** The loop over the categories of one asset. *)
Definition parseCategories (categories : Json.value) : Js.obj (Js.obj MetricLimits) :=
  fold_left
    (λ out '(category, metrics),
       if negb (Json.isObject (Some metrics)) then out
       else Js.set category (parseMetrics metrics) out)
    (Json.entries categories) [].

(** The loop over the assets of [apiEndpoint]. *)
Definition parseAssets (apiEndpoint : Json.value) : PlanLimits :=
  fold_left
    (λ limits '(asset, categories),
       if bool_decide (asset = "statics") || negb (Json.isObject (Some categories))
       then limits
       else Js.set asset (parseCategories categories) limits)
    (Json.entries apiEndpoint) [].

Definition parseApiResponse (data : Json.value) : ParsedApiResponse :=
  if negb (Json.truthy data) || negb (Json.isObjectType data) then
    {| r_limits := None; r_statics := []; r_apiRateLimit := None; r_planName := None |}
  else
    let planName :=
      match Json.prop "plan" data with
      | Some plan =>
          if Json.truthy plan && Json.isObjectType plan then
            match Json.prop "name" plan with
            | Some (Json.Str name) => Some name
            | _ => None
            end
          else None
      | None => None
      end in
    let '(limits, statics) :=
      match Json.prop "apiEndpoint" data with
      | Some apiEndpoint =>
          if Json.truthy apiEndpoint && Json.isObjectType apiEndpoint then
            let limits := parseAssets apiEndpoint in
            let statics :=
              match Json.prop "statics" apiEndpoint with
              | Some (Json.Arr items) => items
              | _ => []
              end in
            (if (0 <? length (Js.keys limits))%nat then Some limits else None, statics)
          else (None, [])
      | None => (None, [])
      end in
    let apiRateLimit :=
      match Json.prop "apiRateLimit" data with
      | Some rl =>
          if Json.truthy rl && Json.isObjectType rl then
            match Json.prop "token" rl, Json.prop "window" rl with
            | Some (Json.Num token), Some (Json.Str window) =>
                Some {| token := token; rate_window := window |}
            | _, _ => None
            end
          else None
      | None => None
      end in
    {| r_limits := limits; r_statics := statics; r_apiRateLimit := apiRateLimit;
       r_planName := planName |}.

Record FetchPlanLimitsResult := {
  success : bool;
  fetch_error : option string;
  rawResponse : option Json.value;
  parsed : option ParsedFragment;
  fetched_plan : option UserPlan;
}.

(** [fetchPlanLimits], with the outcome of the request and [Date.now()]
    given; returns the result and the new [planLimitsState]. *)
Definition fetchPlanLimits (now : Z) (response : Js.Fetched Json.value)
    (st : PlanLimitsState) : FetchPlanLimitsResult * PlanLimitsState :=
  match response with
  | Js.FetchFailed error =>
      ({| success := false; fetch_error := Some ("Plan limits fetch error: " +:+ error);
          rawResponse := None; parsed := None; fetched_plan := None |}, st)
  | Js.Responded status statusText body =>
      if bool_decide (status = 403) || bool_decide (status = 500) then
        ({| success := true; fetch_error := None; rawResponse := None;
            parsed := Some {| f_limits := None; f_statics := [];
                              f_apiRateLimit := None |};
            fetched_plan := Some basic |},
         {| loaded := true; limits := None; plan := basic; statics := [];
            apiRateLimit := None; fetched_at := Some now |})
      else if negb (Js.isOk status) then
        ({| success := false;
            fetch_error := Some ("Plan limits API failed: " +:+ Js.intString status
                                 +:+ " " +:+ statusText);
            rawResponse := None; parsed := None; fetched_plan := None |}, st)
      else
        match body with
        | None =>
            ({| success := false;
                fetch_error := Some "Failed to parse plan limits response";
                rawResponse := None; parsed := None; fetched_plan := None |}, st)
        | Some data =>
            let parsed := parseApiResponse data in
            let plan :=
              match r_planName parsed with
              | Some planName =>
                  if Js.truthy_string planName then normalizePlanName planName
                  else detectPlanFromLimits (r_limits parsed)
              | None => detectPlanFromLimits (r_limits parsed)
              end in
            ({| success := true; fetch_error := None; rawResponse := Some data;
                parsed := Some {| f_limits := r_limits parsed;
                                  f_statics := r_statics parsed;
                                  f_apiRateLimit := r_apiRateLimit parsed |};
                fetched_plan := Some plan |},
             {| loaded := true; limits := r_limits parsed; plan := plan;
                statics := r_statics parsed; apiRateLimit := r_apiRateLimit parsed;
                fetched_at := Some now |})
        end
  end.

(** Load plan limits state from cached data (no API call). *)
Definition loadPlanLimitsFromCache (now : Z) (limits : option PlanLimits)
    (statics : list Json.value) (apiRateLimit : option ApiRateLimit) (plan : UserPlan)
  : PlanLimitsState :=
  {| loaded := true; limits := limits; plan := plan; statics := statics;
     apiRateLimit := apiRateLimit; fetched_at := Some now |}.

Record DateRangeValidation := {
  valid : bool;
  error : option string;
  earliest_allowed : option string;
  limit : option DurationLimit;
}.

Definition validResult : DateRangeValidation :=
  {| valid := true; error := None; earliest_allowed := None; limit := None |}.

Definition invalidResult (msg : string) : DateRangeValidation :=
  {| valid := false; error := Some msg; earliest_allowed := None; limit := None |}.

(** [fromDate] and [windowType] are optional; [!fromDate] also holds for the
    empty string, [!limit] for an empty token.  [toISOString] throws on an
    invalid Date; that branch is never taken, [<] being false on [NaN]. *)
Definition validateDateRange (h : Js.Host) (now : Z) (st : PlanLimitsState)
    (endpointPath : string) (fromDate : option string) (windowType : option string)
  : DateRangeValidation :=
  if negb (loaded st) || bool_decide (plan st = unknown) then validResult
  else if negb (hasEndpointAccess st endpointPath) then
    invalidResult "Endpoint not accessible on your plan"
  else
    match fromDate with
    | None => validResult
    | Some fromDate =>
        if negb (Js.truthy_string fromDate) then validResult
        else
          match getPlanLimit st endpointPath windowType with
          | None => invalidResult "No access to this endpoint/window combination"
          | Some limit =>
              if negb (Js.truthy_string limit) then
                invalidResult "No access to this endpoint/window combination"
              else if bool_decide (limit = "P0D") then validResult
              else
                match parseDurationToDate h now limit with
                | None => validResult
                | Some earliestDate =>
                    let requestedDate := JsDate.parse h fromDate in
                    if negb (bool_decide (is_Some requestedDate)) then
                      invalidResult "Invalid date format"
                    else if JsDate.lt requestedDate earliestDate then
                      match JsDate.toISOString earliestDate with
                      | Some iso =>
                          {| valid := false;
                             error := Some "Date range exceeds plan limit";
                             earliest_allowed := Some (nth 0 (Js.split "T" iso) "");
                             limit := Some limit |}
                      | None => invalidResult "RangeError: Invalid time value"
                      end
                    else validResult
                end
          end
    end.

(** The address [fetchPlanLimits] asks. *)
Definition planLimitsUrl (apiUrl : string) : string :=
  Js.removeSuffix "/v1" apiUrl +:+ "/v1/my/discovery/endpoints?source=mcp".

(** ** Queries on the loaded state *)

(** The new API response format no longer includes result limits per
    endpoint. *)
Definition getEndpointResultLimit (_endpointPath : string) : option Z := None.



Definition getRequiredPlan (st : PlanLimitsState) (endpointPath : string) : UserPlan :=
  match limits st with
  | None => professional
  | Some _ =>
      match getPlanLimit st endpointPath None with
      | None => professional
      | Some limit =>
          if bool_decide (limit = "P0D") || bool_decide (limit = "P1D") then basic
          else professional
      end
  end.

Definition getApiRateLimit (st : PlanLimitsState) : option ApiRateLimit :=
  apiRateLimit st.

Definition getStaticEndpoints (st : PlanLimitsState) : list Json.value := statics st.

Definition resetPlanLimits (st : PlanLimitsState) : PlanLimitsState := DEFAULT_STATE.

(** ** The summary of what a plan can reach *)

(** [date_limit] is [undefined] ([None]) for a metric with no window. *)
Record AccessibleEndpointInfo := {
  info_path : string;
  date_limit : option DurationLimit;
}.

(** [acc_endpoints] is only included for basic/advanced plans. *)
Record AccessibleEndpointsSummary := {
  acc_count : Z;
  acc_endpoints : option (list AccessibleEndpointInfo);
}.

(** [state.plan === "basic" || state.plan === "advanced"]. *)
Definition isLimitedPlan (plan : UserPlan) : bool :=
  bool_decide (plan = basic) || bool_decide (plan = advanced).

(** [metricLimits.window["day"] || Object.values(metricLimits.window)[0]]. *)
Definition dayLimitOf (windows : Js.obj DurationLimit) : option DurationLimit :=
  match Js.get "day" windows with
  | Some v => if Js.truthy_string v then Some v else head (Js.values windows)
  | None => head (Js.values windows)
  end.

(** The three nested loops of [getAccessibleEndpointsSummary] over the keys
    of the table, each key looked up again as the code does; the pair is
    [count] and [endpoints]. *)
Definition tallyMetrics (plan : UserPlan) (asset category : string)
    (metrics : Js.obj MetricLimits) (acc : Z * list AccessibleEndpointInfo)
  : Z * list AccessibleEndpointInfo :=
  fold_left
    (λ '(count, endpoints) metric,
       match Js.get metric metrics with
       | None => (count, endpoints)
       | Some metricLimits =>
           (count + 1,
            if isLimitedPlan plan then
              endpoints
              ++ [{| info_path :=
                       "/v1/" +:+ asset +:+ "/" +:+ category +:+ "/" +:+ metric;
                     date_limit := dayLimitOf (window metricLimits) |}]
            else endpoints)
       end)
    (Js.keys metrics) acc.

Definition tallyCategories (plan : UserPlan) (asset : string)
    (categories : Js.obj (Js.obj MetricLimits)) (acc : Z * list AccessibleEndpointInfo)
  : Z * list AccessibleEndpointInfo :=
  fold_left
    (λ acc category,
       match Js.get category categories with
       | None => acc
       | Some metrics => tallyMetrics plan asset category metrics acc
       end)
    (Js.keys categories) acc.

Definition tallyAssets (plan : UserPlan) (limits : PlanLimits)
    (acc : Z * list AccessibleEndpointInfo) : Z * list AccessibleEndpointInfo :=
  fold_left
    (λ acc asset,
       match Js.get asset limits with
       | None => acc
       | Some categories => tallyCategories plan asset categories acc
       end)
    (Js.keys limits) acc.

(** [totalDiscoveredEndpoints] is optional, and counts only when it is not
    zero. *)
Definition getAccessibleEndpointsSummary (st : PlanLimitsState)
    (totalDiscoveredEndpoints : option Z) : AccessibleEndpointsSummary :=
  if negb (loaded st) then {| acc_count := 0; acc_endpoints := None |}
  else if bool_decide (plan st = basic) && negb (bool_decide (is_Some (limits st)))
  then {| acc_count := 0; acc_endpoints := Some [] |}
  else
    let allDiscovered :=
      if bool_decide (plan st = premium) || bool_decide (plan st = professional)
         || bool_decide (plan st = custom)
      then match totalDiscoveredEndpoints with
           | Some n => if n =? 0 then None else Some n
           | None => None
           end
      else None in
    match allDiscovered with
    | Some n => {| acc_count := n; acc_endpoints := None |}
    | None =>
        let '(count, endpoints) :=
          match limits st with
          | Some limits => tallyAssets (plan st) limits (0, [])
          | None => (0, [])
          end in
        let count := count + Z.of_nat (length (statics st)) in
        {| acc_count := count;
           acc_endpoints :=
             if isLimitedPlan (plan st) && (0 <? length endpoints)%nat
             then Some endpoints else None |}
    end.

End PlanLimits.
(* ===================================================================== *)
(** * discovery.ts *)
(* ===================================================================== *)

Module Discovery.

(** Parameter name -> allowed values; only read by name. *)
Definition EndpointParameter : Type := gmap string (list string).

Record DiscoveryEndpoint := {
  raw_path : string;
  raw_parameters : EndpointParameter;
  raw_required_parameters : list string;
}.

Record ParsedEndpoint := {
  path : string;
  asset : string;
  category : string;
  metric : string;
  parameters : EndpointParameter;
  required_parameters : list string;
}.

#[global] Instance DiscoveryEndpoint_eq_dec : EqDecision DiscoveryEndpoint.
Proof. solve_decision. Defined.

#[global] Instance ParsedEndpoint_eq_dec : EqDecision ParsedEndpoint.
Proof. solve_decision. Defined.

Record EndpointCatalog := {
  endpoints : list ParsedEndpoint;
  assets : list string;
  categories : list string;
  byAsset : gmap string (list ParsedEndpoint);
  byCategory : gmap string (list ParsedEndpoint);
  byAssetCategory : gmap string (list ParsedEndpoint);
  fetched_at : Z;
}.

Definition addToIndex (map : gmap string (list ParsedEndpoint)) (key : string)
    (endpoint : ParsedEndpoint) : gmap string (list ParsedEndpoint) :=
  match map !! key with
  | Some existing => <[key := existing ++ [endpoint]]> map
  | None => <[key := [endpoint]]> map
  end.

(** The local variables of [parseEndpoints]. *)
Record Building := {
  b_endpoints : list ParsedEndpoint;
  b_assets : gset string;
  b_categories : gset string;
  b_byAsset : gmap string (list ParsedEndpoint);
  b_byCategory : gmap string (list ParsedEndpoint);
  b_byAssetCategory : gmap string (list ParsedEndpoint);
}.

(** One iteration of the loop of [parseEndpoints]. *)
Definition parseEndpointsStep (b : Building) (ep : DiscoveryEndpoint) : Building :=
  let parts := Js.split "/" (raw_path ep) in
  if (length parts <? 5)%nat then b
  else
    let asset := nth 2 parts "" in
    let category := nth 3 parts "" in
    let parsed :=
      {| path := raw_path ep; asset := asset; category := category;
         metric := Js.join "/" (drop 4 parts);
         parameters := raw_parameters ep;
         required_parameters := raw_required_parameters ep |} in
    {| b_endpoints := b_endpoints b ++ [parsed];
       b_assets := {[asset]} ∪ b_assets b;
       b_categories := {[category]} ∪ b_categories b;
       b_byAsset := addToIndex (b_byAsset b) asset parsed;
       b_byCategory := addToIndex (b_byCategory b) category parsed;
       b_byAssetCategory :=
         addToIndex (b_byAssetCategory b) (asset +:+ "/" +:+ category) parsed |}.

(** The default order of [sort()]: strings compared code unit by code unit. *)
Definition codeUnitLe (a b : string) : Prop := String.leb a b = true.

#[global] Instance codeUnitLe_dec a b : Decision (codeUnitLe a b).
Proof. unfold codeUnitLe. apply _. Defined.

(** [Array.from(set).sort()]. *)
Definition sortedElements (s : gset string) : list string :=
  merge_sort codeUnitLe (elements s).

(** [now] is [Date.now()]. *)
Definition parseEndpoints (now : Z) (rawEndpoints : list DiscoveryEndpoint)
  : EndpointCatalog :=
  let b := fold_left parseEndpointsStep rawEndpoints
             {| b_endpoints := []; b_assets := ∅; b_categories := ∅;
                b_byAsset := ∅; b_byCategory := ∅; b_byAssetCategory := ∅ |} in
  {| endpoints := b_endpoints b;
     assets := sortedElements (b_assets b);
     categories := sortedElements (b_categories b);
     byAsset := b_byAsset b;
     byCategory := b_byCategory b;
     byAssetCategory := b_byAssetCategory b;
     fetched_at := now |}.

(** The body of the catalog response, taken to have its declared type;
    [result_data] is [None] when [data.result?.data] is missing. *)
Record DiscoveryResponse := {
  status_code : Z;
  status_message : string;
  result_data : option (list DiscoveryEndpoint);
}.

Record FetchResult := { success : bool; error : option string }.

(** [fetchDiscoveryEndpoints], with the outcome of the request and
    [Date.now()] given; returns the result and the new [endpointCatalog]. *)
Definition fetchDiscoveryEndpoints (now : Z) (response : Js.Fetched DiscoveryResponse)
    (endpointCatalog : option EndpointCatalog) : FetchResult * option EndpointCatalog :=
  match response with
  | Js.FetchFailed e =>
      ({| success := false; error := Some ("Discovery fetch error: " +:+ e) |},
       endpointCatalog)
  | Js.Responded status statusText body =>
      if negb (Js.isOk status) then
        ({| success := false;
            error := Some ("Discovery API failed: " +:+ Js.intString status
                           +:+ " " +:+ statusText) |}, endpointCatalog)
      else
        match body with
        | None =>
            ({| success := false; error := Some "Failed to parse discovery response" |},
             endpointCatalog)
        | Some data =>
            match result_data data with
            | Some rawEndpoints =>
                if negb (status_code data =? 200) then
                  ({| success := false;
                      error := Some ("Invalid discovery response: "
                                     +:+ status_message data) |}, endpointCatalog)
                else
                  ({| success := true; error := None |},
                   Some (parseEndpoints now rawEndpoints))
            | None =>
                ({| success := false;
                    error := Some ("Invalid discovery response: "
                                   +:+ status_message data) |}, endpointCatalog)
            end
        end
  end.

(** ** Parameter validation *)

Record ParamValidation := { valid : bool; errors : list string }.

Definition missingMessage (required : string) : string :=
  "Missing required parameter: " +:+ required.

Definition invalidMessage (key value : string) (allowedValues : list string) : string :=
  "Invalid value for '" +:+ key +:+ "': '" +:+ value +:+ "'. Allowed: "
  +:+ Js.join ", " allowedValues.

(** [v === undefined || v === null], where the outer [None] is a property
    that is not there and [Some None] one that holds [undefined]. *)
Definition isNullish (v : option (option Json.value)) : bool :=
  match v with
  | None | Some None | Some (Some Json.Null) => true
  | _ => false
  end.

(** [params] is a [Record<string, unknown>]: a value may be [undefined]. *)
Definition validateEndpointParams (endpoint : ParsedEndpoint)
    (params : Js.obj (option Json.value)) : ParamValidation :=
  let errors :=
    fold_left
      (λ errors required,
         if isNullish (Js.get required params)
         then errors ++ [missingMessage required] else errors)
      (required_parameters endpoint) [] in
  let errors :=
    fold_left
      (λ errors '(key, value),
         if isNullish (Some value) then errors
         else
           match parameters endpoint !! key, value with
           | Some allowedValues, Some (Json.Str value) =>
               if negb (bool_decide (value ∈ allowedValues))
               then errors ++ [invalidMessage key value allowedValues]
               else errors
           | _, _ => errors
           end)
      params errors in
  {| valid := bool_decide (errors = []); errors := errors |}.

(** The address [fetchDiscoveryEndpoints] asks. *)
Definition discoveryUrl (apiUrl : string) : string :=
  Js.removeSuffix "/v1" apiUrl +:+ "/v1/discovery/endpoints?source=mcp".

(** ** Queries on the catalog *)

Definition getEndpointCatalog (endpointCatalog : option EndpointCatalog)
  : option EndpointCatalog := endpointCatalog.

Definition isDiscoveryLoaded (endpointCatalog : option EndpointCatalog) : bool :=
  bool_decide (is_Some endpointCatalog).

Definition getBaseEndpoints (catalog : EndpointCatalog) (asset category : option string)
  : list ParsedEndpoint :=
  match Js.given asset, Js.given category with
  | Some asset, Some category =>
      default [] (byAssetCategory catalog !! (asset +:+ "/" +:+ category))
  | Some asset, None => default [] (byAsset catalog !! asset)
  | None, Some category => default [] (byCategory catalog !! category)
  | None, None => endpoints catalog
  end.

(** The three options are optional. *)
Definition searchEndpoints (endpointCatalog : option EndpointCatalog)
    (asset category query : option string) : list ParsedEndpoint :=
  match endpointCatalog with
  | None => []
  | Some catalog =>
      let results := getBaseEndpoints catalog asset category in
      match Js.given query with
      | None => results
      | Some query =>
          let queryLower := Js.toLowerCase query in
          List.filter
            (λ ep, Js.includes (Js.toLowerCase (path ep)) queryLower
                   || Js.includes (Js.toLowerCase (metric ep)) queryLower)
            results
      end
  end.

(** [None] is [undefined]. *)
Definition getEndpointByPath (endpointCatalog : option EndpointCatalog) (p : string)
  : option ParsedEndpoint :=
  match endpointCatalog with
  | None => None
  | Some catalog => List.find (λ ep, bool_decide (path ep = p)) (endpoints catalog)
  end.

Record ParameterOptions := {
  po_parameters : EndpointParameter;
  po_required : list string;
}.

Definition getParameterOptions (endpointCatalog : option EndpointCatalog) (p : string)
  : option ParameterOptions :=
  match getEndpointByPath endpointCatalog p with
  | None => None
  | Some endpoint =>
      Some {| po_parameters := parameters endpoint;
              po_required := required_parameters endpoint |}
  end.

Record CountEntry := { entry_name : string; entry_count : Z }.

Record DiscoverySummary := {
  ds_total_endpoints : Z;
  ds_assets : list CountEntry;
  ds_categories : list CountEntry;
  ds_fetched_at : string;
}.

(** [None] is [null]; [toISOString] throws on a time stamp that is no
    date. *)
Definition getDiscoverySummary (endpointCatalog : option EndpointCatalog)
  : Js.Completion (option DiscoverySummary) :=
  match endpointCatalog with
  | None => Js.Normal None
  | Some catalog =>
      let counted (index : gmap string (list ParsedEndpoint)) (k : string) :=
        {| entry_name := k;
           entry_count := Z.of_nat (length (default [] (index !! k))) |} in
      match JsDate.toISOString (JsDate.TimeClip (fetched_at catalog)) with
      | None => Js.Throw "RangeError: Invalid time value"
      | Some iso =>
          Js.Normal
            (Some {| ds_total_endpoints := Z.of_nat (length (endpoints catalog));
                     ds_assets := counted (byAsset catalog) <$> assets catalog;
                     ds_categories := counted (byCategory catalog) <$> categories catalog;
                     ds_fetched_at := iso |})
      end
  end.


Definition resetDiscovery (endpointCatalog : option EndpointCatalog)
  : option EndpointCatalog := None.

End Discovery.

(* ===================================================================== *)
(** * cache/types.ts, cache/storage.ts, cache/summary.ts *)
(* ===================================================================== *)

Module Cache.
Import PlanLimits.

Definition CACHE_VERSION : Z := 1.
Definition CACHE_TTL_DAYS : Z := 7.

(** ** The cache file *)

(** The one cache file: not there, there but unreadable or not JSON, or
    holding the text of a JSON value.  Writing a value and parsing it back
    is taken to give the value again. *)
Inductive FileState :=
| Missing
| Unreadable
| Holds (data : Json.value).

(** The disk: the cache file, and the error that file-system writes run into
    (full disk, read-only home), if any. *)
Record Disk := {
  file : FileState;
  write_error : option string;
}.

(** ** JSON images of the typed values *)

Definition encodePlan (plan : UserPlan) : Json.value :=
  Json.Str match plan with
           | basic => "basic" | advanced => "advanced"
           | professional => "professional" | premium => "premium"
           | custom => "custom" | unknown => "unknown"
           end.

Definition encodeMetricLimits (metricLimits : MetricLimits) : Json.value :=
  Json.Obj [("window", Json.Obj (prod_map id Json.Str <$> window metricLimits))].

Definition encodeLimits (limits : PlanLimits) : Json.value :=
  Json.Obj
    (prod_map id
       (λ categories,
          Json.Obj
            (prod_map id
               (λ metrics, Json.Obj (prod_map id encodeMetricLimits <$> metrics))
             <$> categories))
     <$> limits).

Definition encodeRateLimit (rl : ApiRateLimit) : Json.value :=
  Json.Obj [("token", Json.Num (token rl)); ("window", Json.Str (rate_window rl))].

Definition encodeParsed (parsed : ParsedFragment) : Json.value :=
  Json.Obj
    [("limits", from_option encodeLimits Json.Null (f_limits parsed));
     ("statics", Json.Arr (f_statics parsed));
     ("apiRateLimit", from_option encodeRateLimit Json.Null (f_apiRateLimit parsed))].

(** ** Summary (cache/summary.ts) *)

Record AssetSummary := {
  name : string;
  endpoint_count : Z;
  categories : list string;
}.

Record DiscoverySummaryData := {
  total_endpoints : Z;
  assets : list AssetSummary;
  category_by_asset : Js.obj (list string);
}.

Definition encodeStrings (l : list string) : Json.value := Json.Arr (Json.Str <$> l).

Definition encodeSummary (summary : DiscoverySummaryData) : Json.value :=
  Json.Obj
    [("total_endpoints", Json.Num (total_endpoints summary));
     ("assets",
      Json.Arr
        ((λ a, Json.Obj [("name", Json.Str (name a));
                         ("endpoint_count", Json.Num (endpoint_count a));
                         ("categories", encodeStrings (categories a))])
         <$> assets summary));
     ("category_by_asset",
      Json.Obj (prod_map id encodeStrings <$> category_by_asset summary))].

(** The value kept per asset while counting: a counter and a [Set] of
    category names, in insertion order. *)
Record AssetData := {
  ad_endpoint_count : Z;
  ad_categories : list string;
}.

(** [set.add(x)]. *)
Definition setAdd (x : string) (s : list string) : list string :=
  if bool_decide (x ∈ s) then s else s ++ [x].

(** [if (!assetData.has(asset)) assetData.set(asset, {...})]. *)
Definition ensureAsset (asset : string) (assetData : Js.obj AssetData)
  : Js.obj AssetData :=
  match Js.get asset assetData with
  | Some _ => assetData
  | None => Js.set asset {| ad_endpoint_count := 0; ad_categories := [] |} assetData
  end.

(** The entry of [asset], which [ensureAsset] has put there. *)
Definition dataOf (asset : string) (assetData : Js.obj AssetData) : AssetData :=
  default {| ad_endpoint_count := 0; ad_categories := [] |} (Js.get asset assetData).

Definition countLimits (limits : PlanLimits) (assetData : Js.obj AssetData)
  : Js.obj AssetData :=
  fold_left
    (λ assetData '(asset, categories),
       let assetData := ensureAsset asset assetData in
       let data :=
         fold_left
           (λ data '(category, metrics),
              {| ad_endpoint_count :=
                   ad_endpoint_count data + Z.of_nat (length (Js.keys metrics));
                 ad_categories := setAdd category (ad_categories data) |})
           categories (dataOf asset assetData) in
       Js.set asset data assetData)
    limits assetData.

(** The loop over the static paths; [staticPath.split] throws on an item
    that is not a string. *)
Fixpoint countStatics (statics : list Json.value) (assetData : Js.obj AssetData)
  : Js.Completion (Js.obj AssetData) :=
  match statics with
  | [] => Js.Normal assetData
  | Json.Str staticPath :: rest =>
      let parts := Js.split "/" staticPath in
      if (4 <=? length parts)%nat then
        let asset := nth 2 parts "" in
        let category := nth 3 parts "" in
        let assetData := ensureAsset asset assetData in
        let data := dataOf asset assetData in
        countStatics rest
          (Js.set asset
             {| ad_endpoint_count := ad_endpoint_count data + 1;
                ad_categories := setAdd category (ad_categories data) |}
             assetData)
      else countStatics rest assetData
  | _ :: _ => Js.Throw "TypeError: staticPath.split is not a function"
  end.

Definition generateSummary (h : Js.Host) (limits : option PlanLimits)
    (statics : list Json.value) : Js.Completion DiscoverySummaryData :=
  let assetData := from_option (λ limits, countLimits limits []) [] limits in
  match countStatics statics assetData with
  | Js.Throw e => Js.Throw e
  | Js.Normal assetData =>
      let sorted (data : AssetData) := Js.sortBy String.leb (ad_categories data) in
      let assets :=
        (λ '(asset, data),
           {| name := asset; endpoint_count := ad_endpoint_count data;
              categories := sorted data |}) <$> assetData in
      let categoryByAsset :=
        fold_left (λ out '(asset, data), Js.set asset (sorted data) out) assetData [] in
      let totalEndpoints :=
        fold_left (λ total '(_, data), total + ad_endpoint_count data) assetData 0 in
      Js.Normal
        {| total_endpoints := totalEndpoints;
           assets := Js.sortBy (λ a b, Js.localeCompare h (name a) (name b) <=? 0) assets;
           category_by_asset := categoryByAsset |}
  end.

(** [value || fallback] for a value that may be [undefined]. *)
Definition orElse (v : option Json.value) (fallback : Json.value) : Json.value :=
  match v with
  | Some v => if Json.truthy v then v else fallback
  | None => fallback
  end.

(** Raw API response structure from /my/discovery/endpoints.  The code
    checks only that [apiEndpoint] is an object; the other fields are stored
    as they come. *)
Record MyDiscoveryRawResponse := {
  apiEndpoint : Json.value;
  plan_name : Json.value;
  rate_token : Json.value;
  rate_window_name : Json.value;
}.

Definition encodeRawResponse (raw : MyDiscoveryRawResponse) : Json.value :=
  Json.Obj
    [("apiEndpoint", apiEndpoint raw);
     ("plan", Json.Obj [("name", plan_name raw)]);
     ("apiRateLimit",
      Json.Obj [("token", rate_token raw); ("window", rate_window_name raw)])].

(** Extract raw response structure for caching; [None] is [null]. *)
Definition extractRawResponse (apiResponse : Json.value)
  : option MyDiscoveryRawResponse :=
  let apiEndpoint := Json.prop "apiEndpoint" apiResponse in
  let plan := Json.prop "plan" apiResponse in
  let apiRateLimit := Json.prop "apiRateLimit" apiResponse in
  match apiEndpoint with
  | Some apiEndpoint =>
      if negb (Json.truthy apiEndpoint) || negb (Json.isObjectType apiEndpoint) then None
      else
        Some {| apiEndpoint := apiEndpoint;
                plan_name := orElse (Json.optProp "name" plan) (Json.Str "unknown");
                rate_token := orElse (Json.optProp "token" apiRateLimit) (Json.Num 0);
                rate_window_name :=
                  orElse (Json.optProp "window" apiRateLimit) (Json.Str "day") |}
  | None => None
  end.

(** ** Storage (cache/storage.ts) *)

(** [new Date(v)] for a value read from the file. *)
Definition dateOfJson (h : Js.Host) (v : option Json.value) : JsDate.Date :=
  match v with
  | None => None
  | Some Json.Null => Some 0
  | Some (Json.Bool b) => Some (if b then 1 else 0)
  | Some (Json.Num n) => JsDate.TimeClip n
  | Some (Json.Str s) => JsDate.parse h s
  | Some v => JsDate.parse h (Json.toString v)
  end.

Definition typeError (k : string) : string :=
  "TypeError: Cannot read properties of undefined (reading '" +:+ k +:+ "')".

(** Check if cache is still valid (not expired and version matches).
    [now] is the time value of [new Date()]. *)
Definition isCacheValid (h : Js.Host) (now : Z) (cache : Json.value)
    (apiUrl apiKeyPrefix : string) : Js.Completion bool :=
  match Json.propOrThrow "version" (Some cache) with
  | None => Js.Throw (typeError "version")
  | Some version =>
      if negb (Json.isNum CACHE_VERSION version) then Js.Normal false
      else
        let metadata := Json.prop "metadata" cache in
        match Json.propOrThrow "api_url" metadata with
        | None => Js.Throw (typeError "api_url")
        | Some api_url =>
            if negb (Json.isStr apiUrl api_url) then Js.Normal false
            else if negb (Json.isStr apiKeyPrefix (Json.optProp "api_key_prefix" metadata))
            then Js.Normal false
            else
              let expiresAt := dateOfJson h (Json.optProp "expires_at" metadata) in
              if negb (bool_decide (is_Some expiresAt)) || JsDate.lt expiresAt (Some now)
              then Js.Normal false
              else Js.Normal true
        end
  end.

(** Read cache from file.  Returns null ([None]) if cache doesn't exist or is
    invalid JSON; the [TypeError] of reading a field of [null] is caught. *)
Definition readCache (disk : Disk) : option Json.value :=
  match file disk with
  | Missing => None
  | Unreadable => None
  | Holds data =>
      match Json.propOrThrow "version" (Some data) with
      | None => None
      | Some version =>
          if negb (Json.truthy_opt version)
             || negb (Json.truthy_opt (Json.prop "metadata" data))
             || negb (Json.truthy_opt (Json.prop "raw_response" data))
             || negb (Json.truthy_opt (Json.prop "summary" data))
          then None
          else Some data
      end
  end.

(** Write cache to file.  The dates are formatted before anything is
    written; [write_error] is what [mkdirSync] or [writeFileSync] throws. *)
Definition writeCache (h : Js.Host) (now : Z) (disk : Disk) (apiUrl apiKey : string)
    (rawResponse : MyDiscoveryRawResponse) (parsed : ParsedFragment)
    (summary : DiscoverySummaryData) (plan : UserPlan) : Js.Completion Disk :=
  let expiresAt := JsDate.setDate h now (JsDate.getDate h now + CACHE_TTL_DAYS) in
  match JsDate.toISOString (Some now), JsDate.toISOString expiresAt with
  | Some cached_at, Some expires_at =>
      let cache :=
        Json.Obj
          [("version", Json.Num CACHE_VERSION);
           ("metadata",
            Json.Obj [("api_url", Json.Str apiUrl);
                      ("api_key_prefix", Json.Str (Js.slice0 8 apiKey));
                      ("cached_at", Json.Str cached_at);
                      ("expires_at", Json.Str expires_at);
                      ("plan", encodePlan plan)]);
           ("raw_response", encodeRawResponse rawResponse);
           ("parsed", encodeParsed parsed);
           ("summary", encodeSummary summary)] in
      match write_error disk with
      | Some e => Js.Throw e
      | None => Js.Normal {| file := Holds cache; write_error := None |}
      end
  | _, _ => Js.Throw "RangeError: Invalid time value"
  end.

(** Delete cache file; a failure is swallowed. *)
Definition invalidateCache (disk : Disk) : Disk :=
  match file disk, write_error disk with
  | Missing, _ => disk
  | _, Some _ => disk
  | _, None => {| file := Missing; write_error := None |}
  end.

Definition clearAllCaches (disk : Disk) : Disk := invalidateCache disk.

(** Calculate cache age in days; [None] is [NaN].  ([cache.metadata] is an
    object wherever this is called: the record has passed [readCache].) *)
Definition getCacheAgeDays (h : Js.Host) (now : Z) (cache : Json.value) : option Z :=
  match dateOfJson h (Json.optProp "cached_at" (Json.prop "metadata" cache)) with
  | Some cachedAt => Some ((now - cachedAt) / (1000 * 60 * 60 * 24))
  | None => None
  end.

(** Get human-readable cache status string. *)
Definition getCacheStatus (h : Js.Host) (now : Z) (cache : option Json.value)
    (fromCache : bool) : string :=
  match cache with
  | Some cache =>
      if negb fromCache then "fresh"
      else "cached (" +:+ from_option Js.intString "NaN" (getCacheAgeDays h now cache)
           +:+ "d old)"
  | None => "fresh"
  end.

End Cache.

(* ===================================================================== *)
(** * permissions.ts *)
(* ===================================================================== *)

Module Permissions.
Import PlanLimits.

Record PermissionState := {
  authenticated : bool;
  api_key : option string;
  cached_at : option Z;
  plan : UserPlan;
  plan_limits_loaded : bool;
  from_cache : bool;
}.

Definition DEFAULT_STATE : PermissionState :=
  {| authenticated := false; api_key := None; cached_at := None; plan := unknown;
     plan_limits_loaded := false; from_cache := false |}.

Record InitializeResult := {
  success : bool;
  error : option string;
  result_from_cache : bool;
  cache_status : string;
  summary : option Json.value;
}.

(** The module-level variables of the four modules, and the disk. *)
Record World := {
  planLimitsState : PlanLimitsState;
  endpointCatalog : option Discovery.EndpointCatalog;
  permissionState : PermissionState;
  cachedDiscovery : option Json.value;
  disk : Cache.Disk;
}.

(** The state of a fresh process over a given disk. *)
Definition initialWorld (disk : Cache.Disk) : World :=
  {| planLimitsState := PlanLimits.DEFAULT_STATE; endpointCatalog := None;
     permissionState := DEFAULT_STATE; cachedDiscovery := None; disk := disk |}.

(** How a call of [initializePermissions] ends: the promise resolves, or it
    rejects, or the call has read from the cache file a value that does not
    have the type the code casts it to, where this model stops following it. *)
Inductive Outcome :=
| Returned (result : InitializeResult) (w : World)
| Rejected (error : string) (w : World)
| Untyped.

(** ** The typed values a cache record is cast to *)

Definition decodeObj {A} (f : Json.value → option A) (v : Json.value)
  : option (Js.obj A) :=
  match v with
  | Json.Obj props => mapM (λ '(k, x), y ← f x; Some (k, y)) props
  | _ => None
  end.

Definition decodeDuration (v : Json.value) : option DurationLimit :=
  match v with
  | Json.Str s => Some s
  | _ => None
  end.

Definition decodeMetricLimits (v : Json.value) : option MetricLimits :=
  w ← Json.prop "window" v;
  windows ← decodeObj decodeDuration w;
  Some {| window := windows |}.

(** [cache.parsed.limits as PlanLimits | null]. *)
Definition decodeLimits (v : option Json.value) : option (option PlanLimits) :=
  match v with
  | None | Some Json.Null => Some None
  | Some v => Some <$> decodeObj (decodeObj (decodeObj decodeMetricLimits)) v
  end.

(** [cache.parsed.statics as string[]]: the items are not looked at. *)
Definition decodeStatics (v : option Json.value) : option (list Json.value) :=
  match v with
  | Some (Json.Arr items) => Some items
  | _ => None
  end.

(** [cache.parsed.apiRateLimit as ApiRateLimit | null]. *)
Definition decodeRateLimit (v : option Json.value) : option (option ApiRateLimit) :=
  match v with
  | None | Some Json.Null => Some None
  | Some rl =>
      match Json.prop "token" rl, Json.prop "window" rl with
      | Some (Json.Num token), Some (Json.Str window) =>
          Some (Some {| token := token; rate_window := window |})
      | _, _ => None
      end
  end.

(** [cache.metadata.plan as UserPlan]. *)
Definition decodePlan (v : option Json.value) : option UserPlan :=
  match v with
  | Some (Json.Str s) =>
      if bool_decide (s = "basic") then Some basic
      else if bool_decide (s = "advanced") then Some advanced
      else if bool_decide (s = "professional") then Some professional
      else if bool_decide (s = "premium") then Some premium
      else if bool_decide (s = "custom") then Some custom
      else if bool_decide (s = "unknown") then Some unknown
      else None
  | _ => None
  end.

(** ** [initializePermissions] *)

(** The branch taken on a valid cache record. *)
Definition initializeFromCache (h : Js.Host) (now : Z) (apiKey : string)
    (discoveryResponse : Js.Fetched Discovery.DiscoveryResponse)
    (cache : Json.value) (w : World) : Outcome :=
  let parsed := Json.prop "parsed" cache in
  match Json.propOrThrow "limits" parsed with
  | None => Rejected (Cache.typeError "limits") w
  | Some limits =>
      match decodeLimits limits,
            decodeStatics (Json.optProp "statics" parsed),
            decodeRateLimit (Json.optProp "apiRateLimit" parsed),
            decodePlan (Json.optProp "plan" (Json.prop "metadata" cache)) with
      | Some limits, Some statics, Some apiRateLimit, Some plan =>
          let planLimitsState :=
            loadPlanLimitsFromCache now limits statics apiRateLimit plan in
          (* a failed catalog fetch is only logged *)
          let '(_, endpointCatalog) :=
            Discovery.fetchDiscoveryEndpoints now discoveryResponse (endpointCatalog w) in
          let cacheStatus := Cache.getCacheStatus h now (Some cache) true in
          Returned
            {| success := true; error := None; result_from_cache := true;
               cache_status := cacheStatus; summary := Json.prop "summary" cache |}
            {| planLimitsState := planLimitsState;
               endpointCatalog := endpointCatalog;
               permissionState :=
                 {| authenticated := true; api_key := Some apiKey;
                    cached_at := Some now; plan := plan;
                    plan_limits_loaded := true; from_cache := true |};
               cachedDiscovery := Some cache;
               disk := disk w |}
      | _, _, _, _ => Untyped
      end
  end.

Definition failure (error : option string) : InitializeResult :=
  {| success := false; error := error; result_from_cache := false;
     cache_status := "none"; summary := None |}.

(** The branch taken on a cache miss or an invalid cache: the [try] block
    and its [catch]. *)
Definition initializeFresh (h : Js.Host) (now : Z) (apiKey apiUrl : string)
    (discoveryResponse : Js.Fetched Discovery.DiscoveryResponse)
    (planResponse : Js.Fetched Json.value) (w : World) : Outcome :=
  let '(discoveryResult, endpointCatalog) :=
    Discovery.fetchDiscoveryEndpoints now discoveryResponse (endpointCatalog w) in
  if negb (Discovery.success discoveryResult) then
    Returned (failure (Discovery.error discoveryResult)) w
  else
    let '(planResult, planState) :=
      fetchPlanLimits now planResponse (planLimitsState w) in
    let w1 :=
      {| planLimitsState := planState; endpointCatalog := endpointCatalog;
         permissionState := permissionState w;
         cachedDiscovery := cachedDiscovery w; disk := disk w |} in
    let authenticatedState :=
      {| authenticated := true; api_key := Some apiKey; cached_at := Some now;
         plan := PlanLimits.plan planState;
         plan_limits_loaded := loaded planState; from_cache := false |} in
    (* "Cache write failed but auth succeeded" *)
    let withoutCache :=
      Returned
        {| success := true; error := None; result_from_cache := false;
           cache_status := "none"; summary := None |}
        {| planLimitsState := planState; endpointCatalog := endpointCatalog;
           permissionState := authenticatedState;
           cachedDiscovery := cachedDiscovery w; disk := disk w |} in
    let caught (e : string) := Returned (failure (Some ("Network error: " +:+ e))) w1 in
    match PlanLimits.success planResult, rawResponse planResult, parsed planResult with
    | true, Some raw, Some parsed =>
        if Json.truthy raw then
          match Cache.extractRawResponse raw with
          | Some rawResponse =>
              match Cache.generateSummary h (f_limits parsed) (f_statics parsed) with
              | Js.Throw e => caught e
              | Js.Normal summary =>
                  match Cache.writeCache h now (disk w) apiUrl apiKey rawResponse
                          parsed summary (default unknown (fetched_plan planResult)) with
                  | Js.Throw e => caught e
                  | Js.Normal disk' =>
                      Returned
                        {| success := true; error := None; result_from_cache := false;
                           cache_status := "fresh";
                           summary := Some (Cache.encodeSummary summary) |}
                        {| planLimitsState := planState;
                           endpointCatalog := endpointCatalog;
                           permissionState := authenticatedState;
                           cachedDiscovery := Cache.readCache disk';
                           disk := disk' |}
                  end
              end
          | None => withoutCache
          end
        else withoutCache
    | _, _, _ => withoutCache
    end.

(** [initializePermissions(apiKey, apiUrl)] in the world [w], the outcomes
    of the two requests and the clock reading of the call being given. *)
Definition initializePermissions (h : Js.Host) (now : Z) (apiKey apiUrl : string)
    (discoveryResponse : Js.Fetched Discovery.DiscoveryResponse)
    (planResponse : Js.Fetched Json.value) (w : World) : Outcome :=
  let apiKeyPrefix := Js.slice0 8 apiKey in
  match Cache.readCache (disk w) with
  | Some cache =>
      match Cache.isCacheValid h now cache apiUrl apiKeyPrefix with
      | Js.Throw e => Rejected e w
      | Js.Normal true => initializeFromCache h now apiKey discoveryResponse cache w
      | Js.Normal false =>
          initializeFresh h now apiKey apiUrl discoveryResponse planResponse w
      end
  | None => initializeFresh h now apiKey apiUrl discoveryResponse planResponse w
  end.

(** [resetPermissions()]. *)
Definition resetPermissions (w : World) : World :=
  {| planLimitsState := PlanLimits.DEFAULT_STATE; endpointCatalog := None;
     permissionState := DEFAULT_STATE; cachedDiscovery := None; disk := disk w |}.

(** [setGuestMode()]; [now] is [Date.now()]. *)
Definition setGuestMode (now : Z) (w : World) : World :=
  {| planLimitsState := planLimitsState w; endpointCatalog := endpointCatalog w;
     permissionState :=
       {| authenticated := false; api_key := None; cached_at := Some now;
          plan := unknown; plan_limits_loaded := false; from_cache := false |};
     cachedDiscovery := cachedDiscovery w; disk := disk w |}.

(** Clear discovery cache (called by reset_session with clear_cache=true);
    [apiUrl] is optional. *)
Definition clearDiscoveryCache (apiUrl : option string) (w : World) : World :=
  let disk' :=
    match apiUrl with
    | Some u =>
        if Js.truthy_string u then Cache.invalidateCache (disk w)
        else Cache.clearAllCaches (disk w)
    | None => Cache.clearAllCaches (disk w)
    end in
  {| planLimitsState := planLimitsState w; endpointCatalog := endpointCatalog w;
     permissionState := permissionState w; cachedDiscovery := None; disk := disk' |}.

End Permissions.

(* ===================================================================== *)
(** * config.ts, auth/storage.ts and the key lookup of tools/auth.ts *)
(* ===================================================================== *)

Module Config.

Definition DEFAULT_API_URL : string := "https://api.cryptoquant.com/v1".

(** [env] is the environment variable CRYPTOQUANT_API_URL, if set. *)
Definition getApiUrl (env : option string) : string :=
  match env with
  | Some url => if Js.truthy_string url then url else DEFAULT_API_URL
  | None => DEFAULT_API_URL
  end.

Definition getApiBaseUrl (env : option string) : string :=
  Js.removeSuffix "/v1" (getApiUrl env).

End Config.

Module AuthStorage.

(** The credentials file is a file like the cache file: a [Cache.Disk] of
    its own. *)

(** [data.api_key || null]; reading a field of [null] throws and is caught.
    The value is handed out as it is in the file, string or not. *)
Definition getStoredApiKey (credentials : Cache.Disk) : option Json.value :=
  match Cache.file credentials with
  | Cache.Missing => None
  | Cache.Unreadable => None
  | Cache.Holds data =>
      match Json.propOrThrow "api_key" (Some data) with
      | Some (Some key) => if Json.truthy key then Some key else None
      | _ => None
      end
  end.

(** [created] and [validated] are the two clock readings; a failing write
    is not caught. *)
Definition saveApiKey (created validated : Z) (apiKey : string)
    (credentials : Cache.Disk) : Js.Completion Cache.Disk :=
  match JsDate.toISOString (Some created), JsDate.toISOString (Some validated) with
  | Some created_at, Some validated_at =>
      let data :=
        Json.Obj [("api_key", Json.Str apiKey);
                  ("created_at", Json.Str created_at);
                  ("validated_at", Json.Str validated_at)] in
      match Cache.write_error credentials with
      | Some e => Js.Throw e
      | None => Js.Normal {| Cache.file := Cache.Holds data; Cache.write_error := None |}
      end
  | _, _ => Js.Throw "RangeError: Invalid time value"
  end.



End AuthStorage.

Module AuthTools.

(** [resolveApiKey(paramKey)]; [envKey] is the environment variable
    CRYPTOQUANT_API_KEY, if set.  The stored key is handed out as it is in
    the file. *)
Definition resolveApiKey (paramKey envKey : option string) (credentials : Cache.Disk)
  : option Json.value :=
  match Js.given paramKey with
  | Some key => Some (Json.Str key)
  | None =>
      let isEnvKeyValid :=
        match envKey with
        | Some key =>
            Js.truthy_string key && Js.truthy_string (Js.trim key)
            && negb (String.prefix "${" key)
        | None => false
        end in
      match envKey with
      | Some key =>
          if isEnvKeyValid then Some (Json.Str key)
          else AuthStorage.getStoredApiKey credentials
      | None => AuthStorage.getStoredApiKey credentials
      end
  end.

End AuthTools.

(* ===================================================================== *)
(** * Vocabulary of the specification *)
(* ===================================================================== *)

Module Spec.
Import PlanLimits.


(** Every window entry of a permission table, level by level. *)
Definition windowEntries (limits : PlanLimits) : list DurationLimit :=
  categories ← Js.values limits;
  metrics ← Js.values categories;
  metricLimits ← Js.values metrics;
  Js.values (window metricLimits).

(** Number of entries equal to [d]. *)
Definition occurrences (d : DurationLimit) (es : list DurationLimit) : Z :=
  Z.of_nat (length (filter (λ e, e = d) es)).

(** The fraction of the entries that are exactly [d]. *)
Definition fraction (d : DurationLimit) (es : list DurationLimit) : Q :=
  (inject_Z (occurrences d es) / inject_Z (Z.of_nat (length es)))%Q.

(** The four counters of a list of entries, and their sum. *)
Definition countsOf (es : list DurationLimit) : DurationCounts :=
  {| p0d := occurrences "P0D" es; p3y := occurrences "P3Y" es;
     p1d := occurrences "P1D" es; total := Z.of_nat (length es) |}.

Definition addCounts (a b : DurationCounts) : DurationCounts :=
  {| p0d := p0d a + p0d b; p3y := p3y a + p3y b;
     p1d := p1d a + p1d b; total := total a + total b |}.

(** ** Duration tokens *)

Definition isDecimalDigit (c : ascii) : Prop := (48 <= nat_of_ascii c <= 57)%nat.

Fixpoint allDigits (s : string) : Prop :=
  match s with
  | EmptyString => True
  | String c r => isDecimalDigit c ∧ allDigits r
  end.

(** The number a string of decimal digits denotes. *)
Fixpoint decimalValue (ds : string) : Z :=
  match ds with
  | EmptyString => 0
  | String c r =>
      (Z.of_nat (nat_of_ascii c) - 48) * 10 ^ Z.of_nat (String.length r)
      + decimalValue r
  end.

(** [duration] is the letter P, the quantity [n] in decimal digits (at least
    one) and the unit letter [u], and nothing else. *)
Definition isDurationToken (duration : string) (n : Z) (u : ascii) : Prop :=
  ∃ ds, duration = "P" +:+ ds +:+ String u "" ∧ ds ≠ "" ∧ allDigits ds ∧
        n = decimalValue ds ∧
        (u = "Y" ∨ u = "M" ∨ u = "W" ∨ u = "D")%char.



(** ** The endpoint catalog *)

(** Number of slash-delimited segments of a path. *)
Definition segments (path : string) : nat := length (Js.split "/" path).

(** The indexed endpoint of a descriptor: asset and category are segments 2
    and 3 of the path, the metric is the rest. *)
Definition indexedEndpoint (r : Discovery.DiscoveryEndpoint) : Discovery.ParsedEndpoint :=
  let parts := Js.split "/" (Discovery.raw_path r) in
  {| Discovery.path := Discovery.raw_path r;
     Discovery.asset := nth 2 parts "";
     Discovery.category := nth 3 parts "";
     Discovery.metric := Js.join "/" (drop 4 parts);
     Discovery.parameters := Discovery.raw_parameters r;
     Discovery.required_parameters := Discovery.raw_required_parameters r |}.

(** The descriptors that are not malformed, indexed, in input order. *)
Definition indexable (raw : list Discovery.DiscoveryEndpoint)
  : list Discovery.ParsedEndpoint :=
  indexedEndpoint <$> filter (λ r, (5 <= segments (Discovery.raw_path r))%nat) raw.

(** How many times [x] occurs in [l]. *)
Definition multiplicity {A} `{EqDecision A} (x : A) (l : list A) : nat :=
  length (filter (λ y, y = x) l).

(** The endpoints an index holds under a key (none when the key is absent). *)
Definition under (index : gmap string (list Discovery.ParsedEndpoint)) (k : string)
  : list Discovery.ParsedEndpoint :=
  default [] (index !! k).

Definition compositeKey (e : Discovery.ParsedEndpoint) : string :=
  Discovery.asset e +:+ "/" +:+ Discovery.category e.

(** An index entry exists only for a key that has endpoints. *)
Definition nonempty {A} (l : list A) : option (list A) :=
  match l with
  | [] => None
  | _ => Some l
  end.

(** ** Supplied parameters *)




(** ** The session *)

(** [initializePermissions] finds no usable cache: the file gives no record,
    or the record is not valid for this URL, key and time. *)
Definition cacheMiss (h : Js.Host) (now : Z) (apiKey apiUrl : string)
    (w : Permissions.World) : Prop :=
  match Cache.readCache (Permissions.disk w) with
  | None => True
  | Some cache =>
      Cache.isCacheValid h now cache apiUrl (Js.slice0 8 apiKey) = Js.Normal false
  end.

(** The endpoint-catalog fetch succeeds. *)
Definition catalogFetched (now : Z)
    (discoveryResponse : Js.Fetched Discovery.DiscoveryResponse)
    (w : Permissions.World) : Prop :=
  Discovery.success
    (fst (Discovery.fetchDiscoveryEndpoints now discoveryResponse
            (Permissions.endpointCatalog w))) = true.

End Spec.

(* ===================================================================== *)
(** * Sample data for the closed examples *)
(* ===================================================================== *)

Module Sample.
Import PlanLimits.

(** A host in the UTC time zone whose [Date.parse] knows the interchange
    format only and whose collation is the code-unit order. *)
Definition utcHost : Js.Host :=
  {| Js.LocalTZA := λ _ _, 0;
     Js.parse_other := λ _, None;
     Js.localeCompare := λ a b,
       match String.compare a b with Lt => -1 | Eq => 0 | Gt => 1 end |}.

(** 2026-11-01T12:34:56.789Z *)
Definition now : Z := 1793536496789.

Definition table : PlanLimits :=
  [("btc", [("market-data",
             [("price-ohlcv", {| window := [("day", "P3Y"); ("hour", "P1M")] |});
              ("open-interest", {| window := [("day", "P0D")] |})])])].

Definition advancedState : PlanLimitsState :=
  {| loaded := true; limits := Some table; plan := advanced;
     statics := [Json.Str "/v1/btc/status/entity-list"]; apiRateLimit := None;
     fetched_at := Some now |}.

Definition priceEndpoint : Discovery.ParsedEndpoint :=
  {| Discovery.path := "/v1/btc/market-data/price-ohlcv";
     Discovery.asset := "btc"; Discovery.category := "market-data";
     Discovery.metric := "price-ohlcv";
     Discovery.parameters :=
       {[ "window" := ["day"; "hour"]; "limit" := ["100"; "1000"] ]};
     Discovery.required_parameters := ["window"] |}.

Definition apiUrl : string := "https://api.cryptoquant.com/v1".
Definition apiKey : string := "k3yk3yk3y-0123456789".

Definition emptyDisk : Cache.Disk :=
  {| Cache.file := Cache.Missing; Cache.write_error := None |}.

Definition catalogBody : Discovery.DiscoveryResponse :=
  {| Discovery.status_code := 200; Discovery.status_message := "success";
     Discovery.result_data :=
       Some [ {| Discovery.raw_path := "/v1/btc/market-data/price-ohlcv";
                 Discovery.raw_parameters := {[ "window" := ["day"; "hour"] ]};
                 Discovery.raw_required_parameters := ["window"] |} ] |}.

Definition catalogOk : Js.Fetched Discovery.DiscoveryResponse :=
  Js.Responded 200 "OK" (Some catalogBody).

Definition catalogDown : Js.Fetched Discovery.DiscoveryResponse :=
  Js.Responded 401 "Unauthorized" None.

Definition forbidden : Js.Fetched Json.value := Js.Responded 403 "Forbidden" None.

(** A permission payload of the shape the service sends. *)
Definition planBody : Json.value :=
  Json.Obj
    [("plan", Json.Obj [("name", Json.Str "ADVANCED")]);
     ("apiEndpoint",
      Json.Obj
        [("btc",
          Json.Obj
            [("market-data",
              Json.Obj [("price-ohlcv", Json.Obj [("day", Json.Str "P3Y")])])]);
         ("statics", Json.Arr [Json.Str "/v1/btc/status/entity-list"])]);
     ("apiRateLimit", Json.Obj [("token", Json.Num 100); ("window", Json.Str "day")])].

Definition planOk : Js.Fetched Json.value := Js.Responded 200 "OK" (Some planBody).

(** A cache file with the four checked fields and no "parsed" field. *)
Definition recordWithoutParsed : Json.value :=
  Json.Obj
    [("version", Json.Num 1);
     ("metadata",
      Json.Obj [("api_url", Json.Str apiUrl);
                ("api_key_prefix", Json.Str "k3yk3yk3");
                ("cached_at", Json.Str "2026-10-31T00:00:00.000Z");
                ("expires_at", Json.Str "2026-11-07T00:00:00.000Z");
                ("plan", Json.Str "advanced")]);
     ("raw_response", Json.Obj [("apiEndpoint", Json.Obj [])]);
     ("summary", Json.Obj [("total_endpoints", Json.Num 0)])].

Definition rawResponse : Cache.MyDiscoveryRawResponse :=
  {| Cache.apiEndpoint := Json.Obj []; Cache.plan_name := Json.Str "ADVANCED";
     Cache.rate_token := Json.Num 100; Cache.rate_window_name := Json.Str "day" |}.

Definition fragment : ParsedFragment :=
  {| f_limits := Some table; f_statics := []; f_apiRateLimit := None |}.

Definition summaryData : Cache.DiscoverySummaryData :=
  {| Cache.total_endpoints := 2;
     Cache.assets := [ {| Cache.name := "btc"; Cache.endpoint_count := 2;
                          Cache.categories := ["market-data"] |} ];
     Cache.category_by_asset := [("btc", ["market-data"])] |}.

(** The disk after the sample record has been written to [emptyDisk]. *)
Definition writtenDisk : Cache.Disk :=
  match Cache.writeCache utcHost now emptyDisk apiUrl apiKey rawResponse fragment
          summaryData advanced with
  | Js.Normal disk' => disk'
  | Js.Throw _ => emptyDisk
  end.

End Sample.

(* ===================================================================== *)
(** * Further vocabulary and sample data *)
(* ===================================================================== *)

Module Terms.
Import PlanLimits Spec.

(** ** Tiers *)

(** The place of a tier in the plan hierarchy
    basic < advanced < professional < premium < custom; "unknown" has none. *)
Definition tierRank (plan : UserPlan) : option nat :=
  match plan with
  | basic => Some 0%nat
  | advanced => Some 1%nat
  | professional => Some 2%nat
  | premium => Some 3%nat
  | custom => Some 4%nat
  | unknown => None
  end.

(** The state [st] under another tier. *)
Definition withPlan (st : PlanLimitsState) (p : UserPlan) : PlanLimitsState :=
  {| loaded := loaded st; limits := limits st; plan := p; statics := statics st;
     apiRateLimit := apiRateLimit st; fetched_at := fetched_at st |}.

(** The name of a tier, as the payload and the cache spell it. *)
Definition tierName (plan : UserPlan) : string :=
  match plan with
  | basic => "basic"
  | advanced => "advanced"
  | professional => "professional"
  | premium => "premium"
  | custom => "custom"
  | unknown => "unknown"
  end.

(** The five tier names [normalizePlanName] knows. *)
Definition tierNames : list string :=
  ["basic"; "advanced"; "professional"; "premium"; "custom"].

(** ** Well-formed permission tables *)





(** ** The listing of reachable endpoints *)

(** The path under which the listing shows a metric of the table. *)
Definition listedPath (asset category metric : string) : string :=
  "/v1/" +:+ asset +:+ "/" +:+ category +:+ "/" +:+ metric.

(** One entry for every metric of the table, in the order of the table. *)
Definition listedMetrics (asset category : string) (metrics : Js.obj MetricLimits)
  : list AccessibleEndpointInfo :=
  metric ← Js.keys metrics;
  metricLimits ← option_list (Js.get metric metrics);
  [ {| info_path := listedPath asset category metric;
       date_limit := dayLimitOf (window metricLimits) |} ].

Definition listedCategories (asset : string) (categories : Js.obj (Js.obj MetricLimits))
  : list AccessibleEndpointInfo :=
  category ← Js.keys categories;
  metrics ← option_list (Js.get category categories);
  listedMetrics asset category metrics.

Definition listedEndpoints (limits : PlanLimits) : list AccessibleEndpointInfo :=
  asset ← Js.keys limits;
  categories ← option_list (Js.get asset limits);
  listedCategories asset categories.

(** No asset name and no category name of the table holds a slash. *)
Definition slashFreeKeys (limits : PlanLimits) : Prop :=
  ∀ asset categories, (asset, categories) ∈ limits →
    Js.noSep "/" asset ∧
    ∀ category metrics, (category, metrics) ∈ categories → Js.noSep "/" category.

(** ** Searching the catalog *)

(** An optional filter value: absent or empty, it lets every string
    through. *)
Definition wanted (x : option string) (s : string) : Prop :=
  match Js.given x with
  | Some a => s = a
  | None => True
  end.

#[global] Instance wanted_dec x s : Decision (wanted x s).
Proof. unfold wanted. destruct (Js.given x); apply _. Defined.

(** The query, letter case ignored, occurs in the path or in the metric
    name. *)
Definition matchesQuery (query : option string) (e : Discovery.ParsedEndpoint) : Prop :=
  match Js.given query with
  | Some q =>
      Js.includes (Js.toLowerCase (Discovery.path e)) (Js.toLowerCase q) = true
      ∨ Js.includes (Js.toLowerCase (Discovery.metric e)) (Js.toLowerCase q) = true
  | None => True
  end.

#[global] Instance matchesQuery_dec query e : Decision (matchesQuery query e).
Proof. unfold matchesQuery. destruct (Js.given query); apply _. Defined.

(** The sum of a list of numbers. *)
Definition sumZ (l : list Z) : Z := foldr Z.add 0 l.

(** ** The summary of a permission payload *)





(** A JSON value that is a string. *)
Definition isString (v : Json.value) : Prop := ∃ s, v = Json.Str s.

(** ** The key lookup *)

(** An environment key that [resolveApiKey] uses: it holds a character
    that is not white space, and it is not a placeholder left unexpanded
    (one that starts with a dollar sign and an opening brace). *)
Definition usableEnvKey (key : string) : Prop :=
  (∃ pre c post, key = pre +:+ String c post ∧ Js.isWhiteSpace c = false) ∧
  ¬ (∃ rest, key = String "$" (String "{" rest)).

(** ** The cache record *)

(** The record [writeCache] puts together, from its parts. *)
Definition cacheRecord (apiUrl prefix cached_at expires_at : string) (plan : UserPlan)
    (rawResponse : Cache.MyDiscoveryRawResponse) (parsed : ParsedFragment)
    (summary : Cache.DiscoverySummaryData) : Json.value :=
  Json.Obj
    [("version", Json.Num Cache.CACHE_VERSION);
     ("metadata",
      Json.Obj [("api_url", Json.Str apiUrl);
                ("api_key_prefix", Json.Str prefix);
                ("cached_at", Json.Str cached_at);
                ("expires_at", Json.Str expires_at);
                ("plan", Cache.encodePlan plan)]);
     ("raw_response", Cache.encodeRawResponse rawResponse);
     ("parsed", Cache.encodeParsed parsed);
     ("summary", Cache.encodeSummary summary)].

(** The time a record written at [now] expires: seven local days later. *)
Definition expiryOf (h : Js.Host) (now : Z) : Z :=
  JsDate.UTC h (JsDate.LocalTime h now + Cache.CACHE_TTL_DAYS * JsDate.msPerDay).

End Terms.

Module Cases.
Import PlanLimits.

(** A path the sample table does not list. *)
Definition unlistedPath : string := "/v1/eth/market-data/price-ohlcv".


(** A permission payload that names a plan the code does not know. *)
Definition enterpriseBody : Json.value :=
  Json.Obj
    [("plan", Json.Obj [("name", Json.Str "Enterprise")]);
     ("apiEndpoint",
      Json.Obj
        [("btc",
          Json.Obj
            [("market-data",
              Json.Obj [("price-ohlcv", Json.Obj [("day", Json.Str "P1D")])])])])].

(** The sample table under the "basic" tier. *)
Definition basicState : PlanLimitsState := Terms.withPlan Sample.advancedState basic.

(** A catalog response with three descriptors, one of them malformed. *)
Definition catalogRaw : list Discovery.DiscoveryEndpoint :=
  [ {| Discovery.raw_path := "/v1/btc/market-data/price-ohlcv";
       Discovery.raw_parameters := {[ "window" := ["day"; "hour"] ]};
       Discovery.raw_required_parameters := ["window"] |};
    {| Discovery.raw_path := "/v1/btc/status";
       Discovery.raw_parameters := ∅;
       Discovery.raw_required_parameters := [] |};
    {| Discovery.raw_path := "/v1/eth/market-data/price-ohlcv";
       Discovery.raw_parameters := {[ "window" := ["day"] ]};
       Discovery.raw_required_parameters := [] |} ].

(** A running session over the disk that holds the sample record. *)
Definition cachedWorld : Permissions.World :=
  {| Permissions.planLimitsState := Sample.advancedState;
     Permissions.endpointCatalog := None;
     Permissions.permissionState :=
       {| Permissions.authenticated := true;
          Permissions.api_key := Some Sample.apiKey;
          Permissions.cached_at := Some Sample.now;
          Permissions.plan := advanced;
          Permissions.plan_limits_loaded := true;
          Permissions.from_cache := false |};
     Permissions.cachedDiscovery := Cache.readCache Sample.writtenDisk;
     Permissions.disk := Sample.writtenDisk |}.




(** A permission payload whose static paths hold a number. *)
Definition brokenStaticsBody : Json.value :=
  Json.Obj
    [("plan", Json.Obj [("name", Json.Str "ADVANCED")]);
     ("apiEndpoint",
      Json.Obj
        [("btc",
          Json.Obj
            [("market-data",
              Json.Obj [("price-ohlcv", Json.Obj [("day", Json.Str "P3Y")])])]);
         ("statics", Json.Arr [Json.Str "/v1/btc/status/entity-list"; Json.Num 7])])].



End Cases.

(* ===================================================================== *)
(** * The calendar *)
(* ===================================================================== *)

(** Linear arithmetic with divisions by constants. *)
Ltac div_lia := Z.to_euclidean_division_equations; lia.

Section Calendar.
Import JsDate.

Lemma YearFromDay_bounds d :
  DayFromYear (YearFromDay d) <= d < DayFromYear (YearFromDay d + 1).
Proof.
  unfold YearFromDay.
  destruct (Z.ltb_spec d (DayFromYear (1970 + 400 * d / 146097))) as [H|H].
  - unfold DayFromYear in *. div_lia.
  - destruct (Z.leb_spec (DayFromYear (1970 + 400 * d / 146097 + 1)) d) as [H'|H'].
    + unfold DayFromYear in *. div_lia.
    + lia.
Qed.




Lemma InLeapYear_01 y : InLeapYear y = 0 ∨ InLeapYear y = 1.
Proof. unfold InLeapYear. repeat (destruct (_ =? _); simpl); auto. Qed.

Lemma DaysInYear y : DayFromYear (y + 1) - DayFromYear y = 365 + InLeapYear y.
Proof.
  unfold InLeapYear, DayFromYear.
  destruct (Z.eqb_spec (y mod 4) 0); simpl;
    [destruct (Z.eqb_spec (y mod 100) 0); simpl;
       [destruct (Z.eqb_spec (y mod 400) 0); simpl|]|]; div_lia.
Qed.

Lemma DayWithinYear_bounds t :
  0 <= DayWithinYear t < 365 + InLeapYear (YearFromTime t).
Proof.
  unfold DayWithinYear, YearFromTime.
  pose proof (YearFromDay_bounds (Day t)).
  pose proof (DaysInYear (YearFromDay (Day t))). lia.
Qed.

Lemma monthOfDay_bounds l d :
  (l = 0 ∨ l = 1) → 0 <= d < 365 + l →
  0 <= monthOfDay l d <= 11 ∧
  monthStart l (monthOfDay l d) <= d < monthStart l (monthOfDay l d + 1).
Proof.
  intros Hl Hd. unfold monthOfDay.
  repeat match goal with
         | |- context [?a <? ?b] => destruct (Z.ltb_spec a b)
         end; simpl; destruct Hl; subst; lia.
Qed.

Lemma MonthFromTime_bounds t : 0 <= MonthFromTime t <= 11.
Proof.
  unfold MonthFromTime.
  apply monthOfDay_bounds; [apply InLeapYear_01 | apply DayWithinYear_bounds].
Qed.

Lemma DateFromTime_bounds t :
  1 <= DateFromTime t <= DaysInMonth (YearFromTime t) (MonthFromTime t).
Proof.
  unfold DateFromTime, DaysInMonth, MonthFromTime.
  pose proof (monthOfDay_bounds (InLeapYear (YearFromTime t)) (DayWithinYear t)
                (InLeapYear_01 _) (DayWithinYear_bounds t)). lia.
Qed.

(** Rebuilding a day from its own calendar fields, the day of the month
    shifted by [k], moves the day by [k]. *)
Lemma MakeDay_shift_date t k :
  MakeDay (YearFromTime t) (MonthFromTime t) (DateFromTime t + k) = Day t + k.
Proof.
  unfold MakeDay. pose proof (MonthFromTime_bounds t) as Hm.
  rewrite Z.div_small, Z.mod_small, Z.add_0_r by lia.
  unfold DateFromTime, DayWithinYear. lia.
Qed.





Lemma TimeWithinDay_bounds t : 0 <= TimeWithinDay t < msPerDay.
Proof. unfold TimeWithinDay, msPerDay. apply Z.mod_pos_bound. lia. Qed.

Lemma MakeDate_Day t : MakeDate (Day t) (TimeWithinDay t) = t.
Proof. unfold MakeDate, Day, TimeWithinDay, msPerDay. div_lia. Qed.

(** ** The date part of [toISOString] *)








(** ** [Date.parse] reads back what [toISOString] prints *)

Lemma digit_val_digit_inv n : 0 <= n <= 9 → digit_val (digit n) = Some n.
Proof.
  intros H.
  assert (n = 0 ∨ n = 1 ∨ n = 2 ∨ n = 3 ∨ n = 4 ∨ n = 5 ∨ n = 6 ∨ n = 7 ∨ n = 8 ∨ n = 9)
    as Hc by lia.
  repeat (destruct Hc as [->|Hc]); try subst n; reflexivity.
Qed.

Lemma append_cons c s r : String c s +:+ r = String c (s +:+ r).
Proof. reflexivity. Qed.

Lemma append_nil r : "" +:+ r = r.
Proof. reflexivity. Qed.

Lemma append_assoc a b c : (a +:+ b) +:+ c = a +:+ b +:+ c.
Proof. induction a as [|x a IH]; [reflexivity|]. rewrite !append_cons. now f_equal. Qed.

Ltac norm_append := rewrite ?append_cons, ?append_nil.

Lemma expect_same c r : expect c (String c r) = Some r.
Proof. unfold expect. now rewrite bool_decide_eq_true_2. Qed.

Lemma take_digits_digit k acc n r :
  0 <= n <= 9 →
  take_digits (S k) acc (String (digit n) r) = take_digits k (10 * acc + n) r.
Proof. intros H. cbn [take_digits]. now rewrite digit_val_digit_inv. Qed.

Lemma take_digits_pad2 n acc rest :
  0 <= n < 100 → take_digits 2 acc (pad2 n +:+ rest) = Some (100 * acc + n, rest).
Proof.
  intros H. unfold pad2. norm_append.
  rewrite !take_digits_digit by div_lia. cbn [take_digits]. do 2 f_equal. div_lia.
Qed.

Lemma take_digits_pad3 n acc rest :
  0 <= n < 1000 → take_digits 3 acc (pad3 n +:+ rest) = Some (1000 * acc + n, rest).
Proof.
  intros H. unfold pad3, pad2. norm_append.
  rewrite !take_digits_digit by div_lia. cbn [take_digits]. do 2 f_equal. div_lia.
Qed.

Lemma take_digits_pad4 n acc rest :
  0 <= n < 10000 → take_digits 4 acc (pad4 n +:+ rest) = Some (10000 * acc + n, rest).
Proof.
  intros H. unfold pad4, pad3, pad2. norm_append.
  rewrite !take_digits_digit by div_lia. cbn [take_digits]. do 2 f_equal. div_lia.
Qed.

Lemma take_digits_pad6 n acc rest :
  0 <= n < 1000000 →
  take_digits 6 acc (pad6 n +:+ rest) = Some (1000000 * acc + n, rest).
Proof.
  intros H. unfold pad6, pad4, pad3, pad2. norm_append.
  rewrite !take_digits_digit by div_lia. cbn [take_digits]. do 2 f_equal. div_lia.
Qed.

Lemma parse_year_digit n r :
  0 <= n <= 9 → parse_year (String (digit n) r) = take_digits 4 0 (String (digit n) r).
Proof.
  intros H.
  assert (n = 0 ∨ n = 1 ∨ n = 2 ∨ n = 3 ∨ n = 4 ∨ n = 5 ∨ n = 6 ∨ n = 7 ∨ n = 8 ∨ n = 9)
    as Hc by lia.
  repeat (destruct Hc as [->|Hc]); try subst n; reflexivity.
Qed.

Lemma parse_year_string y rest :
  -999999 <= y <= 999999 → parse_year (year_string y +:+ rest) = Some (y, rest).
Proof.
  intros H. unfold year_string.
  destruct (Z.leb_spec 0 y) as [H0|H0]; [destruct (Z.leb_spec y 9999) as [H1|H1]|];
    cbn [andb].
  - unfold pad4 at 1. norm_append. rewrite parse_year_digit by div_lia.
    rewrite <- append_cons. change (String (digit (y / 1000)) (pad3 (y mod 1000)))
      with (pad4 y).
    rewrite take_digits_pad4 by lia. do 2 f_equal.
  - rewrite (proj2 (Z.ltb_ge y 0)) by lia. norm_append; cbn [parse_year].
    rewrite take_digits_pad6 by lia. do 2 f_equal. lia.
  - rewrite (proj2 (Z.ltb_lt y 0)) by lia. norm_append; cbn [parse_year].
    rewrite take_digits_pad6 by lia.
    replace (1000000 * 0 + Z.abs y) with (- y) by lia.
    destruct (Z.eqb_spec (- y) 0); [lia|]. do 2 f_equal. lia.
Qed.

Lemma YearFromTime_range t :
  Z.abs t <= 8640000000000000 → -999999 <= YearFromTime t <= 999999.
Proof.
  intros Ht. unfold YearFromTime.
  pose proof (YearFromDay_bounds (Day t)) as Hy.
  assert (-100000000 <= Day t <= 100000000) as Hd by (unfold Day, msPerDay; div_lia).
  unfold DayFromYear in Hy. div_lia.
Qed.

Lemma MakeTime_fields t :
  MakeTime (HourFromTime t) (MinFromTime t) (SecFromTime t) (msFromTime t)
  = TimeWithinDay t.
Proof.
  unfold MakeTime, HourFromTime, MinFromTime, SecFromTime, msFromTime, TimeWithinDay,
    msPerHour, msPerMinute, msPerSecond, msPerDay. div_lia.
Qed.

Lemma parse_time_part t :
  parse_time (String "T" (iso_time_part t)) = Some (TimeWithinDay t).
Proof.
  assert (0 <= HourFromTime t < 24) as Hh by (unfold HourFromTime; div_lia).
  assert (0 <= MinFromTime t < 60) as Hm by (unfold MinFromTime; div_lia).
  assert (0 <= SecFromTime t < 60) as Hs by (unfold SecFromTime; div_lia).
  assert (0 <= msFromTime t < 1000) as Hms by (unfold msFromTime, msPerSecond; div_lia).
  unfold parse_time, iso_time_part. norm_append.
  rewrite expect_same. cbn [mbind option_bind].
  rewrite take_digits_pad2 by lia. cbn [mbind option_bind].
  rewrite expect_same. cbn [mbind option_bind].
  rewrite take_digits_pad2 by lia. cbn [mbind option_bind].
  rewrite expect_same. cbn [mbind option_bind].
  rewrite take_digits_pad2 by lia. cbn [mbind option_bind].
  rewrite expect_same. cbn [mbind option_bind].
  rewrite take_digits_pad3 by lia. cbn [mbind option_bind].
  rewrite expect_same. cbn [mbind option_bind].
  rewrite bool_decide_eq_true_2 by reflexivity.
  rewrite !(proj2 (Z.leb_le _ _)) by lia. cbn [andb].
  rewrite <- MakeTime_fields. do 2 f_equal; lia.
Qed.

Lemma parse_iso_toISOString t iso :
  Z.abs t <= 8640000000000000 →
  toISOString (Some t) = Some iso → parse_iso iso = Some (Some t).
Proof.
  intros Ht [= <-].
  pose proof (YearFromTime_range t Ht) as Hy.
  pose proof (MonthFromTime_bounds t) as Hm.
  pose proof (DateFromTime_bounds t) as Hd.
  assert (DaysInMonth (YearFromTime t) (MonthFromTime t) <= 31) as Hd31.
  { unfold DaysInMonth. pose proof (InLeapYear_01 (YearFromTime t)) as Hl.
    assert (MonthFromTime t = 0 ∨ MonthFromTime t = 1 ∨ MonthFromTime t = 2
            ∨ MonthFromTime t = 3 ∨ MonthFromTime t = 4 ∨ MonthFromTime t = 5
            ∨ MonthFromTime t = 6 ∨ MonthFromTime t = 7 ∨ MonthFromTime t = 8
            ∨ MonthFromTime t = 9 ∨ MonthFromTime t = 10 ∨ MonthFromTime t = 11)
      as Hc by lia.
    repeat (destruct Hc as [->|Hc]); try rewrite Hc; simpl; lia. }
  unfold parse_iso, iso_date_part. rewrite !append_assoc. norm_append.
  rewrite parse_year_string by assumption. cbn [mbind option_bind].
  rewrite expect_same. cbn [mbind option_bind].
  rewrite take_digits_pad2 by lia. cbn [mbind option_bind].
  rewrite expect_same. cbn [mbind option_bind].
  rewrite take_digits_pad2 by lia. cbn [mbind option_bind].
  replace (100 * 0 + (MonthFromTime t + 1) - 1) with (MonthFromTime t) by lia.
  replace (100 * 0 + DateFromTime t) with (DateFromTime t) by lia.
  rewrite !(proj2 (Z.leb_le _ _)) by lia. cbn [andb].
  rewrite parse_time_part. cbn [mbind option_bind].
  replace (DateFromTime t) with (DateFromTime t + 0) by lia.
  rewrite MakeDay_shift_date, Z.add_0_r, MakeDate_Day.
  unfold TimeClip. rewrite Z.gtb_ltb.
  now rewrite (proj2 (Z.ltb_ge _ _)).
Qed.

Lemma parse_toISOString h t iso :
  Z.abs t <= 8640000000000000 →
  toISOString (Some t) = Some iso → parse h iso = Some t.
Proof. intros Ht Hiso. unfold parse. now rewrite (parse_iso_toISOString t iso Ht Hiso). Qed.


End Calendar.

(* ===================================================================== *)
(** * Properties of plan-limits.ts *)
(* ===================================================================== *)

Section TierDetection.
Import PlanLimits Spec.

Lemma DurationCounts_eq (a b : DurationCounts) :
  p0d a = p0d b → p3y a = p3y b → p1d a = p1d b → total a = total b → a = b.
Proof. destruct a, b; simpl; congruence. Qed.

Lemma occurrences_cons d e es :
  occurrences d (e :: es) = (if bool_decide (e = d) then 1 else 0) + occurrences d es.
Proof.
  unfold occurrences. rewrite filter_cons.
  case_bool_decide; destruct (decide (e = d)); try contradiction; simpl length; lia.
Qed.

Lemma occurrences_app d xs ys :
  occurrences d (xs ++ ys) = occurrences d xs + occurrences d ys.
Proof. unfold occurrences. rewrite filter_app, length_app. lia. Qed.

Lemma countsOf_app xs ys : countsOf (xs ++ ys) = addCounts (countsOf xs) (countsOf ys).
Proof.
  apply DurationCounts_eq; simpl; rewrite ?occurrences_app, ?length_app; lia.
Qed.

Lemma addCounts_assoc a b c : addCounts (addCounts a b) c = addCounts a (addCounts b c).
Proof. apply DurationCounts_eq; simpl; lia. Qed.

Lemma countDuration_add c d : countDuration c d = addCounts c (countsOf [d]).
Proof.
  unfold countDuration. apply DurationCounts_eq;
    repeat case_bool_decide; subst; simpl; rewrite ?occurrences_cons;
    repeat case_bool_decide; try discriminate; try congruence;
    unfold occurrences; simpl; lia.
Qed.

Lemma fold_countDuration es c :
  fold_left countDuration es c = addCounts c (countsOf es).
Proof.
  revert c. induction es as [|e es IH]; intros c; simpl.
  - apply DurationCounts_eq; simpl; unfold occurrences; simpl; lia.
  - rewrite IH, countDuration_add, addCounts_assoc.
    f_equal. change (e :: es) with ([e] ++ es). now rewrite countsOf_app.
Qed.

(** A loop that adds the counts of [f x] for every [x] adds the counts of
    the concatenation. *)
Lemma fold_counts {A} (step : DurationCounts → A → DurationCounts)
    (f : A → list DurationLimit) (xs : list A) (c : DurationCounts) :
  (∀ c x, step c x = addCounts c (countsOf (f x))) →
  fold_left step xs c = addCounts c (countsOf (x ← xs; f x)).
Proof.
  intros Hstep. revert c. induction xs as [|x xs IH]; intros c; simpl.
  - apply DurationCounts_eq; simpl; unfold occurrences; simpl; lia.
  - rewrite IH, Hstep, addCounts_assoc. f_equal. now rewrite countsOf_app.
Qed.

Lemma collectDurationCounts_counts limits :
  collectDurationCounts limits = countsOf (windowEntries limits).
Proof.
  unfold collectDurationCounts, windowEntries.
  rewrite (fold_counts countCategories
             (λ categories, metrics ← Js.values categories;
                            metricLimits ← Js.values metrics;
                            Js.values (window metricLimits))).
  - apply DurationCounts_eq; simpl; lia.
  - intros c categories. unfold countCategories.
    apply (fold_counts countMetrics
             (λ metrics, metricLimits ← Js.values metrics;
                         Js.values (window metricLimits))).
    intros c' metrics. unfold countMetrics.
    apply (fold_counts countMetric (λ ml, Js.values (window ml))).
    intros c'' ml. unfold countMetric. apply fold_countDuration.
Qed.

Lemma Qgtb_true a b : Qgtb a b = true ↔ (b < a)%Q.
Proof.
  unfold Qgtb. rewrite negb_true_iff, <- not_true_iff_false, Qle_bool_iff.
  split; [apply Qnot_le_lt | apply Qlt_not_le].
Qed.

Lemma Qgtb_false a b : Qgtb a b = false ↔ ¬ (b < a)%Q.
Proof. rewrite <- Qgtb_true. destruct (Qgtb a b); intuition congruence. Qed.

(** C4. Tier detection: a null table or one without window entries is
    "basic"; otherwise, with the fractions taken over all window entries,
    more than half "P1D" is "basic", else more than half "P0D" is "premium",
    else more than three tenths "P3Y" is "professional", else "advanced". *)
Theorem detectPlanFromLimits_thresholds :
  detectPlanFromLimits None = basic ∧
  ∀ limits : PlanLimits,
    let es := windowEntries limits in
    (es = [] → detectPlanFromLimits (Some limits) = basic) ∧
    (es ≠ [] →
     ((1 # 2 < fraction "P1D" es)%Q → detectPlanFromLimits (Some limits) = basic) ∧
     (¬ (1 # 2 < fraction "P1D" es)%Q →
      ((1 # 2 < fraction "P0D" es)%Q → detectPlanFromLimits (Some limits) = premium) ∧
      (¬ (1 # 2 < fraction "P0D" es)%Q →
       ((3 # 10 < fraction "P3Y" es)%Q →
        detectPlanFromLimits (Some limits) = professional) ∧
       (¬ (3 # 10 < fraction "P3Y" es)%Q →
        detectPlanFromLimits (Some limits) = advanced)))).
Proof.
  split; [reflexivity|]. intros limits es.
  unfold detectPlanFromLimits. rewrite collectDurationCounts_counts.
  fold es. unfold countsOf; cbn [total p0d p1d p3y]. fold (fraction "P1D" es).
  fold (fraction "P0D" es). fold (fraction "P3Y" es).
  split.
  - intros ->. reflexivity.
  - intros Hne.
    assert ((Z.of_nat (length es) =? 0) = false) as ->.
    { apply Z.eqb_neq. destruct es; [congruence | simpl; lia]. }
    destruct (Qgtb (fraction "P1D" es) (1 # 2)) eqn:E1.
    { apply Qgtb_true in E1. split; [reflexivity | contradiction]. }
    apply Qgtb_false in E1. split; [contradiction | intros _].
    destruct (Qgtb (fraction "P0D" es) (1 # 2)) eqn:E0.
    { apply Qgtb_true in E0. split; [reflexivity | contradiction]. }
    apply Qgtb_false in E0. split; [contradiction | intros _].
    destruct (Qgtb (fraction "P3Y" es) (3 # 10)) eqn:E3.
    { apply Qgtb_true in E3. split; [reflexivity | contradiction]. }
    apply Qgtb_false in E3. split; [contradiction | reflexivity].
Qed.

(** The spec's scenarios: six entries in ten equal to "P1D", six in ten
    equal to "P0D", and an empty table. *)
Example detectPlanFromLimits_scenarios :
  let tableOf (ds : list DurationLimit) : PlanLimits :=
    [("btc", [("market-data", [("m", {| window := imap (λ i d, (Js.natString i, d)) ds |})])])] in
  detectPlanFromLimits
    (Some (tableOf ["P1D"; "P1D"; "P1D"; "P1D"; "P1D"; "P1D"; "P3Y"; "P3Y"; "P0D"; "P1M"]))
  = basic ∧
  detectPlanFromLimits
    (Some (tableOf ["P0D"; "P0D"; "P0D"; "P0D"; "P0D"; "P0D"; "P3Y"; "P3Y"; "P1D"; "P1M"]))
  = premium ∧
  detectPlanFromLimits
    (Some (tableOf ["P3Y"; "P3Y"; "P3Y"; "P3Y"; "P0D"; "P0D"; "P0D"; "P0D"; "P0D"; "P1D"]))
  = professional ∧
  detectPlanFromLimits
    (Some (tableOf ["P3Y"; "P3Y"; "P3Y"; "P1Y"; "P0D"; "P0D"; "P0D"; "P0D"; "P0D"; "P1D"]))
  = advanced ∧
  detectPlanFromLimits (Some []) = basic.
Proof. vm_compute. repeat split. Qed.

End TierDetection.

Section Access.
Import PlanLimits Spec.

Lemma get_head {V} k (v : V) (r : Js.obj V) : Js.get k ((k, v) :: r) = Some v.
Proof. simpl. now rewrite bool_decide_eq_true_2. Qed.




Example hasEndpointAccess_samples :
  hasEndpointAccess DEFAULT_STATE "/v1/btc/anything" = true ∧
  hasEndpointAccess Sample.advancedState "/v1/btc/status/entity-list" = true ∧
  hasEndpointAccess Sample.advancedState "/v1/btc/market-data/price-ohlcv" = true ∧
  hasEndpointAccess Sample.advancedState "/v1/btc/market-data/mvrv" = false ∧
  hasEndpointAccess
    {| loaded := true; limits := Some Sample.table; plan := premium; statics := [];
       apiRateLimit := None; fetched_at := None |} "/v1/btc/market-data/mvrv" = true ∧
  hasEndpointAccess
    {| loaded := true; limits := None; plan := basic; statics := [];
       apiRateLimit := None; fetched_at := None |} "/v1/btc/market-data/price-ohlcv"
  = false.
Proof. vm_compute. repeat split. Qed.

End Access.

Section DurationTokens.
Import PlanLimits Spec.

Lemma digit_val_digit c :
  JsDate.digit_val c =
  if bool_decide (isDecimalDigit c) then Some (Z.of_nat (nat_of_ascii c) - 48) else None.
Proof.
  unfold JsDate.digit_val, isDecimalDigit.
  case_bool_decide as H.
  - rewrite (proj2 (Z.leb_le _ _)), (proj2 (Z.leb_le _ _)) by lia. reflexivity.
  - destruct (Z.leb_spec 0 (Z.of_nat (nat_of_ascii c) - 48)); simpl; [|reflexivity].
    destruct (Z.leb_spec (Z.of_nat (nat_of_ascii c) - 48) 9); simpl; [|reflexivity].
    exfalso. apply H. lia.
Qed.

Lemma isDigit_true c : isDigit c = true ↔ isDecimalDigit c.
Proof.
  unfold isDigit. rewrite digit_val_digit, bool_decide_eq_true.
  case_bool_decide; split; intros H'; eauto; try tauto. destruct H' as [? [=]].
Qed.

Lemma isUnit_true u :
  isUnit u = true ↔ (u = "Y" ∨ u = "M" ∨ u = "W" ∨ u = "D")%char.
Proof.
  unfold isUnit. rewrite !orb_true_iff, !bool_decide_eq_true. tauto.
Qed.

Lemma digitsThenUnit_complete ds u :
  allDigits ds → isUnit u = true → digitsThenUnit (ds +:+ String u "") = Some (ds, u).
Proof.
  intros Hds Hu. induction ds as [|c ds IH]; simpl.
  - now rewrite Hu.
  - destruct Hds as [Hc Hds]. rewrite (IH Hds).
    rewrite (proj2 (isDigit_true c) Hc).
    destruct (ds +:+ String u "") eqn:E; [destruct ds; discriminate | reflexivity].
Qed.

Lemma digitsThenUnit_sound s ds u :
  digitsThenUnit s = Some (ds, u) →
  s = ds +:+ String u "" ∧ allDigits ds ∧ isUnit u = true.
Proof.
  revert ds. induction s as [|c r IH]; intros ds; simpl; [discriminate|].
  destruct r as [|c' r'].
  - destruct (isUnit c) eqn:Hu; [|discriminate]. intros [= <- <-]. simpl. auto.
  - destruct (isDigit c) eqn:Hc; [|discriminate].
    destruct (digitsThenUnit (String c' r')) as [[ds' u']|] eqn:E; [|discriminate].
    intros [= <- <-]. destruct (IH ds' eq_refl) as (Heq & Hds & Hu).
    apply isDigit_true in Hc. rewrite Heq. simpl. tauto.
Qed.

Lemma matchDuration_token duration ds u :
  matchDuration duration = Some (ds, u) ↔
  duration = "P" +:+ ds +:+ String u "" ∧ ds ≠ "" ∧ allDigits ds ∧ isUnit u = true.
Proof.
  unfold matchDuration. split.
  - destruct duration as [|p r]; [discriminate|].
    destruct (decide (p = "P"%char)) as [->|Hp].
    + destruct r as [|c r]; [discriminate|].
      destruct (isDigit c) eqn:Hc; [|discriminate].
      destruct (digitsThenUnit r) as [[ds' u']|] eqn:E; [|discriminate].
      intros [= <- <-]. apply digitsThenUnit_sound in E as (-> & Hds & Hu).
      apply isDigit_true in Hc. simpl. split; [reflexivity|].
      split; [discriminate|]. tauto.
    + intros H. exfalso.
      destruct p as [[] [] [] [] [] [] [] []]; try discriminate H. now apply Hp.
  - intros (-> & Hne & Hds & Hu). destruct ds as [|c ds]; [congruence|].
    destruct Hds as [Hc Hds]. simpl.
    rewrite (proj2 (isDigit_true c) Hc), (digitsThenUnit_complete ds u Hds Hu).
    reflexivity.
Qed.

Lemma parseInt10_decimal ds : allDigits ds → parseInt10 ds = decimalValue ds.
Proof.
  unfold parseInt10.
  set (go := fix go (acc : Z) (s : string) {struct s} : Z :=
         match s with
         | EmptyString => acc
         | String c r =>
             match JsDate.digit_val c with
             | Some d => go (10 * acc + d) r
             | None => acc
             end
         end).
  assert (∀ s acc, allDigits s →
            go acc s = acc * 10 ^ Z.of_nat (String.length s) + decimalValue s) as Hgo.
  { induction s as [|c r IH]; intros acc Hs; simpl.
    - lia.
    - destruct Hs as [Hc Hr]. rewrite digit_val_digit, (bool_decide_eq_true_2 _ Hc).
      rewrite (IH _ Hr).
      change (String.length (String c r)) with (S (String.length r)).
      rewrite Nat2Z.inj_succ, Z.pow_succ_r by lia. lia. }
  intros Hds. rewrite (Hgo ds 0 Hds). lia.
Qed.




Lemma YearFromTime_wide t :
  Z.abs t <= 8640000000000000 + JsDate.msPerDay →
  -999999 <= JsDate.YearFromTime t <= 999999.
Proof.
  intros Ht. unfold JsDate.YearFromTime.
  pose proof (YearFromDay_bounds (JsDate.Day t)) as Hy.
  assert (-100000001 <= JsDate.Day t <= 100000001) as Hd
    by (unfold JsDate.Day, JsDate.msPerDay in *; div_lia).
  unfold JsDate.DayFromYear in Hy. div_lia.
Qed.

Lemma TimeClip_far_past h x :
  (∀ t b, Z.abs (Js.LocalTZA h t b) <= JsDate.msPerDay) →
  x < - 8640000000000000 - JsDate.msPerDay →
  JsDate.TimeClip (JsDate.UTC h x) = None.
Proof.
  intros Htz Hx. unfold JsDate.TimeClip, JsDate.UTC.
  pose proof (Htz x false). unfold JsDate.msPerDay in *.
  destruct (Z.gtb_spec (Z.abs (x - Js.LocalTZA h x false)) 8640000000000000);
    [reflexivity | lia].
Qed.

Lemma MakeDay_far_past y m d n :
  -999999 <= y <= 999999 → 0 <= m <= 11 → 1 <= d <= 31 → 2 ^ 53 <= n →
  JsDate.MakeDay (y - n) m d < - 200000000 ∧
  JsDate.MakeDay y (m - n) d < - 200000000.
Proof.
  intros Hy Hm Hd Hn. change (2 ^ 53) with 9007199254740992 in Hn.
  unfold JsDate.MakeDay.
  assert (∀ l k, (l = 0 ∨ l = 1) → 0 <= k <= 11 → 0 <= JsDate.monthStart l k <= 335)
    as Hms.
  { intros l k Hl Hk.
    assert (k = 0 ∨ k = 1 ∨ k = 2 ∨ k = 3 ∨ k = 4 ∨ k = 5 ∨ k = 6 ∨ k = 7
            ∨ k = 8 ∨ k = 9 ∨ k = 10 ∨ k = 11) as Hc by lia.
    destruct Hl; subst l; repeat (destruct Hc as [->|Hc]); try subst k; simpl; lia. }
  split.
  - rewrite Z.div_small, Z.mod_small, Z.add_0_r by lia.
    pose proof (Hms _ m (InLeapYear_01 (y - n)) Hm).
    assert (JsDate.DayFromYear (y - n) < -300000000)
      by (unfold JsDate.DayFromYear; div_lia). lia.
  - pose proof (Z.mod_pos_bound (m - n) 12 ltac:(lia)).
    pose proof (Hms _ ((m - n) mod 12) (InLeapYear_01 (y + (m - n) / 12)) ltac:(lia)).
    assert (JsDate.DayFromYear (y + (m - n) / 12) < -300000000)
      by (unfold JsDate.DayFromYear; div_lia). lia.
Qed.

Lemma token_not_sentinel duration n u :
  isDurationToken duration n u → 0 < n → duration ≠ "P0D".
Proof.
  intros (ds & -> & Hne & Hds & -> & Hu) Hpos Heq.
  destruct ds as [|c ds]; [congruence|]. injection Heq as Hc Hrest.
  destruct ds as [|c' ds]; simpl in Hrest.
  - subst c. vm_compute in Hpos. discriminate.
  - injection Hrest as _ Hrest. destruct ds; discriminate.
Qed.

(** A quantity of 2^53 or more, where [parseInt] would round, always gives
    an invalid Date, whatever its exact value. *)
Lemma parseDurationToDate_huge_quantity h now duration n u :
  (∀ t b, Z.abs (Js.LocalTZA h t b) <= JsDate.msPerDay) →
  Z.abs now <= 8640000000000000 →
  isDurationToken duration n u → 2 ^ 53 <= n →
  parseDurationToDate h now duration = Some None.
Proof.
  intros Htz Hnow Htok Hn.
  assert (duration ≠ "P0D") as Hp0.
  { apply (token_not_sentinel duration n u Htok). change (2 ^ 53) with 9007199254740992 in Hn. lia. }
  destruct Htok as (ds & Hd & Hne & Hds & -> & Hu).
  assert (matchDuration duration = Some (ds, u)) as Hm.
  { apply matchDuration_token. repeat split; auto. now apply isUnit_true. }
  unfold parseDurationToDate.
  rewrite (bool_decide_eq_false_2 _ Hp0), Hm, (parseInt10_decimal _ Hds).
  unfold JsDate.setFullYear, JsDate.setMonth, JsDate.setDate,
    JsDate.getFullYear, JsDate.getMonth, JsDate.getDate.
  set (lt := JsDate.LocalTime h now). set (n := decimalValue ds) in *.
  assert (Z.abs lt <= 8640000000000000 + JsDate.msPerDay) as Hlt.
  { subst lt. unfold JsDate.LocalTime. pose proof (Htz now true). lia. }
  pose proof (YearFromTime_wide lt Hlt) as Hy.
  pose proof (MonthFromTime_bounds lt) as Hmo.
  pose proof (DateFromTime_bounds lt) as Hda.
  pose proof (TimeWithinDay_bounds lt) as Htw.
  assert (JsDate.DateFromTime lt <= 31) as Hd31.
  { unfold JsDate.DaysInMonth in Hda.
    pose proof (InLeapYear_01 (JsDate.YearFromTime lt)) as Hl.
    assert (JsDate.MonthFromTime lt = 0 ∨ JsDate.MonthFromTime lt = 1
            ∨ JsDate.MonthFromTime lt = 2 ∨ JsDate.MonthFromTime lt = 3
            ∨ JsDate.MonthFromTime lt = 4 ∨ JsDate.MonthFromTime lt = 5
            ∨ JsDate.MonthFromTime lt = 6 ∨ JsDate.MonthFromTime lt = 7
            ∨ JsDate.MonthFromTime lt = 8 ∨ JsDate.MonthFromTime lt = 9
            ∨ JsDate.MonthFromTime lt = 10 ∨ JsDate.MonthFromTime lt = 11)
      as Hc by lia.
    repeat (destruct Hc as [Hc|Hc]); rewrite Hc in Hda; simpl in Hda; lia. }
  destruct (MakeDay_far_past (JsDate.YearFromTime lt) (JsDate.MonthFromTime lt)
              (JsDate.DateFromTime lt) n Hy Hmo ltac:(lia) Hn) as [HY HM].
  assert (JsDate.Day lt <= 100000001) as Hday
    by (unfold JsDate.Day, JsDate.msPerDay in *; div_lia).
  change (2 ^ 53) with 9007199254740992 in Hn.
  assert (∀ day, day < -200000000 →
            JsDate.TimeClip (JsDate.UTC h (JsDate.MakeDate day (JsDate.TimeWithinDay lt)))
            = None) as Hclip.
  { intros day Hday'. apply TimeClip_far_past; [assumption|].
    unfold JsDate.MakeDate, JsDate.msPerDay in *. lia. }
  destruct Hu as [-> | [-> | [-> | ->]]]; simpl; f_equal; apply Hclip; try assumption.
  - replace (JsDate.DateFromTime lt - n * 7) with (JsDate.DateFromTime lt + - (7 * n))
      by lia.
    rewrite MakeDay_shift_date. lia.
  - replace (JsDate.DateFromTime lt - n) with (JsDate.DateFromTime lt + - n) by lia.
    rewrite MakeDay_shift_date. lia.
Qed.

(** Three years back from 2026-11-01; one month back from a 31st of March
    lands in early March; an unknown unit is no token. *)
Example parseDurationToDate_samples :
  (JsDate.toISOString <$> parseDurationToDate Sample.utcHost Sample.now "P3Y")
  = Some (Some "2023-11-01T12:34:56.789Z") ∧
  (JsDate.toISOString <$> parseDurationToDate Sample.utcHost 1711888496789 "P1M")
  = Some (Some "2024-03-02T12:34:56.789Z") ∧
  (JsDate.toISOString <$> parseDurationToDate Sample.utcHost Sample.now "P2W")
  = Some (Some "2026-10-18T12:34:56.789Z") ∧
  parseDurationToDate Sample.utcHost Sample.now "P3H" = None ∧
  parseDurationToDate Sample.utcHost Sample.now "3Y" = None ∧
  parseDurationToDate Sample.utcHost Sample.now "P0D" = None.
Proof. vm_compute. repeat split. Qed.

End DurationTokens.

Section DateRange.
Import PlanLimits Spec.

(** Which window decides: the named one when the name and the token stored
    under it are both non-empty, else the first window of the metric. *)
Lemma getPlanLimit_preference st path windowType :
  (getMetricLimits st path = None → getPlanLimit st path windowType = None) ∧
  (∀ ml, getMetricLimits st path = Some ml →
     (∀ wt v, windowType = Some wt → wt ≠ "" →
              Js.get wt (window ml) = Some v → v ≠ "" →
              getPlanLimit st path windowType = Some v) ∧
     ((windowType = None ∨ windowType = Some "" ∨
       ∃ wt, windowType = Some wt ∧
             (Js.get wt (window ml) = None ∨ Js.get wt (window ml) = Some "")) →
      getPlanLimit st path windowType = head (Js.values (window ml)))).
Proof.
  unfold getPlanLimit. split; [intros ->; reflexivity|].
  intros ml ->. split.
  - intros wt v -> Hwt Hv Hne. rewrite Hv.
    destruct wt; [congruence|]. destruct v; [congruence|]. reflexivity.
  - assert (match Js.keys (window ml) with
            | [] => None
            | w0 :: _ => Js.get w0 (window ml)
            end = head (Js.values (window ml))) as Hfirst.
    { destruct (window ml) as [|[k v] r]; simpl; [reflexivity|].
      now rewrite bool_decide_eq_true_2. }
    intros [-> | [-> | (wt & -> & [Hw | Hw])]]; simpl; try assumption;
      rewrite Hw; destruct wt; simpl; assumption.
Qed.


(** The spec's example: a start of 2000-01-01 against "P3Y" is refused, and
    the earliest allowed date is today minus three years, date only. *)
Example validateDateRange_three_years :
  validateDateRange Sample.utcHost Sample.now Sample.advancedState
    "/v1/btc/market-data/price-ohlcv" (Some "2000-01-01") (Some "day")
  = {| valid := false; error := Some "Date range exceeds plan limit";
       earliest_allowed := Some "2023-11-01"; limit := Some "P3Y" |}.
Proof. vm_compute. reflexivity. Qed.



End DateRange.
(* ===================================================================== *)
(** * Properties of discovery.ts *)
(* ===================================================================== *)

Section Catalog.
Import Discovery Spec.

Lemma indexable_snoc raw r :
  indexable (raw ++ [r]) =
  indexable raw ++ (if (segments (raw_path r) <? 5)%nat then [] else [indexedEndpoint r]).
Proof.
  unfold indexable. rewrite filter_app, fmap_app. f_equal.
  rewrite filter_cons, filter_nil.
  destruct (Nat.ltb_spec (segments (raw_path r)) 5);
    destruct (decide (5 <= segments (raw_path r))%nat); try lia; reflexivity.
Qed.

Lemma nonempty_snoc {A} (l : list A) x : nonempty (l ++ [x]) = Some (l ++ [x]).
Proof. destruct l; reflexivity. Qed.

Lemma nonempty_default {A} (l : list A) : default [] (nonempty l) = l.
Proof. destruct l; reflexivity. Qed.

(** Adding an endpoint under its own key keeps an index equal to the
    grouping of the list by that key. *)
Lemma addToIndex_grouping (key : ParsedEndpoint → string) m l e :
  (∀ k, m !! k = nonempty (filter (λ x, key x = k) l)) →
  ∀ k, addToIndex m (key e) e !! k = nonempty (filter (λ x, key x = k) (l ++ [e])).
Proof.
  intros Hm k. unfold addToIndex. rewrite filter_app, filter_cons, filter_nil.
  destruct (decide (key e = k)) as [<-|Hne].
  - rewrite nonempty_snoc.
    destruct (m !! key e) as [existing|] eqn:E; rewrite lookup_insert_eq;
      rewrite Hm in E.
    + destruct (filter _ l); [discriminate|]. simpl in E. now injection E as <-.
    + destruct (filter _ l); [reflexivity | discriminate].
  - rewrite app_nil_r.
    destruct (m !! key e); rewrite lookup_insert_ne by assumption; apply Hm.
Qed.

(** The state of the loop after any number of descriptors. *)
Lemma parseEndpoints_loop raw :
  let b := fold_left parseEndpointsStep raw
             {| b_endpoints := []; b_assets := ∅; b_categories := ∅;
                b_byAsset := ∅; b_byCategory := ∅; b_byAssetCategory := ∅ |} in
  b_endpoints b = indexable raw ∧
  (∀ k, b_byAsset b !! k = nonempty (filter (λ e, asset e = k) (indexable raw))) ∧
  (∀ k, b_byCategory b !! k = nonempty (filter (λ e, category e = k) (indexable raw))) ∧
  (∀ k, b_byAssetCategory b !! k
        = nonempty (filter (λ e, compositeKey e = k) (indexable raw))).
Proof.
  induction raw as [|r raw IH] using rev_ind; simpl.
  - repeat split; intros; apply lookup_empty.
  - rewrite fold_left_app. simpl. destruct IH as (He & Ha & Hc & Hac).
    rewrite indexable_snoc.
    set (b0 := fold_left parseEndpointsStep raw _) in *.
    unfold parseEndpointsStep. fold (segments (raw_path r)).
    destruct (segments (raw_path r) <? 5)%nat.
    + rewrite app_nil_r. auto.
    + cbn [b_endpoints b_byAsset b_byCategory b_byAssetCategory].
      fold (indexedEndpoint r). rewrite He. split; [reflexivity|].
      split; [|split].
      * apply (addToIndex_grouping asset _ _ (indexedEndpoint r) Ha).
      * apply (addToIndex_grouping category _ _ (indexedEndpoint r) Hc).
      * apply (addToIndex_grouping compositeKey _ _ (indexedEndpoint r) Hac).
Qed.

Lemma indexedEndpoint_inj r1 r2 : indexedEndpoint r1 = indexedEndpoint r2 → r1 = r2.
Proof.
  destruct r1, r2. unfold indexedEndpoint. simpl. intros [= -> _ _ _ -> ->]. reflexivity.
Qed.

Lemma multiplicity_fmap_inj {A B} `{EqDecision A, EqDecision B} (f : A → B) x l :
  (∀ a b, f a = f b → a = b) → multiplicity (f x) (f <$> l) = multiplicity x l.
Proof.
  intros Hinj. unfold multiplicity. induction l as [|y l IH]; [reflexivity|].
  rewrite fmap_cons, !filter_cons.
  destruct (decide (f y = f x)) as [E|E], (decide (y = x)) as [E'|E']; simpl;
    try (rewrite IH; reflexivity).
  - apply Hinj in E. contradiction.
  - subst. contradiction.
Qed.

Lemma multiplicity_filter {A} `{EqDecision A} (P : A → Prop) `{∀ x, Decision (P x)} x l :
  multiplicity x (filter P l) = if decide (P x) then multiplicity x l else 0%nat.
Proof.
  unfold multiplicity. induction l as [|y l IH].
  - simpl. destruct (decide (P x)); reflexivity.
  - rewrite !filter_cons.
    destruct (decide (P y)) as [Py|Py]; rewrite ?filter_cons;
      destruct (decide (y = x)) as [->|Hne]; simpl; rewrite IH;
      destruct (decide (P x)); try reflexivity; contradiction.
Qed.

Lemma indexable_segments e raw :
  e ∈ indexable raw → (5 <= segments (path e))%nat.
Proof.
  unfold indexable. intros (r & -> & Hr)%list_elem_of_fmap.
  apply list_elem_of_filter in Hr as [Hr _]. exact Hr.
Qed.

Lemma multiplicity_indexable r raw :
  (5 <= segments (raw_path r))%nat →
  multiplicity (indexedEndpoint r) (indexable raw) = multiplicity r raw.
Proof.
  intros Hr. unfold indexable.
  rewrite (multiplicity_fmap_inj indexedEndpoint r _ indexedEndpoint_inj).
  rewrite multiplicity_filter. destruct (decide _); [reflexivity | contradiction].
Qed.

Lemma multiplicity_group (key : ParsedEndpoint → string) e l k :
  multiplicity e (filter (λ x, key x = k) l)
  = if decide (k = key e) then multiplicity e l else 0%nat.
Proof.
  rewrite (multiplicity_filter (λ x, key x = k)).
  destruct (decide (key e = k)), (decide (k = key e)); congruence.
Qed.

(** C7. The catalog built from a descriptor list: its endpoint list is the
    list of well-formed descriptors in input order; a descriptor whose path
    has fewer than five segments is in no index; every other descriptor is
    in the endpoint list, under its asset in the by-asset index, under its
    category in the by-category index and under "asset/category" in the
    composite index, each time once per occurrence in the input (exactly
    once when the input lists it once), and under no other key. *)
Theorem parseEndpoints_indexes (now : Z) (raw : list DiscoveryEndpoint) :
  let cat := parseEndpoints now raw in
  endpoints cat = indexable raw ∧
  ∀ r : DiscoveryEndpoint,
    ((segments (raw_path r) < 5)%nat →
     ∀ e, path e = raw_path r →
       (e ∉ endpoints cat) ∧
       ∀ k, (e ∉ under (byAsset cat) k) ∧ (e ∉ under (byCategory cat) k) ∧
            (e ∉ under (byAssetCategory cat) k)) ∧
    ((5 <= segments (raw_path r))%nat →
     let e := indexedEndpoint r in
     asset e = nth 2 (Js.split "/" (raw_path r)) "" ∧
     category e = nth 3 (Js.split "/" (raw_path r)) "" ∧
     multiplicity e (endpoints cat) = multiplicity r raw ∧
     ∀ k,
       multiplicity e (under (byAsset cat) k)
       = (if decide (k = asset e) then multiplicity r raw else 0%nat) ∧
       multiplicity e (under (byCategory cat) k)
       = (if decide (k = category e) then multiplicity r raw else 0%nat) ∧
       multiplicity e (under (byAssetCategory cat) k)
       = (if decide (k = asset e +:+ "/" +:+ category e)
          then multiplicity r raw else 0%nat)).
Proof.
  intros cat. destruct (parseEndpoints_loop raw) as (He & Ha & Hc & Hac).
  subst cat. unfold parseEndpoints, under. cbn [endpoints byAsset byCategory byAssetCategory].
  rewrite He. split; [reflexivity|]. intros r. split.
  - intros Hshort e Hpath.
    assert (e ∉ indexable raw) as Hnot.
    { intros Hin%indexable_segments. rewrite Hpath in Hin. lia. }
    split; [assumption|]. intros k. rewrite Ha, Hc, Hac, !nonempty_default.
    repeat split; intros [_ Hin]%list_elem_of_filter; contradiction.
  - intros Hlong. split; [reflexivity|]. split; [reflexivity|].
    split; [now apply multiplicity_indexable|].
    intros k. rewrite Ha, Hc, Hac, !nonempty_default.
    rewrite (multiplicity_group asset), (multiplicity_group category),
      (multiplicity_group compositeKey).
    rewrite !multiplicity_indexable by assumption.
    repeat split.
Qed.

(** A descriptor listed once is indexed exactly once under each of its keys. *)
Corollary parseEndpoints_once (now : Z) (raw : list DiscoveryEndpoint) r :
  (5 <= segments (raw_path r))%nat → multiplicity r raw = 1%nat →
  let cat := parseEndpoints now raw in
  let e := indexedEndpoint r in
  multiplicity e (endpoints cat) = 1%nat ∧
  multiplicity e (under (byAsset cat) (asset e)) = 1%nat ∧
  multiplicity e (under (byCategory cat) (category e)) = 1%nat ∧
  multiplicity e (under (byAssetCategory cat) (asset e +:+ "/" +:+ category e)) = 1%nat.
Proof.
  intros Hlong Hone cat e.
  destruct (parseEndpoints_loop raw) as (He & Ha & Hc & Hac).
  subst cat. unfold parseEndpoints, under.
  cbn [endpoints byAsset byCategory byAssetCategory].
  rewrite He, Ha, Hc, Hac, !nonempty_default.
  rewrite (multiplicity_group asset), (multiplicity_group category),
    (multiplicity_group compositeKey).
  subst e. rewrite !multiplicity_indexable by assumption.
  unfold compositeKey. repeat (destruct (decide _); [|congruence]). auto.
Qed.

(** Three descriptors, one of them malformed. *)
Example parseEndpoints_sample :
  let d (p : string) :=
    {| raw_path := p; raw_parameters := ∅; raw_required_parameters := [] |} in
  let cat :=
    parseEndpoints Sample.now
      [d "/v1/btc/market-data/price-ohlcv"; d "/v1/btc/status";
       d "/v1/eth/market-data/open-interest/all"] in
  path <$> endpoints cat
    = ["/v1/btc/market-data/price-ohlcv"; "/v1/eth/market-data/open-interest/all"] ∧
  metric <$> endpoints cat = ["price-ohlcv"; "open-interest/all"] ∧
  assets cat = ["btc"; "eth"] ∧
  categories cat = ["market-data"] ∧
  path <$> under (byAsset cat) "btc" = ["/v1/btc/market-data/price-ohlcv"] ∧
  path <$> under (byCategory cat) "market-data"
    = ["/v1/btc/market-data/price-ohlcv"; "/v1/eth/market-data/open-interest/all"] ∧
  path <$> under (byAssetCategory cat) "eth/market-data"
    = ["/v1/eth/market-data/open-interest/all"] ∧
  under (byCategory cat) "status" = [].
Proof. vm_compute. repeat split. Qed.

End Catalog.

Section Parameters.
Import Discovery Spec.






Example validateEndpointParams_sample :
  validateEndpointParams Sample.priceEndpoint
    [("window", Some Json.Null); ("limit", Some (Json.Str "5")); ("foo", Some (Json.Str "x"))]
  = {| valid := false;
       errors := ["Missing required parameter: window";
                  "Invalid value for 'limit': '5'. Allowed: 100, 1000"] |}.
Proof. vm_compute. reflexivity. Qed.

End Parameters.
(* ===================================================================== *)
(** * Properties of the cache store *)
(* ===================================================================== *)

Section CacheStore.
Import Cache.

Lemma setDate_plus h now k :
  JsDate.setDate h now (JsDate.getDate h now + k)
  = JsDate.TimeClip (JsDate.UTC h (JsDate.LocalTime h now + k * JsDate.msPerDay)).
Proof.
  unfold JsDate.setDate, JsDate.getDate. rewrite MakeDay_shift_date.
  f_equal. f_equal. rewrite <- (MakeDate_Day (JsDate.LocalTime h now)) at 3.
  unfold JsDate.MakeDate. lia.
Qed.

Lemma TimeClip_Some t u : JsDate.TimeClip t = Some u → u = t ∧ Z.abs t <= 8640000000000000.
Proof.
  unfold JsDate.TimeClip. destruct (Z.gtb_spec (Z.abs t) 8640000000000000);
    [discriminate|]. intros [= <-]. split; [reflexivity | lia].
Qed.


(** A record with the fields [writeCache] writes passes [readCache] and,
    before its expiry, [isCacheValid]. *)
Lemma written_record_valid h now' apiUrl prefix cached iso planJ raw parsedJ summaryJ exp :
  Json.truthy raw = true → Json.truthy summaryJ = true →
  JsDate.parse h iso = Some exp → now' <= exp →
  let metadata :=
    Json.Obj [("api_url", Json.Str apiUrl); ("api_key_prefix", Json.Str prefix);
              ("cached_at", cached); ("expires_at", Json.Str iso); ("plan", planJ)] in
  let record :=
    Json.Obj [("version", Json.Num CACHE_VERSION); ("metadata", metadata);
              ("raw_response", raw); ("parsed", parsedJ); ("summary", summaryJ)] in
  readCache {| file := Holds record; write_error := None |} = Some record ∧
  isCacheValid h now' record apiUrl prefix = Js.Normal true.
Proof.
  intros Hraw Hsum Hparse Hle metadata record.
  assert (Json.propOrThrow "version" (Some record) = Some (Some (Json.Num CACHE_VERSION)))
    as Hv by reflexivity.
  assert (Json.prop "metadata" record = Some metadata) as Hm by reflexivity.
  assert (Json.prop "raw_response" record = Some raw) as Hr by reflexivity.
  assert (Json.prop "summary" record = Some summaryJ) as Hs by reflexivity.
  assert (Json.propOrThrow "api_url" (Some metadata) = Some (Some (Json.Str apiUrl)))
    as Hu by reflexivity.
  assert (Json.optProp "api_key_prefix" (Some metadata) = Some (Json.Str prefix))
    as Hk by reflexivity.
  assert (Json.optProp "expires_at" (Some metadata) = Some (Json.Str iso))
    as He by reflexivity.
  split.
  - unfold readCache. cbn [file]. rewrite Hv, Hm, Hr, Hs.
    cbn [Json.truthy_opt]. rewrite Hraw, Hsum. reflexivity.
  - unfold isCacheValid. rewrite Hv, Hm, Hu, Hk, He.
    cbn [Json.isNum Json.isStr dateOfJson]. rewrite Z.eqb_refl, Hparse.
    rewrite !bool_decide_eq_true_2 by eauto. cbn [negb orb JsDate.lt].
    now rewrite (proj2 (Z.ltb_ge _ _)).
Qed.

(** C6. Writing the cache and reading it back: when [writeCache] completes,
    [readCache] returns a record that carries the current format version,
    the given URL, the first eight characters of the key and an expiry seven
    local days after the time of writing, and [isCacheValid] accepts this
    record for that URL and key prefix at any time up to five days later, in
    particular immediately.  (A time zone offset stays within a day.) *)
Theorem writeCache_readCache_valid (h : Js.Host) (now now' : Z) (disk disk' : Disk)
    (apiUrl apiKey : string) (rawResponse : MyDiscoveryRawResponse)
    (parsed : PlanLimits.ParsedFragment) (summary : DiscoverySummaryData)
    (plan : PlanLimits.UserPlan) :
  (∀ t isUTC, Z.abs (Js.LocalTZA h t isUTC) <= JsDate.msPerDay) →
  writeCache h now disk apiUrl apiKey rawResponse parsed summary plan = Js.Normal disk' →
  now' <= now + 5 * JsDate.msPerDay →
  ∃ record expires_at,
    readCache disk' = Some record ∧
    Json.prop "version" record = Some (Json.Num CACHE_VERSION) ∧
    Json.optProp "api_url" (Json.prop "metadata" record) = Some (Json.Str apiUrl) ∧
    Json.optProp "api_key_prefix" (Json.prop "metadata" record)
      = Some (Json.Str (Js.slice0 8 apiKey)) ∧
    Json.optProp "expires_at" (Json.prop "metadata" record)
      = Some (Json.Str expires_at) ∧
    JsDate.parse h expires_at
      = Some (JsDate.UTC h (JsDate.LocalTime h now + CACHE_TTL_DAYS * JsDate.msPerDay)) ∧
    isCacheValid h now' record apiUrl (Js.slice0 8 apiKey) = Js.Normal true.
Proof.
  intros Htz Hwrite Hsoon. unfold writeCache in Hwrite.
  rewrite setDate_plus in Hwrite.
  set (exp := JsDate.UTC h (JsDate.LocalTime h now + CACHE_TTL_DAYS * JsDate.msPerDay)) in *.
  cbn [JsDate.toISOString] in Hwrite.
  destruct (JsDate.TimeClip exp) as [u|] eqn:Hclip; [|discriminate].
  apply TimeClip_Some in Hclip as [-> Hrange].
  cbn [JsDate.toISOString] in Hwrite.
  destruct (write_error disk); [discriminate|]. injection Hwrite as <-.
  set (iso := (JsDate.iso_date_part exp +:+ "T" +:+ JsDate.iso_time_part exp)).
  assert (JsDate.parse h iso = Some exp) as Hparse.
  { now apply parse_toISOString. }
  assert (now' <= exp) as Hle.
  { subst exp. unfold JsDate.UTC, JsDate.LocalTime, CACHE_TTL_DAYS.
    pose proof (Htz now true).
    pose proof (Htz (now + Js.LocalTZA h now true + 7 * JsDate.msPerDay) false).
    unfold JsDate.msPerDay in *. lia. }
  destruct (written_record_valid h now' apiUrl (Js.slice0 8 apiKey)
              (Json.Str (JsDate.iso_date_part now +:+ "T" +:+ JsDate.iso_time_part now))
              iso (encodePlan plan) (encodeRawResponse rawResponse)
              (encodeParsed parsed) (encodeSummary summary) exp
              eq_refl eq_refl Hparse Hle) as [Hread Hvalid].
  eexists _, iso. split; [exact Hread|].
  split; [reflexivity|]. split; [reflexivity|]. split; [reflexivity|].
  split; [reflexivity|]. split; [assumption|]. exact Hvalid.
Qed.

(** A run of the round trip: an empty disk, the sample host and clock. *)
Lemma writeCache_readCache_valid_witness :
  ∃ record expires_at,
    readCache Sample.writtenDisk = Some record ∧
    Json.prop "version" record = Some (Json.Num CACHE_VERSION) ∧
    Json.optProp "api_url" (Json.prop "metadata" record)
      = Some (Json.Str Sample.apiUrl) ∧
    Json.optProp "api_key_prefix" (Json.prop "metadata" record)
      = Some (Json.Str (Js.slice0 8 Sample.apiKey)) ∧
    Json.optProp "expires_at" (Json.prop "metadata" record)
      = Some (Json.Str expires_at) ∧
    JsDate.parse Sample.utcHost expires_at
      = Some (JsDate.UTC Sample.utcHost
                (JsDate.LocalTime Sample.utcHost Sample.now
                 + CACHE_TTL_DAYS * JsDate.msPerDay)) ∧
    isCacheValid Sample.utcHost Sample.now record Sample.apiUrl
      (Js.slice0 8 Sample.apiKey) = Js.Normal true.
Proof.
  apply (writeCache_readCache_valid Sample.utcHost Sample.now Sample.now
           Sample.emptyDisk Sample.writtenDisk Sample.apiUrl Sample.apiKey
           Sample.rawResponse Sample.fragment Sample.summaryData PlanLimits.advanced).
  - intros t isUTC. simpl. unfold JsDate.msPerDay. lia.
  - vm_compute. reflexivity.
  - unfold JsDate.msPerDay. lia.
Defined.

Example writtenDisk_expiry :
  Json.optProp "expires_at"
    (Json.optProp "metadata" (readCache Sample.writtenDisk))
  = Some (Json.Str "2026-11-08T12:34:56.789Z").
Proof. vm_compute. reflexivity. Qed.

End CacheStore.
(* ===================================================================== *)
(** * Properties of the session coordinator *)
(* ===================================================================== *)

Section Coordinator.
Import PlanLimits Permissions Spec.

(** C10. [readCache] returns the parsed file exactly when its fields
    "version", "metadata", "raw_response" and "summary" are truthy; the
    "parsed" field is not looked at.  A record that passes without it, once
    accepted by [isCacheValid], makes [initializePermissions] reject with the
    [TypeError] of reading [limits] of [undefined], the world untouched; the
    sample file is such a record. *)
Theorem readCache_does_not_check_parsed :
  (∀ disk data,
     Cache.file disk = Cache.Holds data →
     (Cache.readCache disk = Some data ↔
      Json.truthy_opt (Json.prop "version" data) = true ∧
      Json.truthy_opt (Json.prop "metadata" data) = true ∧
      Json.truthy_opt (Json.prop "raw_response" data) = true ∧
      Json.truthy_opt (Json.prop "summary" data) = true)) ∧
  (∀ h now apiKey apiUrl discoveryResponse planResponse w record,
     Cache.readCache (disk w) = Some record →
     Cache.isCacheValid h now record apiUrl (Js.slice0 8 apiKey) = Js.Normal true →
     Json.prop "parsed" record = None →
     initializePermissions h now apiKey apiUrl discoveryResponse planResponse w
     = Rejected (Cache.typeError "limits") w) ∧
  (let disk := {| Cache.file := Cache.Holds Sample.recordWithoutParsed;
                  Cache.write_error := None |} in
   Json.prop "parsed" Sample.recordWithoutParsed = None ∧
   Cache.readCache disk = Some Sample.recordWithoutParsed ∧
   initializePermissions Sample.utcHost Sample.now Sample.apiKey Sample.apiUrl
     Sample.catalogOk Sample.planOk (initialWorld disk)
   = Rejected "TypeError: Cannot read properties of undefined (reading 'limits')"
       (initialWorld disk)).
Proof.
  split; [|split].
  - intros disk data Hfile. unfold Cache.readCache. rewrite Hfile.
    destruct data; cbn [Json.propOrThrow Json.prop Json.truthy_opt];
      try (split; [discriminate | intros (? & _); discriminate]).
    destruct (Json.truthy_opt (Js.get "version" props)),
      (Json.truthy_opt (Js.get "metadata" props)),
      (Json.truthy_opt (Js.get "raw_response" props)),
      (Json.truthy_opt (Js.get "summary" props)); cbn [negb orb];
      split; try discriminate; try tauto; intros (? & ? & ? & ?); discriminate.
  - intros h now apiKey apiUrl discoveryResponse planResponse w record Hread Hvalid Hparsed.
    unfold initializePermissions. rewrite Hread, Hvalid.
    unfold initializeFromCache. rewrite Hparsed. reflexivity.
  - vm_compute. repeat split.
Qed.

(** ** Records written by the program are typed *)

Lemma decodeObj_encode {A} (f : Json.value → option A) (g : A → Json.value)
    (o : Js.obj A) :
  (∀ x, f (g x) = Some x) →
  decodeObj f (Json.Obj (prod_map id g <$> o)) = Some o.
Proof.
  intros Hfg. unfold decodeObj. apply mapM_fmap_Some. intros [k x]. simpl.
  now rewrite Hfg.
Qed.

Lemma decodeMetricLimits_encode ml :
  decodeMetricLimits (Cache.encodeMetricLimits ml) = Some ml.
Proof.
  unfold decodeMetricLimits, Cache.encodeMetricLimits. cbn [Json.prop].
  rewrite get_head. cbn [mbind option_bind].
  rewrite (decodeObj_encode decodeDuration Json.Str) by reflexivity.
  now destruct ml.
Qed.

Lemma decodeLimits_encode limits :
  decodeLimits (Some (from_option Cache.encodeLimits Json.Null limits)) = Some limits.
Proof.
  destruct limits as [limits|]; [|reflexivity]. cbn [from_option].
  unfold Cache.encodeLimits, decodeLimits.
  rewrite decodeObj_encode; [reflexivity|].
  intros categories. apply decodeObj_encode.
  intros metrics. apply decodeObj_encode. apply decodeMetricLimits_encode.
Qed.

Lemma decodeRateLimit_encode rl :
  decodeRateLimit (Some (from_option Cache.encodeRateLimit Json.Null rl)) = Some rl.
Proof. destruct rl as [[token window]|]; reflexivity. Qed.

Lemma decodePlan_encode plan : decodePlan (Some (Cache.encodePlan plan)) = Some plan.
Proof. destruct plan; reflexivity. Qed.

(** Serving a record with the fields [writeCache] writes. *)
Lemma initializeFromCache_record h now' apiKey' discoveryResponse w
    version metadataRest rawJ summaryJ fragment plan :
  let metadata := Json.Obj (metadataRest ++ [("plan", Cache.encodePlan plan)]) in
  let record :=
    Json.Obj [("version", version); ("metadata", metadata); ("raw_response", rawJ);
              ("parsed", Cache.encodeParsed fragment); ("summary", summaryJ)] in
  Js.get "plan" metadataRest = None →
  ∃ result w',
    initializeFromCache h now' apiKey' discoveryResponse record w = Returned result w' ∧
    Permissions.success result = true ∧
    planLimitsState w'
    = loadPlanLimitsFromCache now' (f_limits fragment) (f_statics fragment)
        (f_apiRateLimit fragment) plan ∧
    authenticated (permissionState w') = true ∧
    disk w' = disk w.
Proof.
  intros metadata record Hrest.
  assert (Json.prop "parsed" record = Some (Cache.encodeParsed fragment))
    as Hp by reflexivity.
  assert (Json.propOrThrow "limits" (Some (Cache.encodeParsed fragment))
          = Some (Some (from_option Cache.encodeLimits Json.Null (f_limits fragment))))
    as Hl by reflexivity.
  assert (Json.optProp "statics" (Some (Cache.encodeParsed fragment))
          = Some (Json.Arr (f_statics fragment))) as Hs by reflexivity.
  assert (Json.optProp "apiRateLimit" (Some (Cache.encodeParsed fragment))
          = Some (from_option Cache.encodeRateLimit Json.Null (f_apiRateLimit fragment)))
    as Hr by reflexivity.
  assert (Json.prop "metadata" record = Some metadata) as Hm by reflexivity.
  assert (Json.optProp "plan" (Some metadata) = Some (Cache.encodePlan plan)) as Hpl.
  { subst metadata. cbn [Json.optProp Json.prop]. clear -Hrest.
    induction metadataRest as [|[k v] rest IH]; simpl in *.
    - reflexivity.
    - destruct (bool_decide (k = "plan")); [discriminate | auto]. }
  unfold initializeFromCache.
  rewrite Hp, Hl, Hs, Hr, Hm, Hpl, decodeLimits_encode, decodeRateLimit_encode,
    decodePlan_encode. cbn [decodeStatics].
  destruct (Discovery.fetchDiscoveryEndpoints now' discoveryResponse (endpointCatalog w))
    as [discoveryResult catalog].
  eexists _, _. split; [reflexivity|]. repeat split.
Qed.

(** A record written by [writeCache] is typed: served from the cache, the
    session gets back the fragment and the plan that were written. *)
Lemma initializeFromCache_written h now now' d d' apiUrl apiKey apiKey'
    rawResponse fragment summary plan discoveryResponse w :
  Cache.writeCache h now d apiUrl apiKey rawResponse fragment summary plan
    = Js.Normal d' →
  ∃ record result w',
    Cache.readCache d' = Some record ∧
    initializeFromCache h now' apiKey' discoveryResponse record w = Returned result w' ∧
    Permissions.success result = true ∧
    planLimitsState w'
    = loadPlanLimitsFromCache now' (f_limits fragment) (f_statics fragment)
        (f_apiRateLimit fragment) plan ∧
    authenticated (permissionState w') = true ∧
    disk w' = disk w.
Proof.
  unfold Cache.writeCache.
  destruct (JsDate.toISOString (Some now)) as [cached_at|]; [|discriminate].
  destruct (JsDate.toISOString _) as [expires_at|]; [|discriminate].
  destruct (Cache.write_error d); [discriminate|]. intros [= <-].
  eexists. 
  edestruct (initializeFromCache_record h now' apiKey' discoveryResponse w
               (Json.Num Cache.CACHE_VERSION)
               [("api_url", Json.Str apiUrl);
                ("api_key_prefix", Json.Str (Js.slice0 8 apiKey));
                ("cached_at", Json.Str cached_at);
                ("expires_at", Json.Str expires_at)]
               (Cache.encodeRawResponse rawResponse) (Cache.encodeSummary summary)
               fragment plan eq_refl) as (result & w' & Hi & Hrest).
  exists result, w'. split; [reflexivity|]. split; [exact Hi | exact Hrest].
Qed.

(** C3. A 403 or a 500 from the permission endpoint is a success with tier
    "basic", no permission table and no static paths, which is also what the
    plan-limits state becomes; and the enclosing [initializePermissions], on
    a cache miss with the catalog fetched, returns success with the session
    authenticated. *)
Theorem forbidden_falls_back_to_basic (h : Js.Host) (now status : Z)
    (statusText : string) (body : option Json.value) :
  status = 403 ∨ status = 500 →
  (∀ st,
     fetchPlanLimits now (Js.Responded status statusText body) st
     = ({| PlanLimits.success := true; fetch_error := None; rawResponse := None;
           parsed := Some {| f_limits := None; f_statics := [];
                             f_apiRateLimit := None |};
           fetched_plan := Some basic |},
        {| loaded := true; limits := None; PlanLimits.plan := basic; statics := [];
           apiRateLimit := None; fetched_at := Some now |})) ∧
  (∀ apiKey apiUrl discoveryResponse w,
     cacheMiss h now apiKey apiUrl w →
     catalogFetched now discoveryResponse w →
     ∃ result w',
       initializePermissions h now apiKey apiUrl discoveryResponse
         (Js.Responded status statusText body) w
       = Returned result w' ∧
       Permissions.success result = true ∧
       authenticated (permissionState w') = true ∧
       PlanLimits.plan (planLimitsState w') = basic ∧
       limits (planLimitsState w') = None ∧
       statics (planLimitsState w') = [] ∧
       disk w' = disk w).
Proof.
  intros Hstatus.
  assert (∀ st,
     fetchPlanLimits now (Js.Responded status statusText body) st
     = ({| PlanLimits.success := true; fetch_error := None; rawResponse := None;
           parsed := Some {| f_limits := None; f_statics := [];
                             f_apiRateLimit := None |};
           fetched_plan := Some basic |},
        {| loaded := true; limits := None; PlanLimits.plan := basic; statics := [];
           apiRateLimit := None; fetched_at := Some now |})) as Hfetch.
  { intros st. unfold fetchPlanLimits. destruct Hstatus as [-> | ->]; reflexivity. }
  split; [exact Hfetch|].
  intros apiKey apiUrl discoveryResponse w Hmiss Hcat.
  assert (initializePermissions h now apiKey apiUrl discoveryResponse
            (Js.Responded status statusText body) w
          = initializeFresh h now apiKey apiUrl discoveryResponse
              (Js.Responded status statusText body) w) as ->.
  { unfold initializePermissions. unfold cacheMiss in Hmiss.
    destruct (Cache.readCache (disk w)); [now rewrite Hmiss | reflexivity]. }
  unfold initializeFresh. unfold catalogFetched in Hcat.
  destruct (Discovery.fetchDiscoveryEndpoints now discoveryResponse (endpointCatalog w))
    as [discoveryResult catalog]. cbn [fst] in Hcat. rewrite Hcat, Hfetch.
  cbn [negb PlanLimits.success rawResponse]. eexists _, _.
  split; [reflexivity|]. repeat split.
Qed.

(** The spec's scenario: a fresh process, no cache file, the catalog served
    and a 403 from the permission endpoint. *)
Lemma forbidden_falls_back_to_basic_witness :
  ∃ result w',
    initializePermissions Sample.utcHost Sample.now Sample.apiKey Sample.apiUrl
      Sample.catalogOk (Js.Responded 403 "Forbidden" None)
      (initialWorld Sample.emptyDisk)
    = Returned result w' ∧
    Permissions.success result = true ∧
    authenticated (permissionState w') = true ∧
    PlanLimits.plan (planLimitsState w') = basic ∧
    limits (planLimitsState w') = None ∧
    statics (planLimitsState w') = [] ∧
    disk w' = disk (initialWorld Sample.emptyDisk).
Proof.
  apply (proj2 (forbidden_falls_back_to_basic Sample.utcHost Sample.now 403
                  "Forbidden" None (or_introl eq_refl))).
  - vm_compute. exact I.
  - vm_compute. reflexivity.
Defined.

Lemma initializePermissions_miss h now apiKey apiUrl discoveryResponse planResponse w :
  cacheMiss h now apiKey apiUrl w →
  initializePermissions h now apiKey apiUrl discoveryResponse planResponse w
  = initializeFresh h now apiKey apiUrl discoveryResponse planResponse w.
Proof.
  unfold initializePermissions, cacheMiss. intros Hmiss.
  destruct (Cache.readCache (disk w)); [now rewrite Hmiss | reflexivity].
Qed.

(** C5, as the code has it.  On a cache miss or an invalid cache: when the
    catalog fetch fails, the call returns failure and leaves every piece of
    state as it was (so a session that was not authenticated stays so); when
    the catalog is fetched and the permission fetch fails, the call still
    returns success with the session authenticated, and writes nothing; and
    whenever the call changes the disk, the permission fetch had given a
    parsed fragment and a raw body from which [extractRawResponse] extracts
    a shape. *)
Theorem initializePermissions_on_cache_miss (h : Js.Host) (now : Z)
    (apiKey apiUrl : string)
    (discoveryResponse : Js.Fetched Discovery.DiscoveryResponse)
    (planResponse : Js.Fetched Json.value) (w : World) :
  cacheMiss h now apiKey apiUrl w →
  let outcome :=
    initializePermissions h now apiKey apiUrl discoveryResponse planResponse w in
  let planResult := fst (fetchPlanLimits now planResponse (planLimitsState w)) in
  (¬ catalogFetched now discoveryResponse w →
   ∃ result, outcome = Returned result w ∧ Permissions.success result = false) ∧
  (catalogFetched now discoveryResponse w → PlanLimits.success planResult = false →
   ∃ result w',
     outcome = Returned result w' ∧ Permissions.success result = true ∧
     authenticated (permissionState w') = true ∧ disk w' = disk w) ∧
  (∀ result w',
     outcome = Returned result w' → disk w' ≠ disk w →
     ∃ raw fragment extracted,
       rawResponse planResult = Some raw ∧
       parsed planResult = Some fragment ∧
       Cache.extractRawResponse raw = Some extracted).
Proof.
  intros Hmiss outcome planResult. subst outcome.
  rewrite (initializePermissions_miss _ _ _ _ _ _ _ Hmiss).
  unfold initializeFresh, catalogFetched.
  destruct (Discovery.fetchDiscoveryEndpoints now discoveryResponse (endpointCatalog w))
    as [discoveryResult catalog]. cbn [fst].
  destruct (Discovery.success discoveryResult); cbn [negb].
  - subst planResult.
    destruct (fetchPlanLimits now planResponse (planLimitsState w))
      as [planResult planState]. cbn [fst].
    split; [intros Hn; now contradiction Hn|]. split.
    + intros _ ->. eexists _, _. split; [reflexivity|]. repeat split.
    + intros result w'.
      destruct (PlanLimits.success planResult);
        [|intros [= <- <-] Hd; now contradiction Hd].
      destruct (PlanLimits.rawResponse planResult) as [raw|];
        [|intros [= <- <-] Hd; now contradiction Hd].
      destruct (parsed planResult) as [fragment|];
        [|intros [= <- <-] Hd; now contradiction Hd].
      destruct (Json.truthy raw); [|intros [= <- <-] Hd; now contradiction Hd].
      destruct (Cache.extractRawResponse raw) as [extracted|] eqn:Hex;
        [|intros [= <- <-] Hd; now contradiction Hd].
      intros _ _. exists raw, fragment, extracted. auto.
  - split; [intros _; eexists; split; reflexivity|].
    split; [discriminate|]. intros result w' [= <- <-] Hd. now contradiction Hd.
Qed.

(** A run on a cache miss: a fresh process, no cache file, the catalog
    served and the permission endpoint answering 502. *)
Lemma initializePermissions_on_cache_miss_witness :
  let w := initialWorld Sample.emptyDisk in
  let planResponse : Js.Fetched Json.value := Js.Responded 502 "Bad Gateway" None in
  let outcome :=
    initializePermissions Sample.utcHost Sample.now Sample.apiKey Sample.apiUrl
      Sample.catalogOk planResponse w in
  let planResult := fst (fetchPlanLimits Sample.now planResponse (planLimitsState w)) in
  (¬ catalogFetched Sample.now Sample.catalogOk w →
   ∃ result, outcome = Returned result w ∧ Permissions.success result = false) ∧
  (catalogFetched Sample.now Sample.catalogOk w → PlanLimits.success planResult = false →
   ∃ result w',
     outcome = Returned result w' ∧ Permissions.success result = true ∧
     authenticated (permissionState w') = true ∧ disk w' = disk w) ∧
  (∀ result w',
     outcome = Returned result w' → disk w' ≠ disk w →
     ∃ raw fragment extracted,
       rawResponse planResult = Some raw ∧
       parsed planResult = Some fragment ∧
       Cache.extractRawResponse raw = Some extracted).
Proof.
  apply (initializePermissions_on_cache_miss Sample.utcHost Sample.now Sample.apiKey
           Sample.apiUrl Sample.catalogOk (Js.Responded 502 "Bad Gateway" None)
           (initialWorld Sample.emptyDisk)).
  vm_compute. exact I.
Defined.

(** C5 as stated fails where it says that the state is not authenticated: a
    first call authenticates the session (catalog served, 403 from the
    permission endpoint, so nothing is cached); a second call, on the same
    cache miss, fails on the catalog fetch, returns failure, and the session
    is still authenticated. *)
Lemma failed_initialize_keeps_authenticated :
  ∃ r1 w1 r2 w2,
    initializePermissions Sample.utcHost Sample.now Sample.apiKey Sample.apiUrl
      Sample.catalogOk Sample.forbidden (initialWorld Sample.emptyDisk)
    = Returned r1 w1 ∧
    cacheMiss Sample.utcHost Sample.now Sample.apiKey Sample.apiUrl w1 ∧
    ¬ catalogFetched Sample.now Sample.catalogDown w1 ∧
    initializePermissions Sample.utcHost Sample.now Sample.apiKey Sample.apiUrl
      Sample.catalogDown Sample.forbidden w1
    = Returned r2 w2 ∧
    Permissions.success r2 = false ∧
    authenticated (permissionState w2) = true.
Proof.
  eexists _, _, _, _. split; [vm_compute; reflexivity|].
  split; [vm_compute; exact I|]. split; [vm_compute; discriminate|].
  split; [vm_compute; reflexivity|]. split; reflexivity.
Qed.

(** A full run that writes the cache, then a second one served from it. *)
Example initialize_then_cached :
  ∃ r1 w1 r2 w2,
    initializePermissions Sample.utcHost Sample.now Sample.apiKey Sample.apiUrl
      Sample.catalogOk Sample.planOk (initialWorld Sample.emptyDisk)
    = Returned r1 w1 ∧
    cache_status r1 = "fresh" ∧
    PlanLimits.plan (planLimitsState w1) = advanced ∧
    initializePermissions Sample.utcHost (Sample.now + 2 * JsDate.msPerDay)
      Sample.apiKey Sample.apiUrl Sample.catalogDown Sample.forbidden w1
    = Returned r2 w2 ∧
    Permissions.success r2 = true ∧
    cache_status r2 = "cached (2d old)" ∧
    planLimitsState w2
    = loadPlanLimitsFromCache (Sample.now + 2 * JsDate.msPerDay)
        (limits (planLimitsState w1)) (statics (planLimitsState w1))
        (apiRateLimit (planLimitsState w1)) advanced.
Proof.
  eexists _, _, _, _. split; [vm_compute; reflexivity|].
  split; [reflexivity|]. split; [reflexivity|].
  split; [vm_compute; reflexivity|]. repeat split.
Qed.

End Coordinator.
(* ===================================================================== *)
(** * Further properties of plan-limits.ts *)
(* ===================================================================== *)

Section Tiers.
Import PlanLimits Spec.
Import Terms.


(** X1. Whenever [hasEndpointAccess] denies a path, [getRequiredPlan] names
    "professional" for it: the "basic" answer of [getRequiredPlan] is never
    the one reported with a denial. *)
Theorem getRequiredPlan_when_denied (st : PlanLimitsState) (path : string) :
  hasEndpointAccess st path = false → getRequiredPlan st path = professional.
Proof.
  unfold hasEndpointAccess, getRequiredPlan.
  destruct (negb (loaded st) || _); [discriminate|].
  destruct (Json.includesString _ _); [discriminate|].
  destruct (limits st) as [tbl|]; [|reflexivity].
  destruct (getPlanLimit st path None) as [limit|]; [|reflexivity].
  rewrite (bool_decide_eq_true_2 (is_Some (Some limit))) by eauto.
  rewrite (bool_decide_eq_true_2 (is_Some (Some tbl))) by eauto.
  rewrite andb_false_r. discriminate.
Qed.

Lemma getRequiredPlan_when_denied_witness :
  hasEndpointAccess Sample.advancedState Cases.unlistedPath = false ∧
  getRequiredPlan Sample.advancedState Cases.unlistedPath = professional.
Proof.
  split; [reflexivity|].
  apply (getRequiredPlan_when_denied Sample.advancedState Cases.unlistedPath).
  reflexivity.
Defined.

(** X2. Access grows with the tier.  Over the same table and static paths,
    "professional", "premium" and "custom" are denied no path at all, and a
    path open to a tier is open to every higher tier of the hierarchy
    basic < advanced < professional < premium < custom. *)
Theorem hasEndpointAccess_monotone (st : PlanLimitsState) (path : string) :
  (∀ p, p = professional ∨ p = premium ∨ p = custom →
        hasEndpointAccess (withPlan st p) path = true) ∧
  (∀ p q i j, tierRank p = Some i → tierRank q = Some j → (i <= j)%nat →
              hasEndpointAccess (withPlan st p) path = true →
              hasEndpointAccess (withPlan st q) path = true).
Proof.
  assert (∀ p, getPlanLimit (withPlan st p) path None = getPlanLimit st path None)
    as Hlimit by reflexivity.
  assert (∀ p, p = professional ∨ p = premium ∨ p = custom →
               hasEndpointAccess (withPlan st p) path = true) as Hupper.
  { intros p Hp. unfold hasEndpointAccess. rewrite Hlimit. cbn [withPlan loaded plan statics limits].
    destruct (negb (loaded st)); [reflexivity|]. cbn [orb].
    destruct (Json.includesString path (statics st));
      [destruct (bool_decide (p = unknown)); reflexivity|].
    destruct (bool_decide (is_Some (getPlanLimit st path None)));
      destruct Hp as [-> | [-> | ->]]; reflexivity. }
  split; [exact Hupper|].
  intros p q i j Hp Hq Hij. unfold hasEndpointAccess. rewrite !Hlimit.
  cbn [withPlan loaded plan statics limits].
  destruct (negb (loaded st)); [reflexivity|]. cbn [orb].
  destruct (Json.includesString path (statics st));
    [intros _; destruct (bool_decide (q = unknown)); reflexivity|].
  destruct (bool_decide (is_Some (getPlanLimit st path None))) eqn:Hl.
  - destruct (limits st) as [tbl|] eqn:Htbl.
    + rewrite (bool_decide_eq_true_2 (is_Some (Some tbl))) by eauto.
      intros _. rewrite andb_false_r. destruct (bool_decide (q = unknown)); reflexivity.
    + apply bool_decide_eq_true in Hl as [limit Hl].
      unfold getPlanLimit, getMetricLimits in Hl. rewrite Htbl in Hl. discriminate.
  - destruct p, q; simpl in Hp, Hq; simplify_eq; try reflexivity; try discriminate;
      try lia; destruct (bool_decide (is_Some (limits st))); simpl; congruence.
Qed.

End Tiers.
Section DatedQueries.
Import PlanLimits Spec.
Import Terms.



End DatedQueries.

Section Fetching.
Import PlanLimits Spec.
Import Terms.

(** X4. The result of [fetchPlanLimits] and the state it leaves agree.  A
    failed fetch reports an error and leaves the state as it was; a
    successful one leaves a loaded state stamped with the time of the call
    whose tier, table, static paths and rate limit are the ones the result
    carries. *)
Theorem fetchPlanLimits_result_and_state (now : Z) (response : Js.Fetched Json.value)
    (st : PlanLimitsState) :
  let '(result, st') := fetchPlanLimits now response st in
  (success result = false →
   st' = st ∧ is_Some (fetch_error result) ∧ parsed result = None
   ∧ rawResponse result = None ∧ fetched_plan result = None) ∧
  (success result = true →
   loaded st' = true ∧ fetched_at st' = Some now ∧ fetch_error result = None ∧
   fetched_plan result = Some (plan st') ∧
   parsed result = Some {| f_limits := limits st'; f_statics := statics st';
                           f_apiRateLimit := apiRateLimit st' |}).
Proof.
  unfold fetchPlanLimits. destruct response as [e | status statusText body].
  - split; [intros _; repeat split; eauto | discriminate].
  - destruct (bool_decide (status = 403) || bool_decide (status = 500)).
    { split; [discriminate | intros _; repeat split]. }
    destruct (negb (Js.isOk status)).
    { split; [intros _; repeat split; eauto | discriminate]. }
    destruct body as [data|].
    + split; [discriminate | intros _; repeat split].
    + split; [intros _; repeat split; eauto | discriminate].
Qed.

Lemma normalizePlanName_unknown name :
  Js.toLowerCase name ∉ tierNames → normalizePlanName name = unknown.
Proof.
  unfold normalizePlanName, tierNames. intros Hnot.
  repeat (rewrite bool_decide_eq_false_2;
          [|intros Heq; apply Hnot; rewrite Heq; set_solver]).
  reflexivity.
Qed.

(** X5. A plan name the code does not know switches every check off.  When
    a 2xx permission payload names its plan with a non-empty string that is
    none of the five tier names in any letter case, the tier becomes
    "unknown" although the table of the payload is stored, and from then on
    [hasEndpointAccess] opens every path and [validateDateRange] accepts
    every start date. *)
Theorem unrecognised_plan_name_opens_everything (h : Js.Host) (now now' status : Z)
    (statusText name : string) (data planObj : Json.value) (st : PlanLimitsState) :
  Js.isOk status = true →
  Json.prop "plan" data = Some planObj →
  Json.prop "name" planObj = Some (Json.Str name) →
  name ≠ "" → Js.toLowerCase name ∉ tierNames →
  let '(result, st') := fetchPlanLimits now (Js.Responded status statusText (Some data)) st in
  success result = true ∧ fetched_plan result = Some unknown ∧
  loaded st' = true ∧ plan st' = unknown ∧
  limits st' = r_limits (parseApiResponse data) ∧
  ∀ path fromDate windowType,
    hasEndpointAccess st' path = true ∧
    validateDateRange h now' st' path fromDate windowType = validResult.
Proof.
  intros Hok Hplan Hname Hne Hunknown.
  assert (r_planName (parseApiResponse data) = Some name) as Hparsed.
  { unfold parseApiResponse. destruct data; try discriminate.
    cbn [Json.truthy Json.isObjectType negb orb]. rewrite Hplan.
    destruct planObj; try discriminate.
    cbn [Json.truthy Json.isObjectType andb]. rewrite Hname.
    destruct (Json.prop "apiEndpoint" (Json.Obj props)) as [apiEndpoint|];
      [destruct (Json.truthy apiEndpoint && Json.isObjectType apiEndpoint)|];
      reflexivity. }
  unfold fetchPlanLimits. rewrite Hok. cbn [negb].
  assert (bool_decide (status = 403) || bool_decide (status = 500) = false) as ->.
  { unfold Js.isOk in Hok. apply andb_true_iff in Hok as [_ Hle].
    apply Z.leb_le in Hle.
    rewrite !bool_decide_eq_false_2 by lia. reflexivity. }
  rewrite Hparsed. destruct name; [congruence|]. cbn [Js.truthy_string].
  rewrite (normalizePlanName_unknown _ Hunknown).
  repeat split.
Qed.

Lemma unrecognised_plan_name_opens_everything_witness :
  let '(result, st') :=
    fetchPlanLimits Sample.now (Js.Responded 200 "OK" (Some Cases.enterpriseBody))
      DEFAULT_STATE in
  success result = true ∧ fetched_plan result = Some unknown ∧
  loaded st' = true ∧ plan st' = unknown ∧
  limits st' = r_limits (parseApiResponse Cases.enterpriseBody) ∧
  ∀ path fromDate windowType,
    hasEndpointAccess st' path = true ∧
    validateDateRange Sample.utcHost Sample.now st' path fromDate windowType
    = validResult.
Proof.
  apply (unrecognised_plan_name_opens_everything Sample.utcHost Sample.now Sample.now
           200 "OK" "Enterprise" Cases.enterpriseBody
           (Json.Obj [("name", Json.Str "Enterprise")]) DEFAULT_STATE).
  - reflexivity.
  - reflexivity.
  - reflexivity.
  - discriminate.
  - vm_compute. intros Hin. repeat (apply elem_of_cons in Hin as [Heq | Hin]; [discriminate Heq|]).
    inversion Hin.
Defined.

End Fetching.
Section Objects.







Lemma get_elem_of {V} k (v : V) o : Js.get k o = Some v → (k, v) ∈ o.
Proof.
  induction o as [|[k0 v0] r IH]; simpl; [discriminate|].
  case_bool_decide as Hk.
  - intros [= ->]. subst. left.
  - intros H. right. auto.
Qed.

Lemma get_is_Some {V} k (o : Js.obj V) : is_Some (Js.get k o) ↔ k ∈ Js.keys o.
Proof.
  unfold Js.keys. induction o as [|[k0 v0] r IH]; simpl.
  - split; [intros [? [=]] | intros ?%elem_of_nil; contradiction].
  - case_bool_decide as Hk.
    + subst. split; [left | eauto].
    + rewrite IH. split; [now right|]. intros [?|?]%elem_of_cons; congruence.
Qed.



End Objects.

Section Payload.
Import PlanLimits Spec.
Import Terms.







End Payload.
Section Paths.
Import PlanLimits Spec.
Import Terms.

Lemma split_not_nil sep s : Js.split sep s ≠ [].
Proof.
  destruct s as [|c r]; simpl; [discriminate|].
  case_bool_decide; [discriminate|]. destruct (Js.split sep r); discriminate.
Qed.

Lemma split_noSep_app sep a b :
  Js.noSep sep a → Js.split sep (a +:+ String sep b) = a :: Js.split sep b.
Proof.
  induction a as [|c a IH]; simpl; intros Ha.
  - now rewrite bool_decide_eq_true_2.
  - destruct Ha as [Hc Ha]. rewrite (bool_decide_eq_false_2 _ Hc), (IH Ha). reflexivity.
Qed.

Lemma split_Forall_noSep sep s : Forall (Js.noSep sep) (Js.split sep s).
Proof.
  induction s as [|c r IH]; simpl.
  - repeat constructor.
  - case_bool_decide as Hc.
    + constructor; [exact I | assumption].
    + destruct (Js.split sep r) as [|x t]; [repeat constructor; assumption|].
      inversion IH; subst. constructor; [split; assumption | assumption].
Qed.

Lemma join_cons sep x y t :
  Js.join sep (x :: y :: t) = x +:+ sep +:+ Js.join sep (y :: t).
Proof. reflexivity. Qed.

Lemma join_split sep s : Js.join (String sep "") (Js.split sep s) = s.
Proof.
  induction s as [|c r IH]; simpl; [reflexivity|].
  pose proof (split_not_nil sep r) as Hne.
  destruct (Js.split sep r) as [|x t] eqn:E; [contradiction|].
  case_bool_decide as Hc.
  - subst c. rewrite join_cons, IH. reflexivity.
  - destruct t as [|y t].
    + simpl in *. now rewrite IH.
    + rewrite join_cons in *. rewrite append_cons. now rewrite IH.
Qed.

(** What [parseEndpointPath] makes of a path built from its segments. *)
Lemma parseEndpointPath_build s0 s1 a c m :
  Js.noSep "/" s0 → Js.noSep "/" s1 → Js.noSep "/" a → Js.noSep "/" c →
  parseEndpointPath (s0 +:+ "/" +:+ s1 +:+ "/" +:+ a +:+ "/" +:+ c +:+ "/" +:+ m)
  = Some {| asset := a; category := c; metric := m |}.
Proof.
  intros H0 H1 Ha Hc. unfold parseEndpointPath.
  rewrite !append_cons, !append_nil.
  rewrite (split_noSep_app "/" s0), (split_noSep_app "/" s1),
    (split_noSep_app "/" a), (split_noSep_app "/" c) by assumption.
  pose proof (split_not_nil "/" m) as Hne.
  destruct (Js.split "/" m) as [|x t] eqn:E; [contradiction|].
  cbn [length Nat.ltb Nat.leb nth drop]. rewrite <- E, (join_split "/" m). reflexivity.
Qed.

(** The segments behind a path that [parseEndpointPath] accepts. *)
Lemma parseEndpointPath_parts path parsed :
  parseEndpointPath path = Some parsed →
  ∃ s0 s1,
    Js.noSep "/" s0 ∧ Js.noSep "/" s1 ∧
    Js.noSep "/" (asset parsed) ∧ Js.noSep "/" (category parsed) ∧
    path = s0 +:+ "/" +:+ s1 +:+ "/" +:+ asset parsed +:+ "/" +:+ category parsed
           +:+ "/" +:+ metric parsed.
Proof.
  unfold parseEndpointPath. pose proof (split_Forall_noSep "/" path) as Hall.
  pose proof (join_split "/" path) as Hjoin.
  destruct (Js.split "/" path) as [|s0 [|s1 [|a [|c [|m0 rest]]]]]; try discriminate.
  cbn [length Nat.ltb Nat.leb nth drop]. intros [= <-]. cbn [asset category metric].
  rewrite !join_cons in Hjoin.
  inversion Hall as [|? ? H0 Hall1]; subst. inversion Hall1 as [|? ? H1 Hall2]; subst.
  inversion Hall2 as [|? ? Ha Hall3]; subst. inversion Hall3 as [|? ? Hc _]; subst.
  exists s0, s1. repeat split; assumption.
Qed.

(** X7. [parseEndpointPath] reads a path as five slash-separated parts, the
    last of which may itself hold slashes: it returns asset [a], category
    [c] and metric [m] exactly for the paths [s0/s1/a/c/m] in which [s0],
    [s1], [a] and [c] hold no slash, so a path is taken apart and put
    together again without loss, and whatever stands in the first two
    places is ignored. *)
Theorem parseEndpointPath_round_trip (path a c m : string) :
  parseEndpointPath path = Some {| asset := a; category := c; metric := m |} ↔
  ∃ s0 s1,
    Js.noSep "/" s0 ∧ Js.noSep "/" s1 ∧ Js.noSep "/" a ∧ Js.noSep "/" c ∧
    path = s0 +:+ "/" +:+ s1 +:+ "/" +:+ a +:+ "/" +:+ c +:+ "/" +:+ m.
Proof.
  split.
  - intros Hparsed. apply parseEndpointPath_parts in Hparsed. exact Hparsed.
  - intros (s0 & s1 & H0 & H1 & Ha & Hc & ->). now apply parseEndpointPath_build.
Qed.

End Paths.
Section Listing.
Import PlanLimits Spec.
Import Terms.

Lemma fold_left_ext {A B} (f g : A → B → A) l init :
  (∀ acc x, f acc x = g acc x) → fold_left f l init = fold_left g l init.
Proof.
  intros Hfg. revert init. induction l as [|x l IH]; intros init; simpl; [reflexivity|].
  now rewrite Hfg, IH.
Qed.

(** A loop over keys that looks each key up again and lets an inner step
    count and list. *)
Lemma tally_fold {V I} (limited : bool) (o : Js.obj V)
    (inner : string → V → Z * list I → Z * list I) (L : string → V → list I) :
  (∀ k v n eps,
     inner k v (n, eps)
     = (n + Z.of_nat (length (L k v)), if limited then eps ++ L k v else eps)) →
  ∀ ks n eps,
    fold_left (λ acc k, match Js.get k o with
                        | None => acc
                        | Some v => inner k v acc
                        end) ks (n, eps)
    = (n + Z.of_nat (length (k ← ks; v ← option_list (Js.get k o); L k v)),
       if limited then eps ++ (k ← ks; v ← option_list (Js.get k o); L k v) else eps).
Proof.
  intros Hinner. set (F := λ k, v ← option_list (Js.get k o); L k v).
  induction ks as [|k ks IH]; intros n eps.
  - simpl. rewrite app_nil_r, Z.add_0_r. now destruct limited.
  - cbn [fold_left]. change (mbind F (k :: ks)) with (F k ++ mbind F ks).
    destruct (Js.get k o) as [v|] eqn:E.
    + rewrite Hinner, IH.
      assert (F k = L k v) as -> by (unfold F; rewrite E; simpl; apply app_nil_r).
      rewrite length_app, Nat2Z.inj_add.
      f_equal; [lia|]. destruct limited; [now rewrite app_assoc | reflexivity].
    + rewrite IH. assert (F k = []) as -> by (unfold F; now rewrite E). reflexivity.
Qed.

Lemma tallyMetrics_listing plan a c metrics n eps :
  tallyMetrics plan a c metrics (n, eps)
  = (n + Z.of_nat (length (listedMetrics a c metrics)),
     if isLimitedPlan plan then eps ++ listedMetrics a c metrics else eps).
Proof.
  unfold tallyMetrics, listedMetrics.
  rewrite <- (tally_fold (isLimitedPlan plan) metrics
                (λ metric metricLimits '(count, endpoints),
                   (count + 1,
                    if isLimitedPlan plan then
                      endpoints ++ [{| info_path := listedPath a c metric;
                                       date_limit := dayLimitOf (window metricLimits) |}]
                    else endpoints))).
  - apply fold_left_ext. intros [count endpoints] metric.
    destruct (Js.get metric metrics); reflexivity.
  - intros k v n' eps'. reflexivity.
Qed.

Lemma tallyCategories_listing plan a categories n eps :
  tallyCategories plan a categories (n, eps)
  = (n + Z.of_nat (length (listedCategories a categories)),
     if isLimitedPlan plan then eps ++ listedCategories a categories else eps).
Proof.
  unfold tallyCategories, listedCategories.
  apply (tally_fold (isLimitedPlan plan) categories
           (λ category metrics acc, tallyMetrics plan a category metrics acc)
           (λ category metrics, listedMetrics a category metrics)).
  intros k v n' eps'. apply tallyMetrics_listing.
Qed.

Lemma tallyAssets_listing plan limits n eps :
  tallyAssets plan limits (n, eps)
  = (n + Z.of_nat (length (listedEndpoints limits)),
     if isLimitedPlan plan then eps ++ listedEndpoints limits else eps).
Proof.
  unfold tallyAssets, listedEndpoints.
  apply (tally_fold (isLimitedPlan plan) limits
           (λ asset categories acc, tallyCategories plan asset categories acc)
           (λ asset categories, listedCategories asset categories)).
  intros k v n' eps'. apply tallyCategories_listing.
Qed.

Lemma option_list_elem_of {A} (x : A) mx : x ∈ option_list mx ↔ mx = Some x.
Proof.
  destruct mx as [y|]; simpl.
  - rewrite list_elem_of_singleton. split; congruence.
  - split; [intros ?%elem_of_nil; contradiction | discriminate].
Qed.

Lemma elem_of_listedEndpoints info limits :
  info ∈ listedEndpoints limits ↔
  ∃ a categories c metrics m metricLimits,
    Js.get a limits = Some categories ∧ Js.get c categories = Some metrics ∧
    Js.get m metrics = Some metricLimits ∧
    info = {| info_path := listedPath a c m;
              date_limit := dayLimitOf (window metricLimits) |}.
Proof.
  unfold listedEndpoints, listedCategories, listedMetrics. split.
  - intros Hin.
    apply list_elem_of_bind in Hin as (a & Hin & _).
    apply list_elem_of_bind in Hin as (categories & Hin & Hcats).
    apply list_elem_of_bind in Hin as (c & Hin & _).
    apply list_elem_of_bind in Hin as (metrics & Hin & Hms).
    apply list_elem_of_bind in Hin as (m & Hin & _).
    apply list_elem_of_bind in Hin as (ml & Hin & Hml).
    apply option_list_elem_of in Hcats, Hms, Hml.
    apply list_elem_of_singleton in Hin. eauto 10.
  - intros (a & categories & c & metrics & m & ml & Ha & Hc & Hm & ->).
    apply list_elem_of_bind. exists a. split; [|apply get_is_Some; eauto].
    apply list_elem_of_bind. exists categories. split; [|now apply option_list_elem_of].
    apply list_elem_of_bind. exists c. split; [|apply get_is_Some; eauto].
    apply list_elem_of_bind. exists metrics. split; [|now apply option_list_elem_of].
    apply list_elem_of_bind. exists m. split; [|apply get_is_Some; eauto].
    apply list_elem_of_bind. exists ml. split; [|now apply option_list_elem_of].
    apply list_elem_of_singleton. reflexivity.
Qed.

Lemma dayLimitOf_getPlanLimit st path ml :
  getMetricLimits st path = Some ml →
  getPlanLimit st path (Some "day") = dayLimitOf (window ml) ∧
  (is_Some (dayLimitOf (window ml)) → is_Some (getPlanLimit st path None)).
Proof.
  intros Hml. unfold getPlanLimit, dayLimitOf. rewrite Hml. cbn [Js.truthy_string].
  assert (match Js.keys (window ml) with
          | [] => None
          | w0 :: _ => Js.get w0 (window ml)
          end = head (Js.values (window ml))) as Hfirst.
  { destruct (window ml) as [|[k v] r]; simpl; [reflexivity|].
    now rewrite bool_decide_eq_true_2. }
  rewrite Hfirst. split.
  - destruct (Js.get "day" (window ml)) as [v|]; [|reflexivity].
    destruct (Js.truthy_string v); reflexivity.
  - destruct (Js.get "day" (window ml)) as [v|] eqn:Hday; [|tauto].
    destruct (Js.truthy_string v); [|tauto].
    intros _. apply get_elem_of in Hday.
    destruct (window ml) as [|[k0 v0] r]; [inversion Hday | simpl; eauto].
Qed.

(** X8. The listing of reachable endpoints agrees with the access check.
    Under "basic" or "advanced" with a table loaded whose asset and
    category names hold no slash, the summary lists one entry per metric of
    the table, under the path /v1/asset/category/metric, and counts these
    entries plus the static paths; the date limit of an entry is the limit
    [getPlanLimit] finds for the listed path and the "day" window; every
    listed entry that shows a limit is a path [hasEndpointAccess] opens;
    and every path with an entry in the table is listed under its
    /v1/ form. *)
Theorem accessible_listing_is_accessible (st : PlanLimitsState) (tbl : PlanLimits)
    (totalDiscoveredEndpoints : option Z) :
  loaded st = true → isLimitedPlan (plan st) = true → limits st = Some tbl →
  slashFreeKeys tbl →
  let summary := getAccessibleEndpointsSummary st totalDiscoveredEndpoints in
  let listed := default [] (acc_endpoints summary) in
  listed = listedEndpoints tbl ∧
  acc_count summary = Z.of_nat (length listed) + Z.of_nat (length (statics st)) ∧
  (∀ info, info ∈ listed →
     date_limit info = getPlanLimit st (info_path info) (Some "day") ∧
     (is_Some (date_limit info) → hasEndpointAccess st (info_path info) = true)) ∧
  (∀ path parsed, parseEndpointPath path = Some parsed →
     is_Some (getMetricLimits st path) →
     ∃ info, info ∈ listed ∧
             info_path info = listedPath (asset parsed) (category parsed) (metric parsed)).
Proof.
  intros Hloaded Hlimited Htbl Hslash summary listed.
  assert (plan st = basic ∨ plan st = advanced) as Hplan.
  { unfold isLimitedPlan in Hlimited. apply orb_true_iff in Hlimited.
    now rewrite !bool_decide_eq_true in Hlimited. }
  assert (summary
          = {| acc_count := Z.of_nat (length (listedEndpoints tbl))
                            + Z.of_nat (length (statics st));
               acc_endpoints := if (0 <? length (listedEndpoints tbl))%nat
                                then Some (listedEndpoints tbl) else None |}) as Hsummary.
  { subst summary. unfold getAccessibleEndpointsSummary.
    rewrite Hloaded, Htbl, Hlimited. cbn [negb].
    rewrite (bool_decide_eq_true_2 (is_Some (Some tbl))) by eauto.
    rewrite andb_false_r.
    assert (bool_decide (plan st = premium) || bool_decide (plan st = professional)
            || bool_decide (plan st = custom) = false) as ->.
    { destruct Hplan as [-> | ->]; reflexivity. }
    rewrite tallyAssets_listing, Hlimited. reflexivity. }
  assert (listed = listedEndpoints tbl) as Hlisted.
  { subst listed. rewrite Hsummary. cbn [acc_endpoints].
    destruct (listedEndpoints tbl); reflexivity. }
  assert (∀ a categories c metrics m ml,
            Js.get a tbl = Some categories → Js.get c categories = Some metrics →
            Js.get m metrics = Some ml →
            getMetricLimits st (listedPath a c m) = Some ml) as Hlookup.
  { intros a categories c metrics m ml Ha Hc Hm.
    destruct (Hslash a categories (get_elem_of _ _ _ Ha)) as [Hna Hcats].
    pose proof (Hcats c metrics (get_elem_of _ _ _ Hc)) as Hnc.
    unfold getMetricLimits, listedPath. rewrite Htbl.
    change ("/v1/" +:+ a +:+ "/" +:+ c +:+ "/" +:+ m)
      with ("" +:+ "/" +:+ "v1" +:+ "/" +:+ a +:+ "/" +:+ c +:+ "/" +:+ m).
    rewrite (parseEndpointPath_build "" "v1" a c m) by (simpl; auto; repeat split; discriminate).
    cbn [asset category metric]. rewrite Ha. simpl. rewrite Hc. simpl. exact Hm. }
  split; [exact Hlisted|]. split; [now rewrite Hlisted, Hsummary|]. split.
  - rewrite Hlisted. intros info (a & categories & c & metrics & m & ml & Ha & Hc & Hm & ->)
                       %elem_of_listedEndpoints.
    cbn [info_path date_limit].
    pose proof (Hlookup _ _ _ _ _ _ Ha Hc Hm) as Hml.
    destruct (dayLimitOf_getPlanLimit st _ ml Hml) as [Hday Hsome].
    split; [now rewrite Hday|]. intros Hshown. specialize (Hsome Hshown).
    unfold hasEndpointAccess.
    rewrite (bool_decide_eq_true_2 _ Hsome), Htbl.
    rewrite (bool_decide_eq_true_2 (is_Some (Some tbl))) by eauto.
    rewrite andb_false_r.
    destruct (negb (loaded st) || bool_decide (plan st = unknown)); [reflexivity|].
    destruct (Json.includesString _ _); reflexivity.
  - intros path parsed Hparsed [ml Hml]. unfold getMetricLimits in Hml.
    rewrite Htbl, Hparsed in Hml.
    destruct (Js.get (asset parsed) tbl) as [categories|] eqn:Ha; [|discriminate].
    simpl in Hml.
    destruct (Js.get (category parsed) categories) as [metrics|] eqn:Hc; [|discriminate].
    simpl in Hml.
    exists {| info_path := listedPath (asset parsed) (category parsed) (metric parsed);
              date_limit := dayLimitOf (window ml) |}.
    split; [|reflexivity]. rewrite Hlisted.
    apply elem_of_listedEndpoints. eauto 10.
Qed.

Lemma accessible_listing_is_accessible_witness :
  let summary := getAccessibleEndpointsSummary Cases.basicState None in
  let listed := default [] (acc_endpoints summary) in
  listed = listedEndpoints Sample.table ∧
  acc_count summary
  = Z.of_nat (length listed) + Z.of_nat (length (statics Cases.basicState)) ∧
  (∀ info, info ∈ listed →
     date_limit info = getPlanLimit Cases.basicState (info_path info) (Some "day") ∧
     (is_Some (date_limit info) →
      hasEndpointAccess Cases.basicState (info_path info) = true)) ∧
  (∀ path parsed, parseEndpointPath path = Some parsed →
     is_Some (getMetricLimits Cases.basicState path) →
     ∃ info, info ∈ listed ∧
             info_path info = listedPath (asset parsed) (category parsed) (metric parsed)).
Proof.
  apply (accessible_listing_is_accessible Cases.basicState Sample.table None).
  - reflexivity.
  - reflexivity.
  - reflexivity.
  - intros a categories Ha.
    apply list_elem_of_singleton in Ha. injection Ha as -> ->.
    split; [simpl; repeat split; discriminate|].
    intros c metrics Hc. apply list_elem_of_singleton in Hc. injection Hc as -> ->.
    simpl. repeat split; discriminate.
Defined.

End Listing.
(* ===================================================================== *)
(** * Further properties of discovery.ts *)
(* ===================================================================== *)

Section Search.
Import Discovery Spec.
Import Terms.

Lemma filter_ext_elem {A} (P Q : A → Prop) `{∀ x, Decision (P x), ∀ x, Decision (Q x)}
    (l : list A) :
  (∀ x, x ∈ l → P x ↔ Q x) → filter P l = filter Q l.
Proof.
  induction l as [|x l IH]; intros Hpq; [reflexivity|].
  rewrite !filter_cons.
  rewrite IH by (intros y Hy; apply Hpq; now right).
  destruct (decide (P x)) as [Hp|Hp], (decide (Q x)) as [Hq|Hq]; try reflexivity;
    exfalso; apply (Hpq x) in Hp || apply (Hpq x) in Hq; try contradiction; left.
Qed.

Lemma filter_all {A} (P : A → Prop) `{∀ x, Decision (P x)} (l : list A) :
  (∀ x, x ∈ l → P x) → filter P l = l.
Proof.
  induction l as [|x l IH]; intros Hp; [reflexivity|].
  rewrite filter_cons, IH by (intros y Hy; apply Hp; now right).
  destruct (decide (P x)) as [_|Hn]; [reflexivity|]. exfalso. apply Hn, Hp. left.
Qed.

Lemma List_filter_filter {A} (P : A → Prop) `{∀ x, Decision (P x)} (b : A → bool)
    (l : list A) :
  (∀ x, b x = true ↔ P x) → List.filter b l = filter P l.
Proof.
  intros Hb. induction l as [|x l IH]; [reflexivity|]. simpl. rewrite filter_cons, IH.
  destruct (b x) eqn:E, (decide (P x)) as [Hp|Hp]; try reflexivity.
  - apply Hb in E. contradiction.
  - apply Hb in Hp. congruence.
Qed.

(** [includes] is substring occurrence. *)
Lemma prefix_occurs q s : String.prefix q s = true ↔ ∃ post, s = q +:+ post.
Proof.
  revert q. induction s as [|c' s IH]; intros q; destruct q as [|c q]; simpl.
  - split; [intros _; now exists "" | reflexivity].
  - split; [discriminate | intros [post [=]]].
  - split; [intros _; now exists (String c' s) | reflexivity].
  - destruct (ascii_dec c c') as [->|Hne].
    + rewrite IH. split; intros [post Hpost]; exists post;
        [now rewrite Hpost | now injection Hpost].
    + split; [discriminate | intros [post [= ? _]]; congruence].
Qed.

Lemma includes_occurs s q :
  Js.includes s q = true ↔ ∃ pre post, s = pre +:+ q +:+ post.
Proof.
  induction s as [|c s IH].
  - change (Js.includes "" q) with (if String.prefix q "" then true else false).
    destruct (String.prefix q "") eqn:E.
    + split; [intros _|reflexivity]. apply prefix_occurs in E as [post E].
      now exists "", post.
    + split; [discriminate|]. intros (pre & post & Heq).
      destruct pre; [|discriminate]. simpl in Heq.
      assert (String.prefix q "" = true) by (apply prefix_occurs; eauto). congruence.
  - change (Js.includes (String c s) q)
      with (if String.prefix q (String c s) then true else Js.includes s q).
    destruct (String.prefix q (String c s)) eqn:E.
    + split; [intros _|reflexivity]. apply prefix_occurs in E as [post E].
      now exists "", post.
    + rewrite IH. split.
      * intros (pre & post & ->). now exists (String c pre), post.
      * intros (pre & post & Heq). destruct pre as [|c' pre].
        -- simpl in Heq.
           assert (String.prefix q (String c s) = true) by (apply prefix_occurs; eauto).
           congruence.
        -- injection Heq as _ ->. eauto.
Qed.

(** The two segments of an indexed endpoint hold no slash. *)
Lemma indexable_noSep e raw :
  e ∈ indexable raw → Js.noSep "/" (asset e) ∧ Js.noSep "/" (category e).
Proof.
  intros He. pose proof (indexable_segments e raw He) as Hlen.
  unfold indexable in He. apply list_elem_of_fmap in He as (r & -> & _).
  unfold indexedEndpoint, segments in *. cbn [path asset category] in *.
  pose proof (split_Forall_noSep "/" (raw_path r)) as Hall.
  rewrite (Forall_nth _ "") in Hall. split; apply Hall; lia.
Qed.

Lemma noSep_with_sep sep a b : ¬ Js.noSep sep (a +:+ String sep b).
Proof.
  induction a as [|x a IH]; rewrite ?append_cons, ?append_nil; simpl; tauto.
Qed.

(** The composite key determines both of its parts. *)
Lemma compositeKey_parts a c a' c' :
  Js.noSep "/" a → Js.noSep "/" c →
  a +:+ "/" +:+ c = a' +:+ "/" +:+ c' ↔ a = a' ∧ c = c'.
Proof.
  intros Ha Hc. split; [|intros [-> ->]; reflexivity].
  revert a' Ha. induction a as [|x a IH]; intros a' Ha; destruct a' as [|y a'];
    rewrite ?append_cons, ?append_nil.
  - intros [= ->]. auto.
  - intros [= <- ->]. exfalso. now apply noSep_with_sep in Hc.
  - destruct Ha as [Hx Ha]. intros [= -> _]. contradiction.
  - destruct Ha as [Hx Ha]. intros [= -> Heq].
    rewrite <- (append_nil c), <- (append_nil c'), <- !append_cons in Heq.
    destruct (IH a' Ha Heq) as [-> ->]. auto.
Qed.

(** The endpoints a search starts from, on a catalog that [parseEndpoints]
    has built. *)
Lemma getBaseEndpoints_filter now raw asset category :
  getBaseEndpoints (parseEndpoints now raw) asset category
  = filter (λ e, wanted asset (Discovery.asset e) ∧ wanted category (Discovery.category e))
      (indexable raw).
Proof.
  unfold getBaseEndpoints, parseEndpoints.
  cbn [endpoints byAsset byCategory byAssetCategory].
  destruct (parseEndpoints_loop raw) as (He & Ha & Hc & Hac).
  destruct (Js.given asset) as [a|] eqn:Ea, (Js.given category) as [c|] eqn:Ec.
  - rewrite Hac, nonempty_default. apply filter_ext_elem. intros e Hin.
    unfold wanted, compositeKey. rewrite Ea, Ec.
    destruct (indexable_noSep e raw Hin). now apply compositeKey_parts.
  - rewrite Ha, nonempty_default. apply filter_ext_elem. intros e _.
    unfold wanted. rewrite Ea, Ec. tauto.
  - rewrite Hc, nonempty_default. apply filter_ext_elem. intros e _.
    unfold wanted. rewrite Ea, Ec. tauto.
  - rewrite He. symmetry. apply filter_all. intros e _.
    unfold wanted. rewrite Ea, Ec. tauto.
Qed.

Lemma searchEndpoints_filter now raw asset category query :
  searchEndpoints (Some (parseEndpoints now raw)) asset category query
  = filter (λ e, wanted asset (Discovery.asset e) ∧ wanted category (Discovery.category e)
                 ∧ matchesQuery query e) (indexable raw).
Proof.
  unfold searchEndpoints. rewrite getBaseEndpoints_filter.
  destruct (Js.given query) as [q|] eqn:Eq.
  - rewrite (List_filter_filter (matchesQuery query)).
    + rewrite list_filter_filter. apply list_filter_iff. intros e. tauto.
    + intros e. unfold matchesQuery. rewrite Eq. apply orb_true_iff.
  - apply list_filter_iff. intros e. unfold matchesQuery. rewrite Eq. tauto.
Qed.

(** X9. What a search returns.  On a catalog built by [parseEndpoints], a
    search returns, in catalog order and once per occurrence, exactly the
    indexed endpoints whose asset is the one asked for, whose category is
    the one asked for, and whose path or metric name holds the query with
    letter case ignored; a filter that is absent or empty restricts
    nothing, so that the empty search returns the whole catalog.  Without a
    catalog every search is empty. *)
Theorem searchEndpoints_selects (now : Z) (raw : list DiscoveryEndpoint)
    (asset category query : option string) :
  searchEndpoints (Some (parseEndpoints now raw)) asset category query
  = filter (λ e, wanted asset (Discovery.asset e) ∧ wanted category (Discovery.category e)
                 ∧ matchesQuery query e) (indexable raw) ∧
  searchEndpoints (Some (parseEndpoints now raw)) None None None = indexable raw ∧
  searchEndpoints None asset category query = [].
Proof.
  split; [apply searchEndpoints_filter|]. split; [|reflexivity].
  rewrite searchEndpoints_filter. apply filter_all. intros e _. repeat split.
Qed.

Lemma find_indexable raw p :
  List.find (λ ep, bool_decide (path ep = p)) (indexable raw)
  = if (5 <=? segments p)%nat
    then indexedEndpoint <$> List.find (λ r, bool_decide (raw_path r = p)) raw
    else None.
Proof.
  induction raw as [|r raw IH]; [now destruct (5 <=? segments p)%nat|].
  unfold indexable in *. rewrite filter_cons.
  destruct (decide (5 <= segments (raw_path r))%nat) as [Hlong|Hshort].
  - rewrite fmap_cons. cbn [List.find indexedEndpoint path].
    destruct (decide (raw_path r = p)) as [<-|Hne].
    + rewrite !bool_decide_eq_true_2 by reflexivity.
      now rewrite (proj2 (Nat.leb_le _ _) Hlong).
    + rewrite !bool_decide_eq_false_2 by assumption. exact IH.
  - rewrite IH. cbn [List.find].
    destruct (decide (raw_path r = p)) as [<-|Hne].
    + rewrite (proj2 (Nat.leb_gt _ _)) by lia. reflexivity.
    + now rewrite bool_decide_eq_false_2.
Qed.

(** X10. Looking an endpoint up by its path.  On a catalog built by
    [parseEndpoints], [getEndpointByPath] finds a path exactly when the
    path has at least five segments and the catalog response holds a
    descriptor with it, and then returns the indexed form of the first such
    descriptor; the endpoint found carries the path asked for, its asset,
    category and metric are the ones [parseEndpointPath] of plan-limits.ts
    reads from the same path, and [getParameterOptions] hands out its
    parameters. *)
Theorem getEndpointByPath_finds (now : Z) (raw : list DiscoveryEndpoint) (p : string) :
  let catalog := Some (parseEndpoints now raw) in
  getEndpointByPath catalog p
  = (if (5 <=? segments p)%nat
     then indexedEndpoint <$> List.find (λ r, bool_decide (raw_path r = p)) raw
     else None) ∧
  (∀ e, getEndpointByPath catalog p = Some e →
        path e = p ∧
        PlanLimits.parseEndpointPath p
        = Some {| PlanLimits.asset := Discovery.asset e;
                  PlanLimits.category := Discovery.category e;
                  PlanLimits.metric := Discovery.metric e |} ∧
        getParameterOptions catalog p
        = Some {| po_parameters := parameters e;
                  po_required := required_parameters e |}) ∧
  getEndpointByPath None p = None.
Proof.
  intros catalog.
  assert (getEndpointByPath catalog p
          = List.find (λ ep, bool_decide (path ep = p)) (indexable raw)) as Hfind.
  { subst catalog. unfold getEndpointByPath, parseEndpoints. cbn [endpoints].
    now destruct (parseEndpoints_loop raw) as (-> & _). }
  split; [rewrite Hfind; apply find_indexable|]. split; [|reflexivity].
  intros e He. unfold getParameterOptions. rewrite He.
  rewrite Hfind in He. apply find_some in He as [Hin Hpath].
  apply bool_decide_eq_true in Hpath. apply list_elem_of_In in Hin.
  pose proof (indexable_segments e raw Hin) as Hlen.
  split; [assumption|]. split; [|reflexivity].
  unfold indexable in Hin. apply list_elem_of_fmap in Hin as (r & -> & _).
  cbn [indexedEndpoint path Discovery.asset Discovery.category Discovery.metric] in *.
  subst p. unfold PlanLimits.parseEndpointPath. unfold segments in Hlen.
  now rewrite (proj2 (Nat.ltb_ge _ _) Hlen).
Qed.

End Search.
Section CatalogSummary.
Import Discovery Spec.
Import Terms.

(** The two sets of the loop of [parseEndpoints]. *)
Lemma parseEndpoints_sets raw :
  let b := fold_left parseEndpointsStep raw
             {| b_endpoints := []; b_assets := ∅; b_categories := ∅;
                b_byAsset := ∅; b_byCategory := ∅; b_byAssetCategory := ∅ |} in
  b_assets b = list_to_set (asset <$> indexable raw) ∧
  b_categories b = list_to_set (category <$> indexable raw).
Proof.
  induction raw as [|r raw IH] using rev_ind; simpl.
  - split; reflexivity.
  - rewrite fold_left_app. simpl. destruct IH as [Ha Hc].
    rewrite indexable_snoc.
    set (b0 := fold_left parseEndpointsStep raw _) in *.
    unfold parseEndpointsStep. fold (segments (raw_path r)).
    destruct (segments (raw_path r) <? 5)%nat.
    + rewrite app_nil_r. auto.
    + cbn [b_assets b_categories]. rewrite !fmap_app, !list_to_set_app_L, Ha, Hc.
      cbn [fmap list_fmap indexedEndpoint asset category list_to_set foldr].
      rewrite !union_empty_r_L. split; apply (comm_L (∪)).
Qed.

Lemma sortedElements_elem_of x (s : gset string) : x ∈ sortedElements s ↔ x ∈ s.
Proof.
  unfold sortedElements. rewrite merge_sort_Permutation. apply elem_of_elements.
Qed.

Lemma sortedElements_NoDup (s : gset string) : NoDup (sortedElements s).
Proof.
  unfold sortedElements. rewrite merge_sort_Permutation. apply NoDup_elements.
Qed.

Lemma sortedElements_Sorted (s : gset string) : Sorted codeUnitLe (sortedElements s).
Proof.
  unfold sortedElements. apply Sorted_merge_sort.
  intros a b. apply String.leb_total.
Qed.

Lemma length_filter_split {A} (P : A → Prop) `{∀ x, Decision (P x)} (l : list A) :
  (length (filter P l) + length (filter (λ x, ¬ P x) l) = length l)%nat.
Proof.
  induction l as [|x l IH]; [reflexivity|]. rewrite !filter_cons.
  destruct (decide (P x)), (decide (¬ P x)); simpl; try lia; tauto.
Qed.

Lemma sumZ_fmap_ext {A} (f g : A → Z) (l : list A) :
  (∀ x, x ∈ l → f x = g x) → sumZ (f <$> l) = sumZ (g <$> l).
Proof.
  induction l as [|x l IH]; intros Hfg; [reflexivity|].
  rewrite !fmap_cons. simpl. rewrite (Hfg x) by left.
  rewrite IH by (intros y Hy; apply Hfg; now right). reflexivity.
Qed.

(** The sizes of the groups of a list add up to its length. *)
Lemma sum_group_sizes {A} (key : A → string) (ks : list string) (l : list A) :
  NoDup ks → (∀ e, e ∈ l → key e ∈ ks) →
  sumZ ((λ k, Z.of_nat (length (filter (λ e, key e = k) l))) <$> ks)
  = Z.of_nat (length l).
Proof.
  revert l. induction ks as [|k0 ks IH]; intros l Hnd Hkeys.
  - destruct l as [|e l]; [reflexivity|].
    specialize (Hkeys e (list_elem_of_here _ _)). inversion Hkeys.
  - apply NoDup_cons in Hnd as [Hk0 Hnd]. rewrite fmap_cons. simpl.
    rewrite (sumZ_fmap_ext _
               (λ k, Z.of_nat (length (filter (λ e, key e = k)
                                         (filter (λ e, ¬ key e = k0) l))))).
    + rewrite (IH _ Hnd).
      * pose proof (length_filter_split (λ e, key e = k0) l). lia.
      * intros e [Hne Hin]%list_elem_of_filter.
        specialize (Hkeys e Hin). apply elem_of_cons in Hkeys as [?|?]; congruence.
    + intros k Hk. do 2 f_equal. rewrite list_filter_filter.
      apply list_filter_iff. intros e. split; [|tauto].
      intros <-. split; [reflexivity|]. intros Heq. rewrite Heq in Hk. contradiction.
Qed.

Lemma group_nonempty {A} (key : A → string) (l : list A) e :
  e ∈ l → (1 <= length (filter (λ x, key x = key e) l))%nat.
Proof.
  intros Hin.
  assert (e ∈ filter (λ x, key x = key e) l) as Hf by now apply list_elem_of_filter.
  destruct (filter _ l); [inversion Hf | simpl; lia].
Qed.

(** X11. The counts of the catalog summary add up.  For a catalog built by
    [parseEndpoints] at a valid time stamp, [getDiscoverySummary] reports
    as total the number of indexed endpoints; its per-asset counts sum to
    that total and so do its per-category counts; every asset and every
    category of some indexed endpoint is listed, once, in ascending order,
    each with a count of at least one; and the time stamp it prints reads
    back as the time the catalog was built. *)
Theorem getDiscoverySummary_counts (h : Js.Host) (now : Z) (raw : list DiscoveryEndpoint) :
  Z.abs now <= 8640000000000000 →
  ∃ s,
    getDiscoverySummary (Some (parseEndpoints now raw)) = Js.Normal (Some s) ∧
    ds_total_endpoints s = Z.of_nat (length (indexable raw)) ∧
    sumZ (entry_count <$> ds_assets s) = ds_total_endpoints s ∧
    sumZ (entry_count <$> ds_categories s) = ds_total_endpoints s ∧
    (∀ entry, entry ∈ ds_assets s ++ ds_categories s → 1 <= entry_count entry) ∧
    (∀ a, a ∈ entry_name <$> ds_assets s ↔ ∃ e, e ∈ indexable raw ∧ asset e = a) ∧
    (∀ c, c ∈ entry_name <$> ds_categories s ↔ ∃ e, e ∈ indexable raw ∧ category e = c) ∧
    NoDup (entry_name <$> ds_assets s) ∧ NoDup (entry_name <$> ds_categories s) ∧
    Sorted codeUnitLe (entry_name <$> ds_assets s) ∧
    Sorted codeUnitLe (entry_name <$> ds_categories s) ∧
    JsDate.parse h (ds_fetched_at s) = Some now.
Proof.
  intros Hrange. unfold getDiscoverySummary, parseEndpoints.
  cbn [endpoints assets categories byAsset byCategory fetched_at].
  destruct (parseEndpoints_loop raw) as (He & Ha & Hc & _).
  destruct (parseEndpoints_sets raw) as [Hsa Hsc].
  set (b := fold_left parseEndpointsStep raw _) in *.
  assert (JsDate.TimeClip now = Some now) as Hclip.
  { unfold JsDate.TimeClip. destruct (Z.gtb_spec (Z.abs now) 8640000000000000); [lia|].
    reflexivity. }
  rewrite Hclip. cbn [JsDate.toISOString].
  eexists. split; [reflexivity|]. cbn [ds_total_endpoints ds_assets ds_categories ds_fetched_at].
  rewrite He, Hsa, Hsc, <- !list_fmap_compose.
  assert (∀ (key : ParsedEndpoint → string) (index : gmap string (list ParsedEndpoint)),
            (∀ k, index !! k = nonempty (filter (λ e, key e = k) (indexable raw))) →
            ∀ k, Z.of_nat (length (default [] (index !! k)))
                 = Z.of_nat (length (filter (λ e, key e = k) (indexable raw)))) as Hcount.
  { intros key index Hindex k. now rewrite Hindex, nonempty_default. }
  assert (∀ key : ParsedEndpoint → string,
            ∀ k, k ∈ sortedElements (list_to_set (key <$> indexable raw)) ↔
                 ∃ e, e ∈ indexable raw ∧ key e = k) as Hnames.
  { intros key k. rewrite sortedElements_elem_of, elem_of_list_to_set, list_elem_of_fmap.
    split; intros (e & ? & ?); exists e; auto. }
  split; [reflexivity|]. split; [|split; [|split; [|split; [|split;
    [|split; [|split; [|split; [|split]]]]]]]].
  - rewrite (sumZ_fmap_ext _ (λ k, Z.of_nat (length (filter (λ e, asset e = k)
                                                        (indexable raw))))).
    + apply sum_group_sizes; [apply sortedElements_NoDup|].
      intros e Hin. apply Hnames. eauto.
    + intros k _. cbn [compose entry_count]. now apply Hcount.
  - rewrite (sumZ_fmap_ext _ (λ k, Z.of_nat (length (filter (λ e, category e = k)
                                                        (indexable raw))))).
    + apply sum_group_sizes; [apply sortedElements_NoDup|].
      intros e Hin. apply Hnames. eauto.
    + intros k _. cbn [compose entry_count]. now apply Hcount.
  - intros entry [Hin|Hin]%elem_of_app;
      apply list_elem_of_fmap in Hin as (k & -> & Hk); cbn [entry_count];
      apply Hnames in Hk as (e & Hin & <-).
    + rewrite (Hcount asset _ Ha). pose proof (group_nonempty asset _ e Hin). lia.
    + rewrite (Hcount category _ Hc). pose proof (group_nonempty category _ e Hin). lia.
  - intros a. rewrite (list_fmap_ext _ id) by reflexivity. rewrite list_fmap_id.
    apply Hnames.
  - intros c. rewrite (list_fmap_ext _ id) by reflexivity. rewrite list_fmap_id.
    apply Hnames.
  - rewrite (list_fmap_ext _ id) by reflexivity. rewrite list_fmap_id.
    apply sortedElements_NoDup.
  - rewrite (list_fmap_ext _ id) by reflexivity. rewrite list_fmap_id.
    apply sortedElements_NoDup.
  - rewrite (list_fmap_ext _ id) by reflexivity. rewrite list_fmap_id.
    apply sortedElements_Sorted.
  - rewrite (list_fmap_ext _ id) by reflexivity. rewrite list_fmap_id.
    apply sortedElements_Sorted.
  - now apply parse_toISOString.
Qed.

Lemma getDiscoverySummary_counts_witness :
  ∃ s,
    getDiscoverySummary (Some (parseEndpoints Sample.now Cases.catalogRaw))
    = Js.Normal (Some s) ∧
    ds_total_endpoints s = Z.of_nat (length (indexable Cases.catalogRaw)) ∧
    sumZ (entry_count <$> ds_assets s) = ds_total_endpoints s ∧
    sumZ (entry_count <$> ds_categories s) = ds_total_endpoints s ∧
    (∀ entry, entry ∈ ds_assets s ++ ds_categories s → 1 <= entry_count entry) ∧
    (∀ a, a ∈ entry_name <$> ds_assets s ↔
          ∃ e, e ∈ indexable Cases.catalogRaw ∧ asset e = a) ∧
    (∀ c, c ∈ entry_name <$> ds_categories s ↔
          ∃ e, e ∈ indexable Cases.catalogRaw ∧ category e = c) ∧
    NoDup (entry_name <$> ds_assets s) ∧ NoDup (entry_name <$> ds_categories s) ∧
    Sorted codeUnitLe (entry_name <$> ds_assets s) ∧
    Sorted codeUnitLe (entry_name <$> ds_categories s) ∧
    JsDate.parse Sample.utcHost (ds_fetched_at s) = Some Sample.now.
Proof.
  apply (getDiscoverySummary_counts Sample.utcHost Sample.now Cases.catalogRaw).
  unfold Sample.now. lia.
Defined.




End CatalogSummary.
(* ===================================================================== *)
(** * Further properties of the cache store and of the coordinator *)
(* ===================================================================== *)

Section CacheRecords.
Import PlanLimits Cache Spec.
Import Terms.

(** What [writeCache] leaves on the disk. *)
Lemma writeCache_shape h now d d' apiUrl apiKey rawResponse parsed summary plan iso :
  writeCache h now d apiUrl apiKey rawResponse parsed summary plan = Js.Normal d' →
  JsDate.toISOString (Some now) = Some iso →
  ∃ expires_at,
    Z.abs (expiryOf h now) <= 8640000000000000 ∧
    JsDate.toISOString (Some (expiryOf h now)) = Some expires_at ∧
    write_error d = None ∧
    d' = {| file := Holds (cacheRecord apiUrl (Js.slice0 8 apiKey) iso expires_at plan
                             rawResponse parsed summary);
            write_error := None |}.
Proof.
  unfold writeCache. rewrite setDate_plus. fold (expiryOf h now).
  intros Hwrite Hiso. rewrite Hiso in Hwrite.
  destruct (JsDate.TimeClip (expiryOf h now)) as [u|] eqn:Hclip; [|discriminate].
  apply TimeClip_Some in Hclip as [-> Hrange].
  destruct (JsDate.toISOString (Some (expiryOf h now))) as [expires_at|] eqn:Hexp;
    [|discriminate].
  destruct (write_error d); [discriminate|]. injection Hwrite as <-.
  exists expires_at. repeat split. assumption.
Qed.

Lemma cacheRecord_read apiUrl prefix cached_at expires_at plan rawResponse parsed summary :
  let record := cacheRecord apiUrl prefix cached_at expires_at plan rawResponse parsed
                  summary in
  readCache {| file := Holds record; write_error := None |} = Some record.
Proof. reflexivity. Qed.

(** The check of [isCacheValid] on such a record, for any URL, key prefix
    and time. *)
Lemma cacheRecord_valid h now' apiUrl prefix cached_at expires_at plan rawResponse parsed
    summary exp apiUrl' prefix' :
  JsDate.parse h expires_at = Some exp →
  isCacheValid h now'
    (cacheRecord apiUrl prefix cached_at expires_at plan rawResponse parsed summary)
    apiUrl' prefix'
  = Js.Normal (bool_decide (apiUrl' = apiUrl ∧ prefix' = prefix ∧ now' <= exp)).
Proof.
  intros Hparse.
  set (record := cacheRecord _ _ _ _ _ _ _ _).
  set (metadata :=
         Json.Obj [("api_url", Json.Str apiUrl); ("api_key_prefix", Json.Str prefix);
                   ("cached_at", Json.Str cached_at);
                   ("expires_at", Json.Str expires_at);
                   ("plan", encodePlan plan)]).
  assert (Json.propOrThrow "version" (Some record) = Some (Some (Json.Num CACHE_VERSION)))
    as Hv by reflexivity.
  assert (Json.prop "metadata" record = Some metadata) as Hm by reflexivity.
  assert (Json.propOrThrow "api_url" (Some metadata) = Some (Some (Json.Str apiUrl)))
    as Hu by reflexivity.
  assert (Json.optProp "api_key_prefix" (Some metadata) = Some (Json.Str prefix))
    as Hk by reflexivity.
  assert (Json.optProp "expires_at" (Some metadata) = Some (Json.Str expires_at))
    as He by reflexivity.
  unfold isCacheValid. rewrite Hv, Hm, Hu, Hk, He.
  cbn [Json.isNum Json.isStr dateOfJson]. rewrite Z.eqb_refl, Hparse. cbn [negb].
  destruct (decide (apiUrl = apiUrl')) as [<-|Hurl].
  - rewrite (bool_decide_eq_true_2 (apiUrl = apiUrl)) by reflexivity. cbn [negb].
    destruct (decide (prefix = prefix')) as [<-|Hprefix].
    + rewrite (bool_decide_eq_true_2 (prefix = prefix)) by reflexivity.
      rewrite (bool_decide_eq_true_2 (is_Some (Some exp))) by eauto.
      cbn [negb orb JsDate.lt].
      destruct (Z.ltb_spec exp now').
      * rewrite bool_decide_eq_false_2; [reflexivity | lia].
      * rewrite bool_decide_eq_true_2; [reflexivity | auto].
    + rewrite (bool_decide_eq_false_2 (prefix = prefix')) by assumption. cbn [negb].
      rewrite bool_decide_eq_false_2; [reflexivity | intros (_ & ? & _); congruence].
  - rewrite (bool_decide_eq_false_2 (apiUrl = apiUrl')) by assumption. cbn [negb].
    rewrite bool_decide_eq_false_2; [reflexivity | intros (? & _); congruence].
Qed.

(** X13. Who may use a written cache, and until when.  When [writeCache]
    completes, the record that [readCache] then returns is accepted by
    [isCacheValid] for exactly the same API URL, exactly the same first
    eight characters of the key, and any time up to and including the
    expiry, seven local days after the write; it is refused for every other
    URL, for every key that differs within its first eight characters, and
    from the first millisecond after the expiry on.  Keys that agree in
    their first eight characters share the cache. *)
Theorem written_cache_accepted_exactly (h : Js.Host) (now : Z) (d d' : Disk)
    (apiUrl apiKey : string) (rawResponse : MyDiscoveryRawResponse)
    (parsed : ParsedFragment) (summary : DiscoverySummaryData) (plan : UserPlan) :
  writeCache h now d apiUrl apiKey rawResponse parsed summary plan = Js.Normal d' →
  ∃ record,
    readCache d' = Some record ∧
    ∀ now' apiUrl' apiKeyPrefix',
      isCacheValid h now' record apiUrl' apiKeyPrefix'
      = Js.Normal (bool_decide (apiUrl' = apiUrl ∧ apiKeyPrefix' = Js.slice0 8 apiKey
                                ∧ now' <= expiryOf h now)).
Proof.
  intros Hwrite.
  destruct (writeCache_shape h now d d' apiUrl apiKey rawResponse parsed summary plan
              _ Hwrite eq_refl) as (expires_at & Hrange & Hexp & _ & ->).
  eexists. split; [apply cacheRecord_read|].
  intros now' apiUrl' prefix'. apply cacheRecord_valid.
  now apply parse_toISOString.
Qed.

Lemma written_cache_accepted_exactly_witness :
  ∃ record,
    readCache Sample.writtenDisk = Some record ∧
    ∀ now' apiUrl' apiKeyPrefix',
      isCacheValid Sample.utcHost now' record apiUrl' apiKeyPrefix'
      = Js.Normal (bool_decide (apiUrl' = Sample.apiUrl
                                ∧ apiKeyPrefix' = Js.slice0 8 Sample.apiKey
                                ∧ now' <= expiryOf Sample.utcHost Sample.now)).
Proof.
  apply (written_cache_accepted_exactly Sample.utcHost Sample.now Sample.emptyDisk
           Sample.writtenDisk Sample.apiUrl Sample.apiKey Sample.rawResponse
           Sample.fragment Sample.summaryData advanced).
  vm_compute. reflexivity.
Defined.

End CacheRecords.
Section Session.
Import PlanLimits Permissions Spec.
Import Terms.

Lemma invalidateCache_idem d :
  Cache.write_error d = None →
  Cache.invalidateCache (Cache.invalidateCache d) = Cache.invalidateCache d ∧
  Cache.file (Cache.invalidateCache d) = Cache.Missing ∧
  Cache.write_error (Cache.invalidateCache d) = None.
Proof.
  destruct d as [f e]. unfold Cache.invalidateCache. cbn [Cache.file Cache.write_error].
  intros ->. destruct f; repeat split.
Qed.

(** X14. Clearing the discovery cache forces the next [initializePermissions]
    to fetch.  When the file system lets the file go, [clearDiscoveryCache]
    (with or without a URL) leaves no cache file and no cached record in
    memory, so that [readCache] finds nothing and the next
    [initializePermissions] takes the fetching branch whatever the key and
    the time; the session itself (authentication, tier, catalog) is left as
    it was, and clearing twice is clearing once. *)
Theorem clearDiscoveryCache_forces_fetch (h : Js.Host) (now : Z) (apiKey apiUrl : string)
    (discoveryResponse : Js.Fetched Discovery.DiscoveryResponse)
    (planResponse : Js.Fetched Json.value) (clearUrl : option string) (w : World) :
  Cache.write_error (disk w) = None →
  let w' := clearDiscoveryCache clearUrl w in
  Cache.file (disk w') = Cache.Missing ∧
  Cache.readCache (disk w') = None ∧ cachedDiscovery w' = None ∧
  permissionState w' = permissionState w ∧ planLimitsState w' = planLimitsState w ∧
  endpointCatalog w' = endpointCatalog w ∧
  clearDiscoveryCache clearUrl w' = w' ∧
  initializePermissions h now apiKey apiUrl discoveryResponse planResponse w'
  = initializeFresh h now apiKey apiUrl discoveryResponse planResponse w'.
Proof.
  intros Hfs w'.
  assert (disk w' = Cache.invalidateCache (disk w)) as Hdisk.
  { subst w'. unfold clearDiscoveryCache, Cache.clearAllCaches. cbn [disk].
    destruct clearUrl as [u|]; [destruct (Js.truthy_string u)|]; reflexivity. }
  destruct (invalidateCache_idem (disk w) Hfs) as (Hidem & Hfile & Herr).
  rewrite <- Hdisk in Hfile, Herr.
  assert (Cache.readCache (disk w') = None) as Hread.
  { unfold Cache.readCache. now rewrite Hfile. }
  split; [assumption|]. split; [assumption|]. repeat split.
  - unfold clearDiscoveryCache at 1, Cache.clearAllCaches.
    assert (∀ d, (match clearUrl with
                  | Some u => if Js.truthy_string u then Cache.invalidateCache d
                              else Cache.invalidateCache d
                  | None => Cache.invalidateCache d
                  end) = Cache.invalidateCache d) as ->.
    { intros d. destruct clearUrl as [u|]; [destruct (Js.truthy_string u)|]; reflexivity. }
    rewrite Hdisk, Hidem, <- Hdisk. subst w'. reflexivity.
  - unfold initializePermissions. now rewrite Hread.
Qed.

Lemma clearDiscoveryCache_forces_fetch_witness :
  let w' := clearDiscoveryCache (Some Sample.apiUrl) Cases.cachedWorld in
  Cache.file (disk w') = Cache.Missing ∧
  Cache.readCache (disk w') = None ∧ cachedDiscovery w' = None ∧
  permissionState w' = permissionState Cases.cachedWorld ∧
  planLimitsState w' = planLimitsState Cases.cachedWorld ∧
  endpointCatalog w' = endpointCatalog Cases.cachedWorld ∧
  clearDiscoveryCache (Some Sample.apiUrl) w' = w' ∧
  initializePermissions Sample.utcHost Sample.now Sample.apiKey Sample.apiUrl
    Sample.catalogOk Sample.planOk w'
  = initializeFresh Sample.utcHost Sample.now Sample.apiKey Sample.apiUrl
      Sample.catalogOk Sample.planOk w'.
Proof.
  apply (clearDiscoveryCache_forces_fetch Sample.utcHost Sample.now Sample.apiKey
           Sample.apiUrl Sample.catalogOk Sample.planOk (Some Sample.apiUrl)
           Cases.cachedWorld).
  reflexivity.
Defined.

(** A failed catalog fetch says why. *)
Lemma fetchDiscoveryEndpoints_error now response catalog result catalog' :
  Discovery.fetchDiscoveryEndpoints now response catalog = (result, catalog') →
  Discovery.success result = false → Discovery.error result ≠ None ∧ catalog' = catalog.
Proof.
  unfold Discovery.fetchDiscoveryEndpoints.
  destruct response as [e | status statusText body].
  - intros [= <- <-] _. split; [discriminate | reflexivity].
  - destruct (negb (Js.isOk status)).
    { intros [= <- <-] _. split; [discriminate | reflexivity]. }
    destruct body as [data|]; [|intros [= <- <-] _; split; [discriminate | reflexivity]].
    destruct (Discovery.result_data data);
      [|intros [= <- <-] _; split; [discriminate | reflexivity]].
    destruct (negb (Discovery.status_code data =? 200)).
    + intros [= <- <-] _. split; [discriminate | reflexivity].
    + intros [= <- <-]. discriminate.
Qed.

Lemma initializeFromCache_session h now apiKey discoveryResponse cache w r w' :
  initializeFromCache h now apiKey discoveryResponse cache w = Returned r w' →
  success r = true ∧ error r = None ∧ result_from_cache r = true ∧
  summary r = Json.prop "summary" cache ∧
  cache_status r = Cache.getCacheStatus h now (Some cache) true ∧
  permissionState w'
  = {| authenticated := true; api_key := Some apiKey; cached_at := Some now;
       plan := PlanLimits.plan (planLimitsState w');
       plan_limits_loaded := loaded (planLimitsState w'); from_cache := true |} ∧
  cachedDiscovery w' = Some cache ∧ disk w' = disk w ∧
  endpointCatalog w'
  = snd (Discovery.fetchDiscoveryEndpoints now discoveryResponse (endpointCatalog w)).
Proof.
  unfold initializeFromCache.
  destruct (Json.propOrThrow "limits" (Json.prop "parsed" cache)); [|discriminate].
  destruct (decodeLimits _); [|discriminate].
  destruct (decodeStatics _); [|discriminate].
  destruct (decodeRateLimit _); [|discriminate].
  destruct (decodePlan _); [|discriminate].
  destruct (Discovery.fetchDiscoveryEndpoints now discoveryResponse (endpointCatalog w))
    as [discoveryResult catalog].
  intros [= <- <-]. repeat split.
Qed.




(** X16. A valid cache is served without the permission request.  When
    [readCache] returns a record that [isCacheValid] accepts, the outcome
    of [initializePermissions] does not depend on what the permission
    endpoint would answer; a call that returns then returns success from
    the cache, with the summary stored in the record, keeps the record as
    the cached one and leaves the disk alone; and a failure of the catalog
    fetch changes nothing of this: the catalog loaded before stays. *)
Theorem valid_cache_is_served (h : Js.Host) (now : Z) (apiKey apiUrl : string)
    (discoveryResponse : Js.Fetched Discovery.DiscoveryResponse)
    (planResponse planResponse' : Js.Fetched Json.value) (w : World) (cache : Json.value) :
  Cache.readCache (disk w) = Some cache →
  Cache.isCacheValid h now cache apiUrl (Js.slice0 8 apiKey) = Js.Normal true →
  initializePermissions h now apiKey apiUrl discoveryResponse planResponse w
  = initializePermissions h now apiKey apiUrl discoveryResponse planResponse' w ∧
  ∀ r w',
    initializePermissions h now apiKey apiUrl discoveryResponse planResponse w
    = Returned r w' →
    success r = true ∧ result_from_cache r = true ∧
    summary r = Json.prop "summary" cache ∧
    cachedDiscovery w' = Some cache ∧ disk w' = disk w ∧
    (Discovery.success
       (fst (Discovery.fetchDiscoveryEndpoints now discoveryResponse (endpointCatalog w)))
     = false → endpointCatalog w' = endpointCatalog w).
Proof.
  intros Hread Hvalid. unfold initializePermissions. rewrite Hread, Hvalid.
  split; [reflexivity|]. intros r w' Hrun.
  destruct (initializeFromCache_session _ _ _ _ _ _ _ _ Hrun)
    as (Hs & _ & Hfrom & Hsum & _ & _ & Hcached & Hdisk & Hcat).
  repeat split; try assumption. intros Hfail. rewrite Hcat.
  destruct (Discovery.fetchDiscoveryEndpoints now discoveryResponse (endpointCatalog w))
    as [result catalog'] eqn:Hd.
  now destruct (fetchDiscoveryEndpoints_error _ _ _ _ _ Hd Hfail).
Qed.

Lemma valid_cache_is_served_witness :
  initializePermissions Sample.utcHost Sample.now Sample.apiKey Sample.apiUrl
    Sample.catalogDown Sample.planOk Cases.cachedWorld
  = initializePermissions Sample.utcHost Sample.now Sample.apiKey Sample.apiUrl
      Sample.catalogDown Sample.forbidden Cases.cachedWorld ∧
  ∀ r w',
    initializePermissions Sample.utcHost Sample.now Sample.apiKey Sample.apiUrl
      Sample.catalogDown Sample.planOk Cases.cachedWorld
    = Returned r w' →
    success r = true ∧ result_from_cache r = true ∧
    summary r = Json.prop "summary" (default Json.Null (Cache.readCache Sample.writtenDisk)) ∧
    cachedDiscovery w' = Some (default Json.Null (Cache.readCache Sample.writtenDisk)) ∧
    disk w' = disk Cases.cachedWorld ∧
    (Discovery.success
       (fst (Discovery.fetchDiscoveryEndpoints Sample.now Sample.catalogDown
               (endpointCatalog Cases.cachedWorld)))
     = false → endpointCatalog w' = endpointCatalog Cases.cachedWorld).
Proof.
  apply (valid_cache_is_served Sample.utcHost Sample.now Sample.apiKey Sample.apiUrl
           Sample.catalogDown Sample.planOk Sample.forbidden Cases.cachedWorld
           (default Json.Null (Cache.readCache Sample.writtenDisk))).
  - vm_compute. reflexivity.
  - vm_compute. reflexivity.
Defined.

End Session.
Section Coherence.
Import PlanLimits Permissions Spec.
Import Terms.







Lemma parseApiResponse_limits_inv data tbl :
  r_limits (parseApiResponse data) = Some tbl →
  Json.truthy data = true ∧
  ∃ apiEndpoint, Json.prop "apiEndpoint" data = Some apiEndpoint ∧
                 Json.truthy apiEndpoint = true ∧ Json.isObjectType apiEndpoint = true.
Proof.
  unfold parseApiResponse.
  destruct (Json.truthy data) eqn:Ht; [|discriminate]. cbn [negb orb].
  destruct (negb (Json.isObjectType data)); [discriminate|].
  destruct (Json.prop "apiEndpoint" data) as [apiEndpoint|]; [|discriminate].
  destruct (Json.truthy apiEndpoint) eqn:Hta; [|discriminate].
  destruct (Json.isObjectType apiEndpoint) eqn:Hoa; [|discriminate].
  intros _. eauto.
Qed.

Lemma countStatics_strings staticPaths assetData :
  Forall isString staticPaths →
  ∃ assetData', Cache.countStatics staticPaths assetData = Js.Normal assetData'.
Proof.
  intros Hall. revert assetData.
  induction Hall as [|v rest [s ->] _ IH]; intros assetData;
    cbn [Cache.countStatics]; cbv zeta; [eauto|].
  destruct (4 <=? length (Js.split "/" s))%nat; apply IH.
Qed.

Lemma countStatics_throws staticPaths assetData :
  ¬ Forall isString staticPaths →
  ∃ e, Cache.countStatics staticPaths assetData = Js.Throw e.
Proof.
  revert assetData. induction staticPaths as [|v rest IH]; intros assetData Hnot.
  - exfalso. apply Hnot. constructor.
  - destruct v; cbn [Cache.countStatics]; cbv zeta; eauto.
    destruct (4 <=? length (Js.split "/" s))%nat; apply IH; intros Hrest;
      apply Hnot; constructor; try assumption; now exists s.
Qed.

(** The fetching branch up to the summary, for a 2xx answer with a body. *)
Lemma initializeFresh_with_body h now apiKey apiUrl discoveryResponse status statusText
    data w :
  catalogFetched now discoveryResponse w → Js.isOk status = true →
  Json.truthy data = true →
  ∃ planState catalog,
    fetchPlanLimits now (Js.Responded status statusText (Some data)) (planLimitsState w)
    = ({| PlanLimits.success := true; fetch_error := None; rawResponse := Some data;
          parsed := Some {| f_limits := limits planState; f_statics := statics planState;
                            f_apiRateLimit := apiRateLimit planState |};
          fetched_plan := Some (PlanLimits.plan planState) |}, planState) ∧
    loaded planState = true ∧
    limits planState = r_limits (parseApiResponse data) ∧
    statics planState = r_statics (parseApiResponse data) ∧
    initializeFresh h now apiKey apiUrl discoveryResponse
      (Js.Responded status statusText (Some data)) w
    = let w1 :=
        {| planLimitsState := planState; endpointCatalog := catalog;
           permissionState := permissionState w;
           cachedDiscovery := cachedDiscovery w; disk := disk w |} in
      let authenticatedState :=
        {| authenticated := true; api_key := Some apiKey; cached_at := Some now;
           plan := PlanLimits.plan planState;
           plan_limits_loaded := loaded planState; from_cache := false |} in
      match Cache.extractRawResponse data with
      | Some extracted =>
          match Cache.generateSummary h (limits planState) (statics planState) with
          | Js.Throw e => Returned (failure (Some ("Network error: " +:+ e))) w1
          | Js.Normal summaryData =>
              match Cache.writeCache h now (disk w) apiUrl apiKey extracted
                      {| f_limits := limits planState; f_statics := statics planState;
                         f_apiRateLimit := apiRateLimit planState |}
                      summaryData (PlanLimits.plan planState) with
              | Js.Throw e => Returned (failure (Some ("Network error: " +:+ e))) w1
              | Js.Normal disk' =>
                  Returned
                    {| success := true; error := None; result_from_cache := false;
                       cache_status := "fresh";
                       summary := Some (Cache.encodeSummary summaryData) |}
                    {| planLimitsState := planState; endpointCatalog := catalog;
                       permissionState := authenticatedState;
                       cachedDiscovery := Cache.readCache disk'; disk := disk' |}
              end
          end
      | None =>
          Returned
            {| success := true; error := None; result_from_cache := false;
               cache_status := "none"; summary := None |}
            {| planLimitsState := planState; endpointCatalog := catalog;
               permissionState := authenticatedState;
               cachedDiscovery := cachedDiscovery w; disk := disk w |}
      end.
Proof.
  intros Hcatalog Hok Htruthy. unfold catalogFetched in Hcatalog.
  unfold initializeFresh.
  destruct (Discovery.fetchDiscoveryEndpoints now discoveryResponse (endpointCatalog w))
    as [discoveryResult catalog]. cbn [fst] in Hcatalog. rewrite Hcatalog. cbn [negb].
  unfold fetchPlanLimits. rewrite Hok. cbn [negb].
  assert (bool_decide (status = 403) || bool_decide (status = 500) = false) as ->.
  { unfold Js.isOk in Hok. apply andb_true_iff in Hok as [_ Hle].
    apply Z.leb_le in Hle.
    rewrite !bool_decide_eq_false_2 by lia. reflexivity. }
  match goal with
  | |- context [(_, ?st)] =>
      match type of st with
      | PlanLimitsState => exists st, catalog
      end
  end.
  split; [reflexivity|].
  cbn [loaded limits statics apiRateLimit PlanLimits.plan PlanLimits.success
       rawResponse parsed fetched_plan f_limits f_statics default].
  rewrite Htruthy. repeat split.
Qed.

(** X18. When a fetch ends in a written cache.  On a cache miss with the
    catalog fetched, a 2xx permission payload that yields a table and whose
    static paths are all strings is cached whenever the file system takes
    the write and the expiry is a valid date: the call returns success with
    status "fresh" and a summary, the record can be read back from the disk
    it leaves, and that record is the cached one in memory. *)
Theorem fetched_table_is_cached (h : Js.Host) (now status : Z)
    (apiKey apiUrl statusText : string)
    (discoveryResponse : Js.Fetched Discovery.DiscoveryResponse)
    (data : Json.value) (w : World) (tbl : PlanLimits) :
  cacheMiss h now apiKey apiUrl w → catalogFetched now discoveryResponse w →
  Js.isOk status = true →
  r_limits (parseApiResponse data) = Some tbl →
  Forall isString (r_statics (parseApiResponse data)) →
  Cache.write_error (disk w) = None →
  Z.abs (expiryOf h now) <= 8640000000000000 →
  ∃ r w',
    initializePermissions h now apiKey apiUrl discoveryResponse
      (Js.Responded status statusText (Some data)) w = Returned r w' ∧
    success r = true ∧ cache_status r = "fresh" ∧ is_Some (summary r) ∧
    is_Some (Cache.readCache (disk w')) ∧
    cachedDiscovery w' = Cache.readCache (disk w') ∧
    limits (planLimitsState w') = Some tbl.
Proof.
  intros Hmiss Hcatalog Hok Htbl Hstrings Hfs Hrange.
  rewrite (initializePermissions_miss _ _ _ _ _ _ _ Hmiss).
  destruct (parseApiResponse_limits_inv data tbl Htbl)
    as (Htruthy & apiEndpoint & Hprop & Hta & Hoa).
  destruct (initializeFresh_with_body h now apiKey apiUrl discoveryResponse status
              statusText data w Hcatalog Hok Htruthy)
    as (planState & catalog & _ & _ & Hlimits & Hstatics & ->).
  cbv zeta.
  assert (∃ extracted, Cache.extractRawResponse data = Some extracted) as [extracted ->].
  { unfold Cache.extractRawResponse. rewrite Hprop, Hta, Hoa. eauto. }
  assert (∃ summaryData,
            Cache.generateSummary h (limits planState) (statics planState)
            = Js.Normal summaryData) as [summaryData ->].
  { unfold Cache.generateSummary. rewrite Hstatics.
    destruct (countStatics_strings _ (from_option (λ l, Cache.countLimits l []) []
                                        (limits planState)) Hstrings) as [ad ->].
    eauto. }
  assert (∃ cached_at expires_at,
            Cache.writeCache h now (disk w) apiUrl apiKey extracted
              {| f_limits := limits planState; f_statics := statics planState;
                 f_apiRateLimit := apiRateLimit planState |}
              summaryData (PlanLimits.plan planState)
            = Js.Normal
                {| Cache.file :=
                     Cache.Holds
                       (cacheRecord apiUrl (Js.slice0 8 apiKey) cached_at expires_at
                          (PlanLimits.plan planState) extracted
                          {| f_limits := limits planState;
                             f_statics := statics planState;
                             f_apiRateLimit := apiRateLimit planState |} summaryData);
                   Cache.write_error := None |})
    as (cached_at & expires_at & ->).
  { unfold Cache.writeCache. rewrite setDate_plus. fold (expiryOf h now).
    unfold JsDate.TimeClip.
    destruct (Z.gtb_spec (Z.abs (expiryOf h now)) 8640000000000000); [lia|].
    cbn [JsDate.toISOString]. rewrite Hfs. eauto. }
  eexists _, _. split; [reflexivity|].
  cbn [success cache_status summary disk cachedDiscovery planLimitsState].
  rewrite Hlimits, Htbl. repeat split; eauto.
Qed.

Lemma fetched_table_is_cached_witness :
  ∃ r w',
    initializePermissions Sample.utcHost Sample.now Sample.apiKey Sample.apiUrl
      Sample.catalogOk (Js.Responded 200 "OK" (Some Sample.planBody))
      (initialWorld Sample.emptyDisk) = Returned r w' ∧
    success r = true ∧ cache_status r = "fresh" ∧ is_Some (summary r) ∧
    is_Some (Cache.readCache (disk w')) ∧
    cachedDiscovery w' = Cache.readCache (disk w') ∧
    limits (planLimitsState w')
    = Some [("btc", [("market-data",
                      [("price-ohlcv", {| window := [("day", "P3Y")] |})])])].
Proof.
  apply (fetched_table_is_cached Sample.utcHost Sample.now 200 Sample.apiKey
           Sample.apiUrl "OK" Sample.catalogOk Sample.planBody
           (initialWorld Sample.emptyDisk)).
  - exact I.
  - reflexivity.
  - reflexivity.
  - reflexivity.
  - repeat constructor. now exists "/v1/btc/status/entity-list".
  - reflexivity.
  - vm_compute. discriminate.
Defined.

(** X19. A static path that is no string fails the whole call.  On a cache
    miss with the catalog fetched, a 2xx permission payload whose array of
    static paths holds an item that is not a string makes
    [initializePermissions] return failure with a "Network error" although
    both requests succeeded: the plan-limits state is loaded from the
    payload, but the session is left as it was and nothing is written. *)
Theorem non_string_static_fails_initialize (h : Js.Host) (now status : Z)
    (apiKey apiUrl statusText : string)
    (discoveryResponse : Js.Fetched Discovery.DiscoveryResponse)
    (data apiEndpoint : Json.value) (items : list Json.value) (w : World) :
  cacheMiss h now apiKey apiUrl w → catalogFetched now discoveryResponse w →
  Js.isOk status = true →
  Json.prop "apiEndpoint" data = Some apiEndpoint →
  Json.prop "statics" apiEndpoint = Some (Json.Arr items) →
  ¬ Forall isString items →
  ∃ r w' e,
    initializePermissions h now apiKey apiUrl discoveryResponse
      (Js.Responded status statusText (Some data)) w = Returned r w' ∧
    success r = false ∧ error r = Some ("Network error: " +:+ e) ∧
    loaded (planLimitsState w') = true ∧
    statics (planLimitsState w') = items ∧
    permissionState w' = permissionState w ∧
    cachedDiscovery w' = cachedDiscovery w ∧ disk w' = disk w.
Proof.
  intros Hmiss Hcatalog Hok Hprop Hstatics Hbroken.
  rewrite (initializePermissions_miss _ _ _ _ _ _ _ Hmiss).
  assert (Json.truthy data = true ∧ Json.isObjectType data = true) as [Htruthy Hobj].
  { destruct data; try discriminate. auto. }
  assert (Json.truthy apiEndpoint = true ∧ Json.isObjectType apiEndpoint = true)
    as [Hta Hoa].
  { destruct apiEndpoint; try discriminate. auto. }
  destruct (initializeFresh_with_body h now apiKey apiUrl discoveryResponse status
              statusText data w Hcatalog Hok Htruthy)
    as (planState & catalog & _ & Hloaded & _ & Hitems & ->).
  cbv zeta.
  assert (r_statics (parseApiResponse data) = items) as Hparsed.
  { unfold parseApiResponse. rewrite Htruthy, Hobj, Hprop, Hta, Hoa, Hstatics.
    reflexivity. }
  rewrite Hparsed in Hitems.
  assert (∃ extracted, Cache.extractRawResponse data = Some extracted) as [extracted ->].
  { unfold Cache.extractRawResponse. rewrite Hprop, Hta, Hoa. eauto. }
  assert (∃ e, Cache.generateSummary h (limits planState) (statics planState)
               = Js.Throw e) as [e ->].
  { unfold Cache.generateSummary. rewrite Hitems.
    destruct (countStatics_throws items (from_option (λ l, Cache.countLimits l []) []
                                           (limits planState)) Hbroken) as [e ->].
    eauto. }
  eexists _, _, e. split; [reflexivity|]. repeat split; assumption.
Qed.

Lemma non_string_static_fails_initialize_witness :
  ∃ r w' e,
    initializePermissions Sample.utcHost Sample.now Sample.apiKey Sample.apiUrl
      Sample.catalogOk (Js.Responded 200 "OK" (Some Cases.brokenStaticsBody))
      (initialWorld Sample.emptyDisk) = Returned r w' ∧
    success r = false ∧ error r = Some ("Network error: " +:+ e) ∧
    loaded (planLimitsState w') = true ∧
    statics (planLimitsState w')
    = [Json.Str "/v1/btc/status/entity-list"; Json.Num 7] ∧
    permissionState w' = permissionState (initialWorld Sample.emptyDisk) ∧
    cachedDiscovery w' = cachedDiscovery (initialWorld Sample.emptyDisk) ∧
    disk w' = disk (initialWorld Sample.emptyDisk).
Proof.
  apply (non_string_static_fails_initialize Sample.utcHost Sample.now 200 Sample.apiKey
           Sample.apiUrl "OK" Sample.catalogOk Cases.brokenStaticsBody
           (Json.Obj
              [("btc",
                Json.Obj
                  [("market-data",
                    Json.Obj [("price-ohlcv", Json.Obj [("day", Json.Str "P3Y")])])]);
               ("statics",
                Json.Arr [Json.Str "/v1/btc/status/entity-list"; Json.Num 7])])
           [Json.Str "/v1/btc/status/entity-list"; Json.Num 7]
           (initialWorld Sample.emptyDisk)).
  - exact I.
  - reflexivity.
  - reflexivity.
  - reflexivity.
  - reflexivity.
  - intros Hall. inversion Hall as [|? ? _ Hrest]; subst.
    inversion Hrest as [|? ? [s Hs] _]; subst. discriminate Hs.
Defined.

End Coherence.
Section SummaryOfPayload.
Import PlanLimits Cache Spec.
Import Terms.

Lemma sumZ_app l k : sumZ (l ++ k) = sumZ l + sumZ k.
Proof. unfold sumZ. induction l as [|x l IH]; simpl; lia. Qed.















End SummaryOfPayload.
Section Outcomes.
Import PlanLimits Permissions Spec.
Import Terms.




End Outcomes.

Section Shapes.
Import PlanLimits Spec.
Import Terms.




End Shapes.
(* ===================================================================== *)
(** * Properties of the requests, of the stored credentials and of the
      key lookup *)
(* ===================================================================== *)

Section Requests.
Import Discovery Spec.
Import Terms.

(** X23. The result of [fetchDiscoveryEndpoints] and the catalog it leaves
    agree.  The fetch succeeds exactly on a 2xx answer whose body carries
    status code 200 and a list of descriptors, and then the catalog is the
    one [parseEndpoints] builds from that list at the time of the call; any
    other answer is a failure that says why and leaves the catalog that was
    loaded before untouched. *)
Theorem fetchDiscoveryEndpoints_result_and_catalog (now : Z)
    (response : Js.Fetched DiscoveryResponse) (catalog : option EndpointCatalog) :
  let result := fst (fetchDiscoveryEndpoints now response catalog) in
  let catalog' := snd (fetchDiscoveryEndpoints now response catalog) in
  (success result = true ↔
   ∃ status statusText data raw,
     response = Js.Responded status statusText (Some data) ∧ Js.isOk status = true ∧
     status_code data = 200 ∧ result_data data = Some raw) ∧
  (∀ status statusText data raw,
     response = Js.Responded status statusText (Some data) →
     result_data data = Some raw → success result = true →
     error result = None ∧ catalog' = Some (parseEndpoints now raw)) ∧
  (success result = false → error result ≠ None ∧ catalog' = catalog).
Proof.
  intros result catalog'. subst result catalog'. unfold fetchDiscoveryEndpoints.
  destruct response as [e | status statusText body].
  { cbn [fst snd success error]. split; [|split].
    - split; [discriminate | intros (? & ? & ? & ? & [=] & _)].
    - intros ? ? ? ? [=].
    - intros _. split; [discriminate | reflexivity]. }
  destruct (Js.isOk status) eqn:Hok; cbn [negb].
  2:{ cbn [fst snd success error]. split; [|split].
      - split; [discriminate | intros (? & ? & ? & ? & [= <- _ _] & ? & _); congruence].
      - intros ? ? ? ? _ _ [=].
      - intros _. split; [discriminate | reflexivity]. }
  destruct body as [data|].
  2:{ cbn [fst snd success error]. split; [|split].
      - split; [discriminate | intros (? & ? & ? & ? & [=] & _)].
      - intros ? ? ? ? [=].
      - intros _. split; [discriminate | reflexivity]. }
  destruct (result_data data) as [raw|] eqn:Hraw.
  2:{ cbn [fst snd success error]. split; [|split].
      - split; [discriminate | intros (? & ? & ? & ? & [= _ _ <-] & _ & _ & ?); congruence].
      - intros ? ? ? ? _ _ [=].
      - intros _. split; [discriminate | reflexivity]. }
  destruct (Z.eqb_spec (status_code data) 200) as [Hcode|Hcode]; cbn [negb].
  - cbn [fst snd success error]. split; [|split].
    + split; [intros _; exists status, statusText, data, raw; auto | reflexivity].
    + intros ? ? ? ? [= _ _ <-] Hraw' _. split; [reflexivity | congruence].
    + discriminate.
  - cbn [fst snd success error]. split; [|split].
    + split; [discriminate | intros (? & ? & ? & ? & [= _ _ <-] & _ & ? & _); congruence].
    + intros ? ? ? ? _ _ [=].
    + intros _. split; [discriminate | reflexivity].
Qed.

Lemma length_append (a b : string) :
  String.length (a +:+ b) = (String.length a + String.length b)%nat.
Proof.
  induction a as [|c a IH]; [now rewrite append_nil|].
  rewrite append_cons. simpl. now rewrite IH.
Qed.

Lemma append_length_neq c (b suffix : string) : String c (b +:+ suffix) ≠ suffix.
Proof.
  intros Heq. apply (f_equal String.length) in Heq.
  simpl in Heq. rewrite length_append in Heq. lia.
Qed.

Lemma removeSuffix_app suffix base :
  suffix ≠ "" → Js.removeSuffix suffix (base +:+ suffix) = base.
Proof.
  intros Hne. induction base as [|c b IH].
  - rewrite append_nil. destruct suffix as [|c r]; [congruence|].
    simpl. now rewrite bool_decide_eq_true_2.
  - rewrite append_cons. cbn [Js.removeSuffix].
    rewrite bool_decide_eq_false_2 by apply append_length_neq. now rewrite IH.
Qed.

Lemma removeSuffix_other suffix s :
  (∀ base, s ≠ base +:+ suffix) → Js.removeSuffix suffix s = s.
Proof.
  induction s as [|c r IH]; intros Hnot; [reflexivity|]. cbn [Js.removeSuffix].
  rewrite bool_decide_eq_false_2.
  - rewrite IH; [reflexivity|]. intros base ->. apply (Hnot (String c base)).
    now rewrite append_cons.
  - intros Heq. apply (Hnot ""). now rewrite append_nil.
Qed.

(** X28. The API URL with or without its version suffix.  Both requests go
    to the base URL followed by /v1 and the path of the endpoint, whether
    the configured URL is the base itself or the base followed by /v1: one
    trailing /v1 is dropped before the path is appended, and nothing else
    is changed.  For the default URL these are the addresses under
    https://api.cryptoquant.com/v1. *)
Theorem request_urls_ignore_version_suffix :
  (∀ base,
     discoveryUrl (base +:+ "/v1") = base +:+ "/v1/discovery/endpoints?source=mcp" ∧
     PlanLimits.planLimitsUrl (base +:+ "/v1")
     = base +:+ "/v1/my/discovery/endpoints?source=mcp") ∧
  (∀ url, (∀ base, url ≠ base +:+ "/v1") →
     discoveryUrl url = url +:+ "/v1/discovery/endpoints?source=mcp" ∧
     PlanLimits.planLimitsUrl url = url +:+ "/v1/my/discovery/endpoints?source=mcp") ∧
  (∀ env, Config.getApiBaseUrl env = Js.removeSuffix "/v1" (Config.getApiUrl env)) ∧
  Config.getApiBaseUrl None = "https://api.cryptoquant.com" ∧
  discoveryUrl (Config.getApiUrl None)
  = "https://api.cryptoquant.com/v1/discovery/endpoints?source=mcp" ∧
  PlanLimits.planLimitsUrl (Config.getApiUrl None)
  = "https://api.cryptoquant.com/v1/my/discovery/endpoints?source=mcp".
Proof.
  split; [|split; [|split; [|split; [|split]]]].
  - intros base. unfold discoveryUrl, PlanLimits.planLimitsUrl.
    rewrite removeSuffix_app by discriminate. split; reflexivity.
  - intros url Hnot. unfold discoveryUrl, PlanLimits.planLimitsUrl.
    rewrite removeSuffix_other by assumption. split; reflexivity.
  - reflexivity.
  - vm_compute. reflexivity.
  - vm_compute. reflexivity.
  - vm_compute. reflexivity.
Qed.

End Requests.

Section FetchedTier.
Import PlanLimits Spec.
Import Terms.

Lemma detectPlanFromLimits_range limits :
  detectPlanFromLimits limits ∈ [basic; advanced; professional; premium].
Proof.
  unfold detectPlanFromLimits. destruct limits as [tbl|]; [|left].
  destruct (total (collectDurationCounts tbl) =? 0); [left|].
  cbv zeta.
  destruct (Qgtb _ _); [left|]. destruct (Qgtb _ _); [do 3 right; left|].
  destruct (Qgtb _ _); [do 2 right; left | right; left].
Qed.

Lemma normalizePlanName_tier name t :
  t ≠ unknown → normalizePlanName name = t ↔ Js.toLowerCase name = tierName t.
Proof.
  intros Ht. unfold normalizePlanName. cbv zeta.
  destruct (decide (Js.toLowerCase name = "basic")) as [->|H1];
    [destruct t; simpl; split; congruence|].
  rewrite (bool_decide_eq_false_2 _ H1).
  destruct (decide (Js.toLowerCase name = "advanced")) as [->|H2];
    [destruct t; simpl; split; congruence|].
  rewrite (bool_decide_eq_false_2 _ H2).
  destruct (decide (Js.toLowerCase name = "professional")) as [->|H3];
    [destruct t; simpl; split; congruence|].
  rewrite (bool_decide_eq_false_2 _ H3).
  destruct (decide (Js.toLowerCase name = "premium")) as [->|H4];
    [destruct t; simpl; split; congruence|].
  rewrite (bool_decide_eq_false_2 _ H4).
  destruct (decide (Js.toLowerCase name = "custom")) as [->|H5];
    [destruct t; simpl; split; congruence|].
  rewrite (bool_decide_eq_false_2 _ H5).
  destruct t; simpl; split; congruence.
Qed.

(** X24. Which tier a successful fetch selects.  With a 2xx permission
    payload, a plan name that is there and not empty decides alone: the
    tier is the one of the five whose name it spells in any letter case,
    whatever the table says; without a name (or with an empty one) the tier
    is the one [detectPlanFromLimits] reads from the table, which is never
    "custom" and never "unknown". *)
Theorem fetched_tier (now status : Z) (statusText : string) (data : Json.value)
    (st : PlanLimitsState) :
  Js.isOk status = true →
  let st' := snd (fetchPlanLimits now (Js.Responded status statusText (Some data)) st) in
  (∀ name, r_planName (parseApiResponse data) = Some name → name ≠ "" →
     plan st' = normalizePlanName name ∧
     ∀ t, t ≠ unknown → plan st' = t ↔ Js.toLowerCase name = tierName t) ∧
  (r_planName (parseApiResponse data) = None
   ∨ r_planName (parseApiResponse data) = Some "" →
   plan st' = detectPlanFromLimits (r_limits (parseApiResponse data)) ∧
   plan st' ∈ [basic; advanced; professional; premium]).
Proof.
  intros Hok st'. subst st'. unfold fetchPlanLimits. rewrite Hok. cbn [negb].
  assert (bool_decide (status = 403) || bool_decide (status = 500) = false) as ->.
  { unfold Js.isOk in Hok. apply andb_true_iff in Hok as [_ Hle].
    apply Z.leb_le in Hle.
    rewrite !bool_decide_eq_false_2 by lia. reflexivity. }
  cbn [snd plan]. split.
  - intros name -> Hne. destruct name; [congruence|]. cbn [Js.truthy_string].
    split; [reflexivity|]. intros t Ht. now apply normalizePlanName_tier.
  - intros [-> | ->]; cbn [Js.truthy_string];
      (split; [reflexivity | apply detectPlanFromLimits_range]).
Qed.

Lemma fetched_tier_witness :
  let st' := snd (fetchPlanLimits Sample.now (Js.Responded 200 "OK" (Some Sample.planBody))
                    DEFAULT_STATE) in
  (∀ name, r_planName (parseApiResponse Sample.planBody) = Some name → name ≠ "" →
     plan st' = normalizePlanName name ∧
     ∀ t, t ≠ unknown → plan st' = t ↔ Js.toLowerCase name = tierName t) ∧
  (r_planName (parseApiResponse Sample.planBody) = None
   ∨ r_planName (parseApiResponse Sample.planBody) = Some "" →
   plan st' = detectPlanFromLimits (r_limits (parseApiResponse Sample.planBody)) ∧
   plan st' ∈ [basic; advanced; professional; premium]).
Proof.
  apply (fetched_tier Sample.now 200 "OK" Sample.planBody DEFAULT_STATE). reflexivity.
Defined.

End FetchedTier.

Section Credentials.
Import Cache AuthStorage AuthTools Spec.
Import Terms.



Lemma trimStart_blank s :
  Js.trimStart s = "" ↔ ∀ pre c post, s = pre +:+ String c post → Js.isWhiteSpace c = true.
Proof.
  induction s as [|c r IH]; simpl.
  - split; [|reflexivity]. intros _ pre c post Heq. destruct pre; discriminate.
  - destruct (Js.isWhiteSpace c) eqn:Hc.
    + rewrite IH. split.
      * intros Hall pre c' post Heq. destruct pre as [|p pre].
        -- rewrite append_nil in Heq. injection Heq as <- _. assumption.
        -- rewrite append_cons in Heq. injection Heq as _ ->. eauto.
      * intros Hall pre c' post ->. apply (Hall (String c pre) c' post).
        now rewrite append_cons.
    + split; [discriminate|]. intros Hall.
      rewrite (Hall "" c r) in Hc; [discriminate | now rewrite append_nil].
Qed.

Lemma trimEnd_blank s : Js.trimEnd s = "" → Js.trimStart s = "".
Proof.
  induction s as [|c r IH]; simpl; [reflexivity|].
  destruct (Js.trimEnd r) eqn:Hr; [|discriminate].
  destruct (Js.isWhiteSpace c); [intros _; now apply IH | discriminate].
Qed.

Lemma trimEnd_of_blank s : Js.trimStart s = "" → Js.trimEnd s = "".
Proof.
  induction s as [|c r IH]; simpl; [reflexivity|].
  destruct (Js.isWhiteSpace c); [|discriminate]. intros Hr. now rewrite (IH Hr).
Qed.

Lemma trimStart_idem s : Js.trimStart (Js.trimStart s) = Js.trimStart s.
Proof.
  induction s as [|c r IH]; simpl; [reflexivity|].
  destruct (Js.isWhiteSpace c) eqn:Hc; [assumption|]. simpl. now rewrite Hc.
Qed.

Lemma trim_blank s : Js.trim s = "" ↔ Js.trimStart s = "".
Proof.
  unfold Js.trim. split.
  - intros Hend. apply trimEnd_blank in Hend. now rewrite trimStart_idem in Hend.
  - intros ->. reflexivity.
Qed.

Lemma usableEnvKey_check key :
  usableEnvKey key ↔
  Js.truthy_string key && Js.truthy_string (Js.trim key) && negb (String.prefix "${" key)
  = true.
Proof.
  unfold usableEnvKey. rewrite !andb_true_iff, negb_true_iff.
  assert (Js.truthy_string (Js.trim key) = true ↔
          ∃ pre c post, key = pre +:+ String c post ∧ Js.isWhiteSpace c = false) as Htrim.
  { split.
    - intros Ht. destruct (Js.trim key) eqn:E; [discriminate|]. clear Ht.
      assert (Js.trimStart key ≠ "") as Hne.
      { intros Hblank. apply trim_blank in Hblank. congruence. }
      clear E. induction key as [|c r IH]; [now simpl in Hne|]. simpl in Hne.
      destruct (Js.isWhiteSpace c) eqn:Hc.
      + destruct (IH Hne) as (pre & c' & post & -> & Hc').
        exists (String c pre), c', post. now rewrite append_cons.
      + exists "", c, r. now rewrite append_nil.
    - intros (pre & c & post & Hkey & Hc).
      destruct (Js.trim key) eqn:E; [|reflexivity].
      apply trim_blank in E. rewrite trimStart_blank in E.
      rewrite (E pre c post Hkey) in Hc. discriminate. }
  assert (String.prefix "${" key = false ↔ ¬ ∃ rest, key = String "$" (String "{" rest))
    as Hprefix.
  { rewrite <- not_true_iff_false, prefix_occurs.
    split; intros Hnot [rest Hrest]; apply Hnot; exists rest; rewrite Hrest;
      now rewrite !append_cons, append_nil. }
  rewrite Htrim, Hprefix. split.
  - intros [Hchar Hnot]. split; [split; [|assumption] | assumption].
    destruct Hchar as (pre & c & post & -> & _). destruct pre; reflexivity.
  - tauto.
Qed.

(** X27. Where the key of a call comes from.  A non-empty key given as
    parameter is the key used; without one, a usable key of the
    environment is used (one that holds a character other than white space
    and is no unexpanded placeholder), whatever is stored; without either,
    the stored key is used, so that a key once given as parameter and
    saved is found again by the next call that gives none. *)
Theorem resolveApiKey_order :
  (∀ key envKey credentials,
     key ≠ "" → resolveApiKey (Some key) envKey credentials = Some (Json.Str key)) ∧
  (∀ paramKey key credentials,
     Js.given paramKey = None → usableEnvKey key →
     resolveApiKey paramKey (Some key) credentials = Some (Json.Str key)) ∧
  (∀ paramKey envKey credentials,
     Js.given paramKey = None → (∀ key, envKey = Some key → ¬ usableEnvKey key) →
     resolveApiKey paramKey envKey credentials = getStoredApiKey credentials) ∧
  (∀ created validated key credentials credentials' envKey,
     key ≠ "" →
     saveApiKey created validated key credentials = Js.Normal credentials' →
     (∀ env, envKey = Some env → ¬ usableEnvKey env) →
     resolveApiKey None envKey credentials' = Some (Json.Str key)).
Proof.
  assert (∀ paramKey envKey credentials,
            Js.given paramKey = None → (∀ key, envKey = Some key → ¬ usableEnvKey key) →
            resolveApiKey paramKey envKey credentials = getStoredApiKey credentials)
    as Hstored.
  { intros paramKey envKey credentials Hparam Henv. unfold resolveApiKey. rewrite Hparam.
    destruct envKey as [key|]; [|reflexivity].
    destruct (Js.truthy_string key && _ && _) eqn:Hcheck; [|reflexivity].
    apply usableEnvKey_check in Hcheck. now destruct (Henv key eq_refl). }
  split; [|split; [|split]].
  - intros key envKey credentials Hkey. unfold resolveApiKey, Js.given.
    destruct key; [congruence | reflexivity].
  - intros paramKey key credentials Hparam Husable. unfold resolveApiKey.
    rewrite Hparam. apply usableEnvKey_check in Husable. now rewrite Husable.
  - exact Hstored.
  - intros created validated key credentials credentials' envKey Hkey Hsave Henv.
    rewrite Hstored by (reflexivity || assumption).
    unfold saveApiKey in Hsave. cbn [JsDate.toISOString] in Hsave.
    destruct (write_error credentials); [discriminate|]. injection Hsave as <-.
    unfold getStoredApiKey. cbn [file].
    assert (∀ rest, Json.propOrThrow "api_key"
                      (Some (Json.Obj (("api_key", Json.Str key) :: rest)))
                    = Some (Some (Json.Str key))) as -> by reflexivity.
    destruct key; [congruence | reflexivity].
Qed.

End Credentials.
(* ===================================================================== *)
(** * The earliest allowed date *)
(* ===================================================================== *)

Section EarliestDate.
Import PlanLimits Spec.
Import Terms.









End EarliestDate.

